(** * Lucky-draw engine: number allocator, draw controller and slot machine

    A shallow embedding of the draw logic of [src/App.tsx]
    ([getRandomNumber], [generateRandomNumber], [handleSpinFinished]) and of
    the reveal state machine of [src/components/SlotMachine.tsx], together
    with the properties the specification states about them, and with
    further properties of the same code: the draw cycle of [App], the
    navigation among prizes and winners, the sessions of the slot machine
    in each of its modes, what it displays, and the flicker of [SlotDigit].

    JavaScript numbers are modelled by [num]: an integer of [Z] or [NaN]
    (all quantities of the draw are integers far below 2^53, where the
    arithmetic of doubles is exact).  Strings are [string] (the strings of
    the draw are numerals); the API key, which the operator types and the
    code trims, is the list of its UTF-16 code units.  Arrays are lists, a
    [Set<number>] is a [gset num]. *)

From stdpp Require Import base numbers list strings gmap pretty.
From Stdlib Require Import ZArith Lia Ascii.

(** ** JavaScript values used by the draw logic *)

Module JS.

Inductive num : Type :=
| Int (z : Z)
| NaN.

#[global] Instance num_eq_dec : EqDecision num.
Proof. solve_decision. Defined.

Definition num_to_option (n : num) : option Z :=
  match n with Int z => Some z | NaN => None end.

Definition num_of_option (o : option Z) : num :=
  match o with Some z => Int z | None => NaN end.

#[global] Instance num_countable : Countable num.
Proof.
  apply (inj_countable' num_to_option num_of_option).
  intros [z|]; reflexivity.
Defined.

(** What the code holds where its types say [number]: the value
    [getRandomNumber] returns is an element of the array of the service,
    returned as it is.  It is a number of the model, [null], or any other
    value (a fraction, a string, a boolean, an array, an object), of which
    the code only ever takes the string: [text] is what its [toString()]
    gives.  An integer of a JSON array is [Number (Int z)]. *)
Inductive value : Type :=
| Number (n : num)
| Null
| Other (text : string).

#[global] Instance value_eq_dec : EqDecision value.
Proof. solve_decision. Defined.

(** [Number.prototype.toString()] on the values of the model. *)
Definition toString (n : num) : string :=
  match n with
  | Int z => pretty z
  | NaN => "NaN"
  end.

(** [a % b]: the remainder takes the sign of the dividend; a zero divisor
    gives [NaN]. *)
Definition rem (a b : Z) : num :=
  if (b =? 0)%Z then NaN else Int (Z.rem a b).

Definition add (a : num) (b : Z) : num :=
  match a with Int z => Int (z + b) | NaN => NaN end.

(** Truthiness of a string-or-null value: [null] and the empty string are
    falsy. *)
Definition truthy (s : option string) : bool :=
  match s with
  | Some EmptyString => false
  | Some _ => true
  | None => false
  end.

(** The white space of ECMAScript ([WhiteSpace] and [LineTerminator]), by
    UTF-16 code unit: tab, line feed, vertical tab, form feed, carriage
    return, space, U+00A0, U+1680, U+2000 to U+200A, U+2028, U+2029, U+202F,
    U+205F, U+3000 and U+FEFF.  It is what [trim] strips and [parseInt]
    skips. *)
Definition is_white_unit (u : N) : bool :=
  match u with
  | 9%N | 10%N | 11%N | 12%N | 13%N | 32%N | 160%N | 5760%N
  | 8232%N | 8233%N | 8239%N | 8287%N | 12288%N | 65279%N => true
  | _ => ((8192 <=? u) && (u <=? 8202))%N
  end.

Definition is_white (c : ascii) : bool := is_white_unit (Ascii.N_of_ascii c).

Fixpoint trim_start (s : string) : string :=
  match s with
  | String c s' => if is_white c then trim_start s' else s
  | EmptyString => EmptyString
  end.

(** [String.prototype.trim()], on a string given by its code units. *)
Fixpoint trimStart (s : list N) : list N :=
  match s with
  | u :: s' => if is_white_unit u then trimStart s' else s
  | [] => []
  end.

Definition trimEnd (s : list N) : list N := rev (trimStart (rev s)).

Definition trim (s : list N) : list N := trimEnd (trimStart s).

(** The code units of a string of the model. *)
Fixpoint units (s : string) : list N :=
  match s with
  | String c s' => Ascii.N_of_ascii c :: units s'
  | EmptyString => []
  end.

Definition digit_value (c : ascii) : option Z :=
  let n := Ascii.N_of_ascii c in
  if ((48 <=? n) && (n <=? 57))%N then Some (Z.of_N n - 48)%Z else None.

(** The digits read by [parseInt(_, 10)]: the longest prefix of decimal
    digits, accumulated from the left; [None] when there is no digit. *)
Fixpoint parse_digits (acc : option Z) (s : string) : option Z :=
  match s with
  | String c s' =>
      match digit_value c with
      | Some d => parse_digits (Some (from_option id 0%Z acc * 10 + d)%Z) s'
      | None => acc
      end
  | EmptyString => acc
  end.

(** [parseInt(s, 10)]: leading white space, an optional sign, then
    digits; [NaN] when no digit follows. *)
Definition parseInt (s : string) : num :=
  match trim_start s with
  | String "-"%char s' => num_of_option (Z.opp <$> parse_digits None s')
  | String "+"%char s' => num_of_option (parse_digits None s')
  | s' => num_of_option (parse_digits None s')
  end.

(** [String.prototype.padStart(targetLength, padString)]. *)
Fixpoint filler (n : nat) (pad cur : string) : string :=
  match n with
  | O => EmptyString
  | S n' =>
      match cur with
      | String c cur' => String c (filler n' pad cur')
      | EmptyString =>
          match pad with
          | String c pad' => String c (filler n' pad pad')
          | EmptyString => EmptyString
          end
      end
  end.

Definition padStart (s : string) (targetLength : nat) (padString : string)
  : string :=
  if (targetLength <=? String.length s)%nat then s
  else match padString with
       | EmptyString => s
       | _ => filler (targetLength - String.length s) padString padString
                +:+ s
       end.

(** [arr[i] = v] on a copy of [arr]: inside the array the element is
    replaced, beyond its end the array grows (the skipped positions are
    holes, which read as falsy: [false] here). *)
Definition set_index (arr : list bool) (i : nat) (v : bool) : list bool :=
  if (i <? length arr)%nat then <[i:=v]> arr
  else arr ++ replicate (i - length arr) false ++ [v].

(** [arr[i]] used as a condition: [undefined] is falsy. *)
Definition at_index (arr : list bool) (i : nat) : bool :=
  from_option id false (arr !! i).

(** [Array(n).fill(v)]. *)
Definition fill (n : nat) (v : bool) : list bool := replicate n v.

(** [arr.every(s => s)] and [arr.some(s => s)]. *)
Definition every (arr : list bool) : bool := forallb id arr.
Definition some (arr : list bool) : bool := existsb id arr.

End JS.


(** ** The number allocator ([src/App.tsx]) *)

Module Allocator.
Import JS.

Inductive RandomSource : Type :=
| LOCAL
| RANDOM_ORG.

Record GlobalSettings : Type := {
  minNumber : Z;
  maxNumber : Z;
  excludePreviousWinners : bool;
  randomSource : RandomSource;
  randomOrgApiKey : option (list N)
}.

Record Winner : Type := {
  wid : string;
  prizeId : string;
  prizeName : string;
  number : string;
  timestamp : Z
}.

(** *** The outside world

    What the remote service answers to the successive requests and what
    [crypto.getRandomValues] delivers at the successive calls.  A [Meter]
    counts the requests and the draws made so far. *)

(** What [response.json()] resolves to, as far as the code looks at it:
    [null], or a value with [error] truthy or not and with
    [result?.random?.data] an array ([Some]) or anything else ([None]).
    The elements of the array are any values of JSON: the code does not
    look at what they are. *)
Inductive JsonData : Type :=
| JNull
| JObject (error : bool) (data : option (list value)).

(** The body of a response: JSON or not. *)
Inductive Body : Type :=
| NotJson
| Json (d : JsonData).

(** What becomes of a request: a transport error, or a response that
    arrives [latency] milliseconds after the request. *)
Inductive FetchOutcome : Type :=
| NetworkError
| Response (latency : Z) (body : Body).

Record World : Type := {
  entropy : nat -> Z;
  remote : nat -> FetchOutcome
}.

Record Meter : Type := {
  local_draws : nat;
  remote_requests : nat
}.

Inductive Exn : Type :=
| AbortError
| TypeError
| SyntaxError.

Inductive Res (A : Type) : Type :=
| Val (a : A)
| Raise (e : Exn).
Arguments Val {A} a.
Arguments Raise {A} e.

(** Computations that read the world, advance the meter and may throw. *)
Definition M (A : Type) : Type := Meter -> Res A * Meter.

Definition ret {A} (a : A) : M A := fun m => (Val a, m).

Definition throw {A} (e : Exn) : M A := fun m => (Raise e, m).

Definition bind {A B} (c : M A) (k : A -> M B) : M B :=
  fun m =>
    match c m with
    | (Val a, m') => k a m'
    | (Raise e, m') => (Raise e, m')
    end.

Definition try_catch {A} (c : M A) (handler : Exn -> M A) : M A :=
  fun m =>
    match c m with
    | (Val a, m') => (Val a, m')
    | (Raise e, m') => handler e m'
    end.

Notation "'let!' x ':=' c 'in' k" := (bind c (fun x => k))
  (at level 10, x name, c at level 100, k at level 200).

Definition timeout_ms : Z := 3000.

Section WithWorld.
Variable w : World.

(** [window.crypto.getRandomValues(new Uint32Array(1))]. *)
Definition getRandomValues : M Z :=
  fun m =>
    (Val (entropy w (local_draws m) mod 2 ^ 32)%Z,
     {| local_draws := S (local_draws m);
        remote_requests := remote_requests m |}).

(** [fetch] with the abort signal armed at [timeout_ms]. *)
Definition fetch : M Body :=
  fun m =>
    let m' := {| local_draws := local_draws m;
                 remote_requests := S (remote_requests m) |} in
    match remote w (remote_requests m) with
    | NetworkError => (Raise TypeError, m')
    | Response latency body =>
        if (timeout_ms <=? latency)%Z then (Raise AbortError, m')
        else (Val body, m')
    end.

(** [await response.json()]. *)
Definition response_json (b : Body) : M JsonData :=
  match b with
  | NotJson => throw SyntaxError
  | Json d => ret d
  end.

(** [data.error]: reading a property of [null] throws. *)
Definition data_error (d : JsonData) : M bool :=
  match d with
  | JNull => throw TypeError
  | JObject error _ => ret error
  end.

(** [data.result?.random?.data], when it is an array. *)
Definition data_numbers (d : JsonData) : option (list value) :=
  match d with
  | JNull => None
  | JObject _ data => data
  end.

(** [taken.has(v)]: the set holds numbers only, so a value that is not
    a number is never in it. *)
Definition has (taken : gset num) (v : value) : bool :=
  match v with
  | Number n => bool_decide (n ∈ taken)
  | Null | Other _ => false
  end.

(** [settings.randomSource === RANDOM_ORG &&
    settings.randomOrgApiKey?.trim()], as a condition: the key is set and
    is not empty once trimmed. *)
Definition useRandomOrg (settings : GlobalSettings) : bool :=
  match randomSource settings with
  | RANDOM_ORG =>
      match trim <$> randomOrgApiKey settings with
      | Some (_ :: _) => true
      | Some [] | None => false
      end
  | LOCAL => false
  end.

Definition getLocalRandom (min range : Z) : M value :=
  let! a := getRandomValues in
  ret (Number (add (rem a range) min)).

(** [result.toString()]: [null] has no method. *)
Definition result_toString (v : value) : M string :=
  match v with
  | Number n => ret (toString n)
  | Null => throw TypeError
  | Other text => ret text
  end.

Definition getRandomNumber (settings : GlobalSettings)
    (min max : Z) (taken : gset num) : M value :=
  let range := (max - min + 1)%Z in
  if negb (useRandomOrg settings) then getLocalRandom min range
  else
    try_catch
      (let! response := fetch in
       let! data := response_json response in
       let! error := data_error data in
       if error then getLocalRandom min range
       else
         match data_numbers data with
         | Some numbers =>
             match List.find (fun num => negb (has taken num)) numbers with
             | Some num => ret num
             | None => getLocalRandom min range
             end
         | None => getLocalRandom min range
         end)
      (fun _ => getLocalRandom min range).

(** What a run of [generateRandomNumber] gives: the loop of the source is
    run with a bound on its iterations, [OutOfFuel] telling a run the
    bound has cut. *)
Inductive Outcome : Type :=
| OutOfFuel
| Returned (r : option string).

Definition takenNumbers (winners : list Winner) : gset num :=
  list_to_set ((fun w0 => parseInt (number w0)) <$> winners).

Definition maxAttempts (settings : GlobalSettings) : Z :=
  ((maxNumber settings - minNumber settings) * 5)%Z.

(** The [do ... while (!found)] loop. *)
Fixpoint do_while (fuel : nat) (settings : GlobalSettings)
    (taken : gset num) (attempts : Z) : M Outcome :=
  match fuel with
  | O => ret OutOfFuel
  | S fuel' =>
      let! result := getRandomNumber settings (minNumber settings)
                  (maxNumber settings) taken in
      let attempts := (attempts + 1)%Z in
      let found :=
        negb (excludePreviousWinners settings) || negb (has taken result) in
      if (attempts >? maxAttempts settings)%Z then ret (Returned None)
      else if found
      then let! s := result_toString result in ret (Returned (Some s))
      else do_while fuel' settings taken attempts
  end.

Definition generateRandomNumber (fuel : nat) (settings : GlobalSettings)
    (winners : list Winner) : M Outcome :=
  let taken := takenNumbers winners in
  if ((maxNumber settings - minNumber settings + 1 <=? Z.of_nat (size taken))%Z
      && excludePreviousWinners settings)
  then ret (Returned None)
  else do_while fuel settings taken 0.

End WithWorld.

Definition start : Meter := {| local_draws := 0; remote_requests := 0 |}.

Definition constant_world (u : Z) : World :=
  {| entropy := fun _ => u; remote := fun _ => NetworkError |}.

Definition winner_of (n : string) : Winner :=
  {| wid := "w"; prizeId := "p"; prizeName := "prize"; number := n;
     timestamp := 0 |}.

Definition local_settings (lo hi : Z) (exclude : bool) : GlobalSettings :=
  {| minNumber := lo; maxNumber := hi; excludePreviousWinners := exclude;
     randomSource := LOCAL; randomOrgApiKey := None |}.

End Allocator.

(** ** Reading the allocator: its draws one by one *)

Module AllocatorSpec.
Import JS Allocator.

(** The meter after one local draw, and after one request. *)
Definition after_local (m : Meter) : Meter :=
  {| local_draws := S (local_draws m);
     remote_requests := remote_requests m |}.

Definition after_request (m : Meter) : Meter :=
  {| local_draws := local_draws m;
     remote_requests := S (remote_requests m) |}.

(** The value of the local draw made at meter [m]. *)
Definition local_value (w : World) (min max : Z) (m : Meter) : num :=
  add (rem (entropy w (local_draws m) mod 2 ^ 32) (max - min + 1)) min.

(** The string [result.toString()] gives, when it gives one. *)
Definition string_of (v : value) : option string :=
  match v with
  | Number n => Some (toString n)
  | Null => None
  | Other text => Some text
  end.

(** [generateRandomNumber], once the loop has its value [r], if any. *)
Definition finish (r : option value) : M Outcome :=
  match r with
  | None => ret (Returned None)
  | Some v => let! s := result_toString v in ret (Returned (Some s))
  end.

Section Draws.
Variable w : World.
Variable settings : GlobalSettings.
Variable taken : gset num.

(** One call of [getRandomNumber], as a total function. *)
Definition draw (m : Meter) : value * Meter :=
  match getRandomNumber w settings (minNumber settings)
          (maxNumber settings) taken m with
  | (Val v, m') => (v, m')
  | (Raise _, m') => (Number NaN, m')
  end.

Definition accepted (v : value) : bool :=
  negb (excludePreviousWinners settings) || negb (has taken v).

(** The first accepted draw among [n] draws; one more draw is made, and
    dropped, when the [n] draws are all refused. *)
Fixpoint scan (n : nat) (m : Meter) : option value * Meter :=
  let (v, m') := draw m in
  match n with
  | O => (None, m')
  | S n' => if accepted v then (Some v, m') else scan n' m'
  end.

(** The meter before the draw of index [k], and that draw. *)
Definition nth_meter (k : nat) (m : Meter) : Meter :=
  Nat.iter k (fun m0 => snd (draw m0)) m.

Definition nth_draw (k : nat) (m : Meter) : value :=
  fst (draw (nth_meter k m)).

(** The answers of the service that the code takes for failures of the
    remote source: no answer in time, a transport error, a body that is not
    JSON or is [null], an error indicator, no array, an array whose
    elements are all taken numbers. *)
Definition remote_failure (o : FetchOutcome) : bool :=
  match o with
  | NetworkError => true
  | Response latency body =>
      (timeout_ms <=? latency)%Z ||
      match body with
      | NotJson => true
      | Json JNull => true
      | Json (JObject error data) =>
          error ||
          match data with
          | None => true
          | Some numbers => forallb (has taken) numbers
          end
      end
  end.

(** The service answers with integers of the range it was asked for. *)
Definition remote_in_range : Prop :=
  forall k latency error numbers,
    remote w k = Response latency (Json (JObject error (Some numbers))) ->
    Forall (fun c => exists n,
              c = Number (Int n) /\
              (minNumber settings <= n <= maxNumber settings)%Z)
      numbers.

(** Where [getRandomNumber] takes its value from. *)
Inductive origin (m : Meter) : value -> Meter -> Prop :=
| from_local :
    useRandomOrg settings = false ->
    origin m
      (Number (local_value w (minNumber settings) (maxNumber settings) m))
      (after_local m)
| from_fallback :
    useRandomOrg settings = true ->
    remote_failure (remote w (remote_requests m)) = true ->
    origin m
      (Number (local_value w (minNumber settings) (maxNumber settings) m))
      (after_local (after_request m))
| from_remote latency error numbers c :
    useRandomOrg settings = true ->
    remote w (remote_requests m)
      = Response latency (Json (JObject error (Some numbers))) ->
    c ∈ numbers ->
    has taken c = false ->
    origin m c (after_request m).

End Draws.

(** Settings and worlds the properties are tried on. *)
Definition remote_settings (lo hi : Z) (exclude : bool) : GlobalSettings :=
  {| minNumber := lo; maxNumber := hi; excludePreviousWinners := exclude;
     randomSource := RANDOM_ORG; randomOrgApiKey := Some (units "key") |}.

Definition force_local (settings : GlobalSettings) : GlobalSettings :=
  {| minNumber := minNumber settings;
     maxNumber := maxNumber settings;
     excludePreviousWinners := excludePreviousWinners settings;
     randomSource := LOCAL;
     randomOrgApiKey := randomOrgApiKey settings |}.

(** A world whose draws are [0] for the first [n] calls and [1] after. *)
Definition late_world (n : nat) : World :=
  {| entropy := fun k => if (k <? n)%nat then 0%Z else 1%Z;
     remote := fun _ => NetworkError |}.

(** A world whose service answers in time with the array [numbers]. *)
Definition answering (numbers : list value) : World :=
  {| entropy := fun _ => 0%Z;
     remote := fun _ => Response 120 (Json (JObject false (Some numbers))) |}.

(** A world whose service answers too late, with a candidate that is free. *)
Definition silent_world : World :=
  {| entropy := fun _ => 4294967303%Z;
     remote := fun _ =>
       Response 3000 (Json (JObject false (Some [Number (Int 1)]))) |}.

End AllocatorSpec.

(** ** The draw controller ([handleStartSpin], [handleSpinFinished] of
    [src/App.tsx]) *)

Module Types.

Inductive SpinMode : Type :=
| ALL_AT_ONCE
| SEQUENTIAL
| MANUAL.

Inductive ManualRevealMode : Type :=
| CLICK
| TIMER.

(** Modelled from the spec: the enumeration [AutoStopMode] is imported from
    the types of the repository but its declaration is not among the
    sources; its two values are those the spec and the comments of
    [SlotMachine.tsx] name. *)
Inductive AutoStopMode : Type :=
| AUTO_TIMER
| AUTO_MANUAL.

#[global] Instance SpinMode_eq_dec : EqDecision SpinMode.
Proof. solve_decision. Defined.

#[global] Instance ManualRevealMode_eq_dec : EqDecision ManualRevealMode.
Proof. solve_decision. Defined.

#[global] Instance AutoStopMode_eq_dec : EqDecision AutoStopMode.
Proof. solve_decision. Defined.

Record Prize : Type := {
  prize_id : string;
  name : string;
  quantity : nat;
  spinMode : SpinMode;
  spinDuration : Z;
  digitCount : nat;
  manualRevealMode : option ManualRevealMode;
  autoStopMode : option AutoStopMode
}.

End Types.

Module Draw.
Import JS Allocator Types.

(** The state of [App] that the draw handlers read and write;
    [spinOscillatorRef] tells whether the ref holds an audio handle. *)
Record App : Type := {
  currentPrizeId : string;
  isSpinning : bool;
  targetNumber : option string;
  isManualSpinning : bool;
  isManualSpinActive : bool;
  showConfetti : bool;
  errorMsg : option string;
  soundEnabled : bool;
  winners : list Winner;
  winnersRef : list Winner;
  spinOscillatorRef : bool
}.

(** What a handler asks of its collaborators; [Rejected e]: the promise
    of the handler is rejected with [e], which nobody handles. *)
Inductive Effect : Type :=
| Resume
| PlaySpinSound
| PauseSpinAudio
| PlayWin
| HideConfettiAfter (ms : Z)
| Rejected (e : Exn).

Definition error_complete : string := "prize complete".
Definition error_exhausted : string := "pool exhausted".

Definition set_error (a : App) (confetti : bool) (msg : string) : App :=
  {| currentPrizeId := currentPrizeId a;
     isSpinning := isSpinning a;
     targetNumber := targetNumber a;
     isManualSpinning := isManualSpinning a;
     isManualSpinActive := isManualSpinActive a;
     showConfetti := confetti;
     errorMsg := Some msg;
     soundEnabled := soundEnabled a;
     winners := winners a;
     winnersRef := winnersRef a;
     spinOscillatorRef := spinOscillatorRef a |}.

(** [currentWinners.length >= (currentPrize?.quantity || 0)]. *)
Definition isPrizeComplete (a : App) (prize : Prize) : bool :=
  (quantity prize
   <=? length (filter (fun w0 => prizeId w0 = currentPrizeId a) (winners a)))%nat.

(** [setErrorMsg(null); setShowConfetti(false)]. *)
Definition clear_error (a : App) : App :=
  {| currentPrizeId := currentPrizeId a;
     isSpinning := isSpinning a;
     targetNumber := targetNumber a;
     isManualSpinning := isManualSpinning a;
     isManualSpinActive := isManualSpinActive a;
     showConfetti := false;
     errorMsg := None;
     soundEnabled := soundEnabled a;
     winners := winners a;
     winnersRef := winnersRef a;
     spinOscillatorRef := spinOscillatorRef a |}.

(** [handleStartSpin]; [None] when the allocation is cut by the bound on
    its iterations.  When [generateRandomNumber] throws, the handler stops
    there: the error message and the confetti have been cleared, and its
    promise is rejected. *)
Definition handleStartSpin (w : World) (fuel : nat)
    (settings : GlobalSettings) (prize : Prize) (a : App)
  : M (option (App * list Effect)) :=
  if isSpinning a || isManualSpinning a || isManualSpinActive a
  then ret (Some (a, [Resume]))
  else if isPrizeComplete a prize
  then ret (Some (set_error a (showConfetti a) error_complete, [Resume]))
  else
    try_catch
      (let! num := generateRandomNumber w fuel settings (winnersRef a) in
       match num with
       | OutOfFuel => ret None
       | Returned num =>
           if negb (truthy num)
           then ret (Some (set_error a false error_exhausted, [Resume]))
           else
             let manual := bool_decide (spinMode prize = MANUAL) in
             let sound := negb manual && soundEnabled a in
             ret (Some
                  ({| currentPrizeId := currentPrizeId a;
                      isSpinning := true;
                      targetNumber := num;
                      isManualSpinning := isManualSpinning a;
                      isManualSpinActive :=
                        if manual then true else isManualSpinActive a;
                      showConfetti := false;
                      errorMsg := None;
                      soundEnabled := soundEnabled a;
                      winners := winners a;
                      winnersRef := winnersRef a;
                      spinOscillatorRef :=
                        if sound then true else spinOscillatorRef a |},
                   if manual then [Resume] else [Resume; PlaySpinSound]))
       end)
      (fun e => ret (Some (clear_error a, [Resume; Rejected e]))).

(** The record [handleSpinFinished] builds; [Date.now()] is read twice. *)
Definition newWinner (prize : Prize) (target : string) (now_id now_stamp : Z)
  : Winner :=
  {| wid := toString (Int now_id);
     prizeId := prize_id prize;
     prizeName := name prize;
     number := padStart target (digitCount prize) "0";
     timestamp := now_stamp |}.

(** [handleSpinFinished]. *)
Definition handleSpinFinished (prize : Prize) (now_id now_stamp : Z) (a : App)
  : App * list Effect :=
  let stop_audio := negb (isManualSpinning a) && spinOscillatorRef a in
  let committed (ws : list Winner) : list Winner :=
    match targetNumber a with
    | Some target =>
        if truthy (Some target)
        then newWinner prize target now_id now_stamp :: ws
        else ws
    | None => ws
    end in
  ({| currentPrizeId := currentPrizeId a;
      isSpinning := false;
      targetNumber := None;
      isManualSpinning := isManualSpinning a;
      isManualSpinActive := false;
      showConfetti := true;
      errorMsg := errorMsg a;
      soundEnabled := soundEnabled a;
      winners := committed (winners a);
      winnersRef := committed (winnersRef a);
      spinOscillatorRef :=
        if stop_audio then false else spinOscillatorRef a |},
   (if stop_audio then [PauseSpinAudio] else [])
     ++ [PlayWin; HideConfettiAfter 5000]).

(** The reading of the spec: [n] zeros in front. *)
Fixpoint zeros (n : nat) : string :=
  match n with
  | O => EmptyString
  | S n' => String "0" (zeros n')
  end.

Definition zero_padded (width : nat) (s : string) : string :=
  zeros (width - String.length s) +:+ s.

(** A prize and an application state the properties are tried on. *)
Definition consolation : Prize :=
  {| prize_id := "kk-1"; name := "consolation"; quantity := 6;
     spinMode := ALL_AT_ONCE; spinDuration := 5000; digitCount := 3;
     manualRevealMode := None; autoStopMode := Some AUTO_MANUAL |}.

Definition spinning_app (target : option string) : App :=
  {| currentPrizeId := "kk-1"; isSpinning := true; targetNumber := target;
     isManualSpinning := false; isManualSpinActive := false;
     showConfetti := false; errorMsg := None; soundEnabled := true;
     winners := []; winnersRef := []; spinOscillatorRef := true |}.

End Draw.

(** ** The slot machine ([src/components/SlotMachine.tsx]) *)

Module Slot.
Import JS Types.

(** The properties of the component that [App] takes from the current
    prize, and, for each optional callback, whether the parent provides it
    ([App] provides the same callbacks at every render).  The properties
    of the prize change when another prize is selected: the component is
    not remounted, it is rendered with the new ones ([SelectPrize]). *)
Record Config : Type := {
  digitCount : nat;
  spinMode : SpinMode;
  spinDuration : Z;
  manualRevealMode : option ManualRevealMode;
  autoStopMode : option AutoStopMode;
  onStopDigit : bool;
  onStartedSpin : bool;
  onDigitSpinStart : bool;
  onDigitSpinStop : bool
}.

(** The properties the parent changes in the course of a draw. *)
Record Props : Type := {
  targetNumber : option string;
  isSpinning : bool;
  isManualSpinActive : bool
}.

Inductive TimerAction : Type :=
| ManualStop (i : nat)
| StopAll
| SeqStop (i : nat).

#[global] Instance TimerAction_eq_dec : EqDecision TimerAction.
Proof. solve_decision. Defined.

(** The state of the component: its [useState] cells, the ref
    [prevIsManualSpinActive], and the timeouts its two timer effects have
    pending, each with its delay. *)
Record State : Type := {
  digitSpinningState : list bool;
  digitStoppedState : list bool;
  manualSpinStarted : bool;
  pendingClickIndex : option nat;
  spinningDigitCount : Z;
  prevIsManualSpinActive : bool;
  manualTimers : list (Z * TimerAction);
  autoTimers : list (Z * TimerAction)
}.

(** The calls the component makes to its parent. *)
Inductive Emit : Type :=
| OnFinished
| OnStopDigit
| OnStartedSpin
| OnDigitSpinStart
| OnDigitSpinStop (stillSpinning : bool).

#[global] Instance Emit_eq_dec : EqDecision Emit.
Proof. solve_decision. Defined.

(** The prop defaults of the component. *)
Definition revealMode (cfg : Config) : ManualRevealMode :=
  default CLICK (manualRevealMode cfg).

Definition stopMode (cfg : Config) : AutoStopMode :=
  default AUTO_MANUAL (autoStopMode cfg).

(** *** State updates

    An update maps the state to the new state and lists the calls to the
    parent, in the order in which they are made.  The calls a handler, a
    timeout or an effect makes itself are made as it runs.  An updater
    passed to a setter is run by React when it applies the update, at the
    render that follows the handler: the calls of the updater are made
    then, after those of the handler ([queued]). *)

Definition Update : Type := State -> State * list Emit.

Definition skip : Update := fun s => (s, []).

Definition call (provided : bool) (e : Emit) : Update :=
  fun s => (s, if provided then [e] else []).

Fixpoint block (us : list Update) : Update :=
  match us with
  | [] => skip
  | u :: us' =>
      fun s =>
        let (s1, e1) := u s in
        let (s2, e2) := block us' s1 in
        (s2, e1 ++ e2)
  end.

Definition when (b : bool) (u : Update) : Update := if b then u else skip.

(** [queued u rest]: the handler queues the update [u], whose updater calls
    the parent, and goes on with [rest], which does not read the state.
    The update takes its place in the queue, and the calls of its updater
    are made at the render that follows, after the calls of [rest]. *)
Definition queued (u rest : Update) : Update :=
  fun s =>
    let (s1, e1) := u s in
    let (s2, e2) := rest s1 in
    (s2, e2 ++ e1).

Definition setDigitSpinningState (f : list bool -> list bool) : Update :=
  fun s =>
    ({| digitSpinningState := f (digitSpinningState s);
        digitStoppedState := digitStoppedState s;
        manualSpinStarted := manualSpinStarted s;
        pendingClickIndex := pendingClickIndex s;
        spinningDigitCount := spinningDigitCount s;
        prevIsManualSpinActive := prevIsManualSpinActive s;
        manualTimers := manualTimers s;
        autoTimers := autoTimers s |}, []).

Definition setDigitStoppedState (f : list bool -> list bool) : Update :=
  fun s =>
    ({| digitSpinningState := digitSpinningState s;
        digitStoppedState := f (digitStoppedState s);
        manualSpinStarted := manualSpinStarted s;
        pendingClickIndex := pendingClickIndex s;
        spinningDigitCount := spinningDigitCount s;
        prevIsManualSpinActive := prevIsManualSpinActive s;
        manualTimers := manualTimers s;
        autoTimers := autoTimers s |}, []).

Definition setManualSpinStarted (v : bool) : Update :=
  fun s =>
    ({| digitSpinningState := digitSpinningState s;
        digitStoppedState := digitStoppedState s;
        manualSpinStarted := v;
        pendingClickIndex := pendingClickIndex s;
        spinningDigitCount := spinningDigitCount s;
        prevIsManualSpinActive := prevIsManualSpinActive s;
        manualTimers := manualTimers s;
        autoTimers := autoTimers s |}, []).

Definition setPendingClickIndex (v : option nat) : Update :=
  fun s =>
    ({| digitSpinningState := digitSpinningState s;
        digitStoppedState := digitStoppedState s;
        manualSpinStarted := manualSpinStarted s;
        pendingClickIndex := v;
        spinningDigitCount := spinningDigitCount s;
        prevIsManualSpinActive := prevIsManualSpinActive s;
        manualTimers := manualTimers s;
        autoTimers := autoTimers s |}, []).

(** [setSpinningDigitCount(prev => ...)]: the updater may call the
    parent.  In every handler of the component another setter comes before
    this one, so React does not run the updater at the call but at the
    render that follows. *)
Definition setSpinningDigitCount (f : Z -> Z * list Emit) : Update :=
  fun s =>
    let (v, e) := f (spinningDigitCount s) in
    ({| digitSpinningState := digitSpinningState s;
        digitStoppedState := digitStoppedState s;
        manualSpinStarted := manualSpinStarted s;
        pendingClickIndex := pendingClickIndex s;
        spinningDigitCount := v;
        prevIsManualSpinActive := prevIsManualSpinActive s;
        manualTimers := manualTimers s;
        autoTimers := autoTimers s |}, e).

Definition setPrevIsManualSpinActive (v : bool) : Update :=
  fun s =>
    ({| digitSpinningState := digitSpinningState s;
        digitStoppedState := digitStoppedState s;
        manualSpinStarted := manualSpinStarted s;
        pendingClickIndex := pendingClickIndex s;
        spinningDigitCount := spinningDigitCount s;
        prevIsManualSpinActive := v;
        manualTimers := manualTimers s;
        autoTimers := autoTimers s |}, []).

Definition setManualTimers (f : list (Z * TimerAction) -> list (Z * TimerAction))
  : Update :=
  fun s =>
    ({| digitSpinningState := digitSpinningState s;
        digitStoppedState := digitStoppedState s;
        manualSpinStarted := manualSpinStarted s;
        pendingClickIndex := pendingClickIndex s;
        spinningDigitCount := spinningDigitCount s;
        prevIsManualSpinActive := prevIsManualSpinActive s;
        manualTimers := f (manualTimers s);
        autoTimers := autoTimers s |}, []).

Definition setAutoTimers (f : list (Z * TimerAction) -> list (Z * TimerAction))
  : Update :=
  fun s =>
    ({| digitSpinningState := digitSpinningState s;
        digitStoppedState := digitStoppedState s;
        manualSpinStarted := manualSpinStarted s;
        pendingClickIndex := pendingClickIndex s;
        spinningDigitCount := spinningDigitCount s;
        prevIsManualSpinActive := prevIsManualSpinActive s;
        manualTimers := manualTimers s;
        autoTimers := f (autoTimers s) |}, []).

(** The timeouts of [for (let i = 0; i < digitCount; i++)
    setTimeout(..., spinDuration * (i + 1))]. *)
Definition schedule (cfg : Config) (action : nat -> TimerAction)
  : list (Z * TimerAction) :=
  (fun i => ((spinDuration cfg * (Z.of_nat i + 1))%Z, action i))
    <$> seq 0 (digitCount cfg).

Section Component.
Variable cfg : Config.

Let n := digitCount cfg.

(** *** Functions of the component *)

Definition startDigitSpin (index : nat) : Update :=
  block [
    setDigitSpinningState (fun prev => set_index prev index true);
    setSpinningDigitCount (fun prev =>
      let newCount := (prev + 1)%Z in
      (newCount,
       if (newCount =? 1)%Z && onDigitSpinStart cfg
       then [OnDigitSpinStart] else []))
  ].

Definition stopDigitSpin (index : nat) : Update :=
  block [
    setDigitSpinningState (fun prev => set_index prev index false);
    setDigitStoppedState (fun prev => set_index prev index true);
    queued
      (setSpinningDigitCount (fun prev =>
         let newCount := (prev - 1)%Z in
         (newCount,
          if onDigitSpinStop cfg
          then [OnDigitSpinStop (0 <? newCount)%Z] else [])))
      (call (onStopDigit cfg) OnStopDigit)
  ].

Definition handleDigitClick (p : Props) (index : nat) : Update :=
  fun s =>
    if negb (bool_decide (spinMode cfg = MANUAL)) then skip s
    else if bool_decide (revealMode cfg = TIMER) then skip s
    else if at_index (digitSpinningState s) index
    then stopDigitSpin index s
    else
      let allStopped := every (digitStoppedState s) in
      if at_index (digitStoppedState s) index && negb allStopped
      then skip s
      else if negb (manualSpinStarted s) || allStopped
      then
        block [
          when allStopped (setDigitStoppedState (fun _ => fill n false));
          setManualSpinStarted true;
          if negb (truthy (targetNumber p)) && onStartedSpin cfg
          then block [call true OnStartedSpin;
                      setPendingClickIndex (Some index)]
          else startDigitSpin index
        ] s
      else if negb (truthy (targetNumber p)) then skip s
      else startDigitSpin index s.

Definition isDigitClickable (s : State) (idx : nat) : bool :=
  let areAllDigitsStopped := every (digitStoppedState s) in
  let isAnyDigitSpinning := some (digitSpinningState s) in
  if negb (bool_decide (spinMode cfg = MANUAL)) then false
  else if bool_decide (revealMode cfg = TIMER) then false
  else if at_index (digitSpinningState s) idx then true
  else if isAnyDigitSpinning then false
  else if areAllDigitsStopped then true
  else if negb (at_index (digitStoppedState s) idx) then true
  else false.

Definition revealResult (p : Props) : Update :=
  if negb (isSpinning p) || negb (truthy (targetNumber p)) then skip
  else block [
    setDigitStoppedState (fun _ => fill n true);
    call (onStopDigit cfg) OnStopDigit;
    call true OnFinished
  ].

(** The bodies of the timeouts. *)
Definition fire (a : TimerAction) : Update :=
  match a with
  | ManualStop i =>
      block [
        setDigitSpinningState (fun prev => set_index prev i false);
        setDigitStoppedState (fun prev => set_index prev i true);
        queued
          (setSpinningDigitCount (fun prev =>
             let newCount := (prev - 1)%Z in
             (newCount,
              if onDigitSpinStop cfg
              then [OnDigitSpinStop (0 <? newCount)%Z] else [])))
          (call (onStopDigit cfg) OnStopDigit)
      ]
  | StopAll =>
      block [
        setDigitStoppedState (fun _ => fill n true);
        call (onStopDigit cfg) OnStopDigit;
        call true OnFinished
      ]
  | SeqStop i =>
      block [
        setDigitStoppedState (fun prev => set_index prev i true);
        call (onStopDigit cfg) OnStopDigit;
        when (Z.of_nat i =? Z.of_nat n - 1)%Z (call true OnFinished)
      ]
  end.

(** *** The effects, in the order of the source

    An effect reads the state of the render it belongs to (its closure,
    [c]) and queues updates, which apply to the state as left by the
    updates queued before. *)

(** Reset when the prize or the mode changes (and at mount). *)
Definition resetEffect : Update :=
  block [
    setDigitSpinningState (fun _ => fill n false);
    setDigitStoppedState (fun _ => fill n false);
    setManualSpinStarted false;
    setPendingClickIndex None;
    setSpinningDigitCount (fun _ => (0%Z, []))
  ].

(** Reset when a MANUAL session starts. *)
Definition sessionStartEffect (p : Props) : Update :=
  fun s =>
    block [
      when (bool_decide (spinMode cfg = MANUAL) && isManualSpinActive p
            && negb (prevIsManualSpinActive s))
        (block [
           setDigitSpinningState (fun _ => fill n false);
           setDigitStoppedState (fun _ => fill n false);
           setManualSpinStarted true;
           setSpinningDigitCount (fun _ => (0%Z, []))
         ]);
      setPrevIsManualSpinActive (isManualSpinActive p)
    ] s.

(** MANUAL + TIMER: start all the digits, stop them one by one.  The
    clean-up of the previous run clears its timeouts. *)
Definition manualTimerEffect (p : Props) : Update :=
  block [
    setManualTimers (fun _ => []);
    if negb (bool_decide (spinMode cfg = MANUAL))
       || negb (bool_decide (revealMode cfg = TIMER))
    then skip
    else if negb (isManualSpinActive p) || negb (truthy (targetNumber p))
    then skip
    else block [
      setDigitSpinningState (fun _ => fill n true);
      setSpinningDigitCount (fun _ => (Z.of_nat n, []));
      call (onDigitSpinStart cfg) OnDigitSpinStart;
      setManualTimers (fun _ => schedule cfg ManualStop)
    ]
  ].

(** When the target number arrives after a pending click. *)
Definition pendingClickEffect (p : Props) (c : State) : Update :=
  match pendingClickIndex c with
  | Some index =>
      if bool_decide (spinMode cfg = MANUAL) && truthy (targetNumber p)
      then block [startDigitSpin index; setPendingClickIndex None]
      else skip
  | None => skip
  end.

(** Reset of the MANUAL state when the target number is cleared. *)
Definition targetClearedEffect (p : Props) (c : State) : Update :=
  if bool_decide (spinMode cfg = MANUAL)
     && bool_decide (targetNumber p = None)
     && manualSpinStarted c
  then block [
    setManualSpinStarted false;
    setDigitSpinningState (fun _ => fill n false);
    setDigitStoppedState (fun _ => fill n false);
    setSpinningDigitCount (fun _ => (0%Z, []));
    setPendingClickIndex None
  ]
  else skip.

(** The automatic modes follow [isSpinning]. *)
Definition autoSyncEffect (p : Props) : Update :=
  if negb (bool_decide (spinMode cfg = MANUAL))
  then block [
    setDigitStoppedState (fun _ =>
      if isSpinning p then fill n false else fill n true);
    setDigitSpinningState (fun _ => fill n (isSpinning p))
  ]
  else skip.

(** MANUAL: completion once every digit is stopped. *)
Definition allStoppedEffect (c : State) : Update :=
  if bool_decide (spinMode cfg = MANUAL) && manualSpinStarted c
  then
    let allStopped := every (digitStoppedState c) in
    if allStopped
    then block [call true OnFinished; setManualSpinStarted false]
    else skip
  else skip.

(** The stopping logic of the automatic modes.  The clean-up of the
    previous run clears its timeouts. *)
Definition autoStopEffect (p : Props) : Update :=
  block [
    setAutoTimers (fun _ => []);
    if bool_decide (spinMode cfg = MANUAL) then skip
    else if negb (isSpinning p) || negb (truthy (targetNumber p)) then skip
    else if bool_decide (spinMode cfg = ALL_AT_ONCE)
    then
      if bool_decide (stopMode cfg = AUTO_MANUAL) then skip
      else setAutoTimers (fun _ => [(spinDuration cfg, StopAll)])
    else setAutoTimers (fun _ => schedule cfg SeqStop)
  ].


(** *** The component as a transition system, for one prize

    [Render p'] is a render with the props [p'] of the parent, the
    properties of the prize staying as they are: the
    effects whose dependencies have changed run, in the order of the
    source.  The parent passes a new [onFinished] closure at each of its
    renders, so the two effects that depend on it run at every one.  The
    two effects that depend on the state ([targetClearedEffect],
    [allStoppedEffect]) are both guarded by [manualSpinStarted], which
    they clear: running them after every change is running them when
    their dependencies have changed. *)

Inductive Event : Type :=
| Render (p : Props)
| Click (idx : nat)
| Reveal
| Fire (a : TimerAction).

Definition initial (p : Props) : State :=
  {| digitSpinningState := fill n false;
     digitStoppedState := fill n false;
     manualSpinStarted := false;
     pendingClickIndex := None;
     spinningDigitCount := 0;
     prevIsManualSpinActive := isManualSpinActive p;
     manualTimers := [];
     autoTimers := [] |}.

(** The effects of the state, after the state has changed. *)
Definition settle (p : Props) : Update :=
  fun c => block [targetClearedEffect p c; allStoppedEffect c] c.

Definition mount (p : Props) : State * list Emit :=
  let c := initial p in
  block [
    resetEffect;
    sessionStartEffect p;
    manualTimerEffect p;
    pendingClickEffect p c;
    targetClearedEffect p c;
    autoSyncEffect p;
    allStoppedEffect c;
    autoStopEffect p;
    settle p
  ] c.

Definition commit (p p' : Props) : Update :=
  fun c =>
    let activeChanged :=
      negb (bool_decide (isManualSpinActive p = isManualSpinActive p')) in
    let targetChanged :=
      negb (bool_decide (targetNumber p = targetNumber p')) in
    let spinningChanged :=
      negb (bool_decide (isSpinning p = isSpinning p')) in
    block [
      when activeChanged (sessionStartEffect p');
      when (activeChanged || targetChanged) (manualTimerEffect p');
      when targetChanged (pendingClickEffect p' c);
      targetClearedEffect p' c;
      when spinningChanged (autoSyncEffect p');
      allStoppedEffect c;
      autoStopEffect p'
    ] c.

Definition is_pending (a : TimerAction) (timers : list (Z * TimerAction))
  : bool :=
  existsb (fun t => bool_decide (snd t = a)) timers.

Fixpoint clear_timer (a : TimerAction) (timers : list (Z * TimerAction))
  : list (Z * TimerAction) :=
  match timers with
  | [] => []
  | t :: timers' =>
      if bool_decide (snd t = a) then timers'
      else t :: clear_timer a timers'
  end.

(** A pending timeout fires, once. *)
Definition timeout (a : TimerAction) : Update :=
  fun s =>
    if is_pending a (manualTimers s)
    then block [setManualTimers (clear_timer a); fire a] s
    else if is_pending a (autoTimers s)
    then block [setAutoTimers (clear_timer a); fire a] s
    else skip s.

(** The button that calls [revealResult] is rendered by [App] for
    ALL_AT_ONCE prizes with manual stop, while spinning
    ([src/App.tsx], the controls). *)
Definition revealOffered (p : Props) : bool :=
  bool_decide (spinMode cfg = ALL_AT_ONCE)
  && bool_decide (autoStopMode cfg = Some AUTO_MANUAL)
  && isSpinning p.

(** A digit passes the click on only when it is clickable. *)
Definition clickOffered (s : State) (idx : nat) : bool :=
  (idx <? n)%nat && isDigitClickable s idx.

Definition step (m : Props * State) (ev : Event)
  : (Props * State) * list Emit :=
  let (p, s) := m in
  match ev with
  | Render p' =>
      let (s', e) := block [commit p p'; settle p'] s in ((p', s'), e)
  | Click idx =>
      if clickOffered s idx
      then let (s', e) := block [handleDigitClick p idx; settle p] s in
           ((p, s'), e)
      else (m, [])
  | Reveal =>
      if revealOffered p
      then let (s', e) := block [revealResult p; settle p] s in
           ((p, s'), e)
      else (m, [])
  | Fire a =>
      let (s', e) := block [timeout a; settle p] s in ((p, s'), e)
  end.

Fixpoint run (m : Props * State) (evs : list Event)
  : (Props * State) * list Emit :=
  match evs with
  | [] => (m, [])
  | ev :: evs' =>
      let (m1, e1) := step m ev in
      let (m2, e2) := run m1 evs' in
      (m2, e1 ++ e2)
  end.

(** The component mounted with the props [p], then driven by [evs]. *)
Definition exec (p : Props) (evs : list Event) : Props * State :=
  fst (run (p, fst (mount p)) evs).

Definition spinning (m : Props * State) (i : nat) : bool :=
  at_index (digitSpinningState (snd m)) i.

Definition stopped (m : Props * State) (i : nat) : bool :=
  at_index (digitStoppedState (snd m)) i.

End Component.

(** *** The component across prizes

    [SelectPrize prize p'] is a render after the parent has selected
    another prize: [digitCount], [spinMode], [spinDuration],
    [manualRevealMode] and [autoStopMode] are now those of [prize]
    ([src/App.tsx], the props of [<SlotMachine>]), while the state of the
    component is kept.  Each effect runs when one of its dependencies has
    changed, with the new props; the reset effect depends on [digitCount]
    and [spinMode] only. *)

Definition of_prize (cfg : Config) (prize : Prize) : Config :=
  {| digitCount := Types.digitCount prize;
     spinMode := Types.spinMode prize;
     spinDuration := Types.spinDuration prize;
     manualRevealMode := Types.manualRevealMode prize;
     autoStopMode := Types.autoStopMode prize;
     onStopDigit := onStopDigit cfg;
     onStartedSpin := onStartedSpin cfg;
     onDigitSpinStart := onDigitSpinStart cfg;
     onDigitSpinStop := onDigitSpinStop cfg |}.

Definition recommit (cfg cfg' : Config) (p p' : Props) : Update :=
  fun c =>
    let digitsChanged :=
      negb (bool_decide (digitCount cfg = digitCount cfg')) in
    let modeChanged :=
      negb (bool_decide (spinMode cfg = spinMode cfg')) in
    let revealChanged :=
      negb (bool_decide (revealMode cfg = revealMode cfg')) in
    let durationChanged :=
      negb (bool_decide (spinDuration cfg = spinDuration cfg')) in
    let activeChanged :=
      negb (bool_decide (isManualSpinActive p = isManualSpinActive p')) in
    let targetChanged :=
      negb (bool_decide (targetNumber p = targetNumber p')) in
    let spinningChanged :=
      negb (bool_decide (isSpinning p = isSpinning p')) in
    block [
      when (digitsChanged || modeChanged) (resetEffect cfg');
      when (activeChanged || modeChanged || digitsChanged)
        (sessionStartEffect cfg' p');
      when (activeChanged || targetChanged || modeChanged || revealChanged
            || digitsChanged || durationChanged)
        (manualTimerEffect cfg' p');
      when targetChanged (pendingClickEffect cfg' p' c);
      targetClearedEffect cfg' p' c;
      when (spinningChanged || digitsChanged || modeChanged)
        (autoSyncEffect cfg' p');
      allStoppedEffect cfg' c;
      autoStopEffect cfg' p'
    ] c.

Inductive Action : Type :=
| SelectPrize (prize : Prize) (p' : Props)
| During (ev : Event).

(** The props of the prize, the other props, and the state. *)
Definition Machine : Type := Config * (Props * State).

Definition react (m : Machine) (a : Action) : Machine * list Emit :=
  let '(cfg, (p, s)) := m in
  match a with
  | SelectPrize prize p' =>
      let cfg' := of_prize cfg prize in
      let (s', e) := block [recommit cfg cfg' p p'; settle cfg' p'] s in
      ((cfg', (p', s')), e)
  | During ev =>
      let (m', e) := step cfg (p, s) ev in ((cfg, m'), e)
  end.

Fixpoint play (m : Machine) (acts : list Action) : Machine * list Emit :=
  match acts with
  | [] => (m, [])
  | a :: acts' =>
      let (m1, e1) := react m a in
      let (m2, e2) := play m1 acts' in
      (m2, e1 ++ e2)
  end.

(** The component mounted with the props [cfg] and [p]. *)
Definition mounted (cfg : Config) (p : Props) : Machine :=
  (cfg, (p, fst (mount cfg p))).

(** An action that leaves the properties of the prize as they are. *)
Definition same_prize (cfg : Config) (a : Action) : Prop :=
  match a with
  | SelectPrize prize _ => of_prize cfg prize = cfg
  | During _ => True
  end.

Definition idle : Props :=
  {| targetNumber := None; isSpinning := false; isManualSpinActive := false |}.

Definition drawing (target : string) (manual : bool) : Props :=
  {| targetNumber := Some target; isSpinning := true;
     isManualSpinActive := manual |}.

Definition config (digits : nat) (mode : SpinMode) (duration : Z)
    (reveal : option ManualRevealMode) (stop : option AutoStopMode) : Config :=
  {| digitCount := digits; spinMode := mode; spinDuration := duration;
     manualRevealMode := reveal; autoStopMode := stop;
     onStopDigit := true; onStartedSpin := true; onDigitSpinStart := true;
     onDigitSpinStop := true |}.

End Slot.

(** ** Invariants of the click-driven machine *)

Module SlotSpec.
Import JS Types Slot.

Section ClickMode.
Variable cfg : Config.

(** What holds of the state of an operator-paced, click-driven machine,
    also in the middle of a commit: no digit is both spinning and
    stopped, at most one digit spins, a click is pending only while no
    digit spins, and no timeout is pending. *)
Definition pre_inv (s : State) : Prop :=
  (forall i, at_index (digitSpinningState s) i = true ->
             at_index (digitStoppedState s) i = false) /\
  (forall i j, at_index (digitSpinningState s) i = true ->
               at_index (digitSpinningState s) j = true -> i = j) /\
  (forall i, pendingClickIndex s = Some i ->
             (forall j, at_index (digitSpinningState s) j = false) /\
             at_index (digitStoppedState s) i = false /\
             onStartedSpin cfg = true) /\
  manualTimers s = [] /\
  autoTimers s = [].

(** Between two events a click is pending only while the target number
    is missing. *)
Definition click_inv (p : Props) (s : State) : Prop :=
  pre_inv s /\
  (forall i, pendingClickIndex s = Some i ->
             truthy (targetNumber p) = false).

(** An update that keeps [pre_inv] and sets no pending click. *)
Definition keeps (u : Update) : Prop :=
  forall s, pre_inv s ->
    pre_inv (fst (u s)) /\
    (forall k, pendingClickIndex (fst (u s)) = Some k ->
               pendingClickIndex s = Some k).

(** After the effects of the state have run, a started cycle has a
    target number that is not [null]. *)
Definition settled (p : Props) (s : State) : Prop :=
  manualSpinStarted s = true -> targetNumber p <> None.

(** The part of [pre_inv] that is about the digits and the pending click:
    it holds in the middle of the commit that resets the component, before
    the timeouts of the previous prize are cleared. *)
Definition core_inv (s : State) : Prop :=
  (forall i, at_index (digitSpinningState s) i = true ->
             at_index (digitStoppedState s) i = false) /\
  (forall i j, at_index (digitSpinningState s) i = true ->
               at_index (digitSpinningState s) j = true -> i = j) /\
  (forall i, pendingClickIndex s = Some i ->
             (forall j, at_index (digitSpinningState s) j = false) /\
             at_index (digitStoppedState s) i = false /\
             onStartedSpin cfg = true).

(** The state the reset leaves: every digit waiting, no click pending. *)
Definition blank (s : State) : Prop :=
  (forall j, at_index (digitSpinningState s) j = false) /\
  (forall j, at_index (digitStoppedState s) j = false) /\
  pendingClickIndex s = None.

(** An update that keeps [core_inv] and sets no pending click. *)
Definition keeps_core (u : Update) : Prop :=
  forall s, core_inv s ->
    core_inv (fst (u s)) /\
    (forall k, pendingClickIndex (fst (u s)) = Some k ->
               pendingClickIndex s = Some k).

(** The machines that show the prize [cfg] since the component was last
    reset for it: mounted with it, rendered with it after a prize of another
    [digitCount] or [spinMode] (the reset effect runs), and from there
    through any events and renders that leave the properties of the prize
    as they are. *)
Inductive since_reset : Machine -> Prop :=
| reset_mount (p : Props) : since_reset (mounted cfg p)
| reset_select (m : Machine) (prize : Prize) (p' : Props) :
    of_prize (fst m) prize = cfg ->
    digitCount (fst m) <> digitCount cfg \/ spinMode (fst m) <> spinMode cfg ->
    since_reset (fst (react m (SelectPrize prize p')))
| reset_later (m : Machine) (a : Action) :
    since_reset m -> same_prize cfg a -> since_reset (fst (react m a)).

End ClickMode.


(** An update that leaves the flags of the digits as they are. *)
Definition still (u : Update) : Prop :=
  forall s,
    digitSpinningState (fst (u s)) = digitSpinningState s /\
    digitStoppedState (fst (u s)) = digitStoppedState s.




(** The timers of a sequential session whose first [k] digits have
    stopped. *)
Definition sequential_timers (cfg : Config) (k : nat) (s : State) : Prop :=
  manualTimers s = [] /\ autoTimers s = drop k (schedule cfg SeqStop).

(** Machines the properties are tried on. *)
Definition click_config : Config := config 3 MANUAL 1000 None None.

(** Two operator-paced prizes of three digits, one revealed by clicks,
    one by timeouts, and a sequential prize of four digits. *)
Definition click_prize : Prize :=
  {| prize_id := "p-click"; name := "second"; quantity := 2;
     Types.spinMode := MANUAL; Types.spinDuration := 1000;
     Types.digitCount := 3; Types.manualRevealMode := None;
     Types.autoStopMode := None |}.

Definition timed_prize : Prize :=
  {| prize_id := "p-timed"; name := "third"; quantity := 2;
     Types.spinMode := MANUAL; Types.spinDuration := 1000;
     Types.digitCount := 3; Types.manualRevealMode := Some TIMER;
     Types.autoStopMode := None |}.


Definition sequential_config : Config := config 3 SEQUENTIAL 1000 None None.

Definition reveal_config : Config :=
  config 3 ALL_AT_ONCE 1000 None (Some AUTO_MANUAL).

(** The props [App] passes to the slot machine. *)
Definition props_of (a : Draw.App) : Props :=
  {| targetNumber := Draw.targetNumber a;
     isSpinning := Draw.isSpinning a;
     isManualSpinActive := Draw.isManualSpinActive a |}.

End SlotSpec.

(** ** Reading numerals *)

Module NumberSpec.
Import JS.

(** The value [parse_digits] has accumulated so far. *)
Definition value_of (acc : option Z) : Z := from_option id 0%Z acc.

(** The first character of the string is a decimal digit. *)
Definition digit_led (s : string) : Prop :=
  match s with
  | String c _ => is_Some (digit_value c)
  | EmptyString => False
  end.

End NumberSpec.

(** ** Prizes and winners on display ([src/App.tsx]) *)

Module Browse.
Import JS Allocator Types Draw.

(** [prizes.findIndex(p => p.id === id)]: [-1] when no prize has the id. *)
Definition findIndex (id : string) (prizes : list Prize) : Z :=
  match list_find (fun p => prize_id p = id) prizes with
  | Some (i, _) => Z.of_nat i
  | None => (-1)%Z
  end.

(** [arr[i]] for an integer [i]: [undefined] outside the array. *)
Definition element {A : Type} (arr : list A) (i : Z) : option A :=
  if (i <? 0)%Z then None else arr !! Z.to_nat i.

(** The four setters of a change of prize. *)
Definition select (a : App) (id : string) : App :=
  {| currentPrizeId := id;
     isSpinning := isSpinning a;
     targetNumber := None;
     isManualSpinning := isManualSpinning a;
     isManualSpinActive := isManualSpinActive a;
     showConfetti := false;
     errorMsg := None;
     soundEnabled := soundEnabled a;
     winners := winners a;
     winnersRef := winnersRef a;
     spinOscillatorRef := spinOscillatorRef a |}.

(** [handleNextPrize] and [handlePrevPrize]; [None] is the [TypeError] of
    reading [.id] of [undefined]. *)
Definition handleNextPrize (prizes : list Prize) (a : App) : option App :=
  let idx := findIndex (currentPrizeId a) prizes in
  if (idx >? 0)%Z
  then p ← element prizes (idx - 1); Some (select a (prize_id p))
  else Some a.

Definition handlePrevPrize (prizes : list Prize) (a : App) : option App :=
  let idx := findIndex (currentPrizeId a) prizes in
  if (idx <? Z.of_nat (length prizes) - 1)%Z
  then p ← element prizes (idx + 1); Some (select a (prize_id p))
  else Some a.

(** The effect that keeps [currentPrizeId] among the prizes. *)
Definition validPrizeEffect (prizes : list Prize) (a : App) : App :=
  if (0 <? length prizes)%nat
     && negb (bool_decide
                (is_Some (List.find
                            (fun p => bool_decide (prize_id p = currentPrizeId a))
                            prizes)))
  then
    match last prizes with
    | Some p =>
        {| currentPrizeId := prize_id p;
           isSpinning := isSpinning a;
           targetNumber := targetNumber a;
           isManualSpinning := isManualSpinning a;
           isManualSpinActive := isManualSpinActive a;
           showConfetti := showConfetti a;
           errorMsg := errorMsg a;
           soundEnabled := soundEnabled a;
           winners := winners a;
           winnersRef := winnersRef a;
           spinOscillatorRef := spinOscillatorRef a |}
    | None => a
    end
  else a.

(** [prizes.find(p => p.id === currentPrizeId) || prizes[0]]. *)
Definition currentPrize (prizes : list Prize) (a : App) : option Prize :=
  match List.find (fun p => bool_decide (prize_id p = currentPrizeId a))
          prizes with
  | Some p => Some p
  | None => head prizes
  end.

(** [winners.filter(w => w.prizeId === currentPrizeId)]. *)
Definition currentWinners (a : App) : list Winner :=
  filter (fun w0 => prizeId w0 = currentPrizeId a) (winners a).

(** The updaters of the two buttons that browse the winners of the
    prize, and the condition under which the buttons are rendered. *)
Definition prevWinner (a : App) (prev : Z) : Z :=
  if (prev >? 0)%Z then (prev - 1)%Z
  else (Z.of_nat (length (currentWinners a)) - 1)%Z.

Definition nextWinner (a : App) (prev : Z) : Z :=
  if (prev <? Z.of_nat (length (currentWinners a)) - 1)%Z then (prev + 1)%Z
  else 0%Z.

Definition browsingOffered (a : App) : bool :=
  (1 <? length (currentWinners a))%nat && negb (isSpinning a).

Definition setTargetNumber (a : App) (target : option string) : App :=
  {| currentPrizeId := currentPrizeId a;
     isSpinning := isSpinning a;
     targetNumber := target;
     isManualSpinning := isManualSpinning a;
     isManualSpinActive := isManualSpinActive a;
     showConfetti := showConfetti a;
     errorMsg := errorMsg a;
     soundEnabled := soundEnabled a;
     winners := winners a;
     winnersRef := winnersRef a;
     spinOscillatorRef := spinOscillatorRef a |}.

(** The effect that puts the number of the winner at [currentWinnerIndex]
    on display; [None] is the [TypeError] of reading [.number] of
    [undefined]. *)
Definition showWinnerEffect (currentWinnerIndex : Z) (a : App) : option App :=
  let len := Z.of_nat (length (currentWinners a)) in
  if (len >? 0)%Z && (currentWinnerIndex <? len)%Z
  then w0 ← element (currentWinners a) currentWinnerIndex;
       Some (setTargetNumber a (Some (number w0)))
  else if (len =? 0)%Z then Some (setTargetNumber a None)
  else Some a.

(** Prizes the properties are tried on. *)
Definition prize_named (id : string) : Prize :=
  {| prize_id := id; name := id; quantity := 1; spinMode := MANUAL;
     spinDuration := 1000; digitCount := 3;
     manualRevealMode := Some CLICK; autoStopMode := None |}.

Definition viewing (id : string) (ws : list Winner) : App :=
  {| currentPrizeId := id; isSpinning := false; targetNumber := None;
     isManualSpinning := false; isManualSpinActive := false;
     showConfetti := false; errorMsg := None; soundEnabled := true;
     winners := ws; winnersRef := ws; spinOscillatorRef := false |}.

Definition winner_for (id n : string) : Winner :=
  {| wid := "w"; prizeId := id; prizeName := id; number := n;
     timestamp := 0 |}.

End Browse.

(** ** Sessions of the slot machine *)

Module SlotPhases.
Import JS Types Slot.

(** The state of an automatic machine that has no timeout pending: its
    digits follow [isSpinning]. *)
Definition at_rest (cfg : Config) (m : Props * State) : Prop :=
  digitSpinningState (snd m) = fill (digitCount cfg) (isSpinning (fst m)) /\
  digitStoppedState (snd m)
  = fill (digitCount cfg) (negb (isSpinning (fst m))) /\
  manualTimers (snd m) = [] /\
  autoTimers (snd m) = [].

(** The timeouts [autoStopEffect] arms. *)
Definition armed (cfg : Config) (p : Props) : list (Z * TimerAction) :=
  if negb (isSpinning p) || negb (truthy (targetNumber p)) then []
  else match spinMode cfg with
       | MANUAL => []
       | ALL_AT_ONCE =>
           if bool_decide (stopMode cfg = AUTO_MANUAL) then []
           else [(spinDuration cfg, StopAll)]
       | SEQUENTIAL => schedule cfg SeqStop
       end.

(** A render of an automatic machine, as one update of the state. *)
Definition automatic_render (cfg : Config) (p p' : Props) (s : State) : State :=
  let sync := negb (bool_decide (isSpinning p = isSpinning p')) in
  let active :=
    negb (bool_decide (isManualSpinActive p = isManualSpinActive p')) in
  let target := negb (bool_decide (targetNumber p = targetNumber p')) in
  {| digitSpinningState :=
       if sync then fill (digitCount cfg) (isSpinning p')
       else digitSpinningState s;
     digitStoppedState :=
       if sync then fill (digitCount cfg) (negb (isSpinning p'))
       else digitStoppedState s;
     manualSpinStarted := manualSpinStarted s;
     pendingClickIndex := pendingClickIndex s;
     spinningDigitCount := spinningDigitCount s;
     prevIsManualSpinActive :=
       if active then isManualSpinActive p' else prevIsManualSpinActive s;
     manualTimers := if active || target then [] else manualTimers s;
     autoTimers := armed cfg p' |}.

(** A prize as [addPrize] of the settings creates it: ALL_AT_ONCE, with no
    [autoStopMode]. *)
Definition added_config : Config := config 3 ALL_AT_ONCE 4000 None None.

Definition timer_config : Config :=
  config 3 ALL_AT_ONCE 4000 None (Some AUTO_TIMER).

(** The states of a click-driven cycle on a machine that has a target
    number: [k] digits revealed and none spinning; and digit [k] spinning
    on top of that. *)
Definition click_phase (cfg : Config) (k : nat) (s : State) : Prop :=
  length (digitSpinningState s) = digitCount cfg /\
  length (digitStoppedState s) = digitCount cfg /\
  (forall i, at_index (digitSpinningState s) i = false) /\
  (forall i, at_index (digitStoppedState s) i = (i <? k)%nat) /\
  spinningDigitCount s = 0%Z /\
  manualSpinStarted s = (0 <? k)%nat && (k <? digitCount cfg)%nat /\
  pendingClickIndex s = None /\
  manualTimers s = [] /\
  autoTimers s = [].

Definition click_mid (cfg : Config) (k : nat) (s : State) : Prop :=
  length (digitSpinningState s) = digitCount cfg /\
  length (digitStoppedState s) = digitCount cfg /\
  (forall i, at_index (digitSpinningState s) i = (i =? k)%nat) /\
  (forall i, at_index (digitStoppedState s) i = (i <? k)%nat) /\
  spinningDigitCount s = 1%Z /\
  manualSpinStarted s = true /\
  pendingClickIndex s = None /\
  manualTimers s = [] /\
  autoTimers s = [].

(** Each digit clicked twice, from the first to the last, the parent
    rendering after each click. *)
Definition click_through (cfg : Config) (p : Props) (k n : nat)
  : list Event :=
  flat_map (fun i => [Click i; Render p; Click i; Render p]) (seq k n).

(** The number of a past winner on display, no session on. *)
Definition displaying (target : string) : Props :=
  {| targetNumber := Some target; isSpinning := false;
     isManualSpinActive := false |}.

(** The states of a MANUAL session with TIMER reveal: the first [k]
    digits stopped by their timeouts, the others spinning. *)
Definition timer_phase (cfg : Config) (k : nat) (s : State) : Prop :=
  length (digitSpinningState s) = digitCount cfg /\
  length (digitStoppedState s) = digitCount cfg /\
  (forall i, at_index (digitSpinningState s) i
             = (k <=? i)%nat && (i <? digitCount cfg)%nat) /\
  (forall i, at_index (digitStoppedState s) i = (i <? k)%nat) /\
  spinningDigitCount s = (Z.of_nat (digitCount cfg) - Z.of_nat k)%Z /\
  manualSpinStarted s = (k <? digitCount cfg)%nat /\
  pendingClickIndex s = None /\
  manualTimers s = drop k (schedule cfg ManualStop) /\
  autoTimers s = [].

Definition timed_reveal_config : Config :=
  config 3 MANUAL 1000 (Some TIMER) None.

(** The shape of the state: the two arrays have one entry for each digit,
    and the indices held by the pending click and by the pending
    timeouts are indices of digits. *)
Definition action_ok (cfg : Config) (a : TimerAction) : Prop :=
  match a with
  | ManualStop i | SeqStop i => i < digitCount cfg
  | StopAll => True
  end.

Definition shaped (cfg : Config) (s : State) : Prop :=
  length (digitSpinningState s) = digitCount cfg /\
  length (digitStoppedState s) = digitCount cfg /\
  (forall i, pendingClickIndex s = Some i -> i < digitCount cfg) /\
  Forall (fun t => action_ok cfg (snd t)) (manualTimers s) /\
  Forall (fun t => action_ok cfg (snd t)) (autoTimers s).

(** An update that keeps the shape. *)
Definition shapes (cfg : Config) (u : Update) : Prop :=
  forall s, shaped cfg s -> shaped cfg (fst (u s)).

(** The two arrays have [n] entries; an update that keeps them so. *)
Definition sized (n : nat) (s : State) : Prop :=
  length (digitSpinningState s) = n /\ length (digitStoppedState s) = n.

Definition sizes (n : nat) (u : Update) : Prop :=
  forall s, sized n s -> sized n (fst (u s)).

End SlotPhases.

(** ** What the slot machine displays ([src/components/SlotMachine.tsx]) *)

Module Display.
Import JS Types Slot.

(** [s.repeat(n)]. *)
Fixpoint repeat (s : string) (n : nat) : string :=
  match n with
  | O => EmptyString
  | S n' => s +:+ repeat s n'
  end.

(** [safeTarget]: the target number padded, or a placeholder of zeros. *)
Definition safeTarget (cfg : Config) (p : Props) : string :=
  if truthy (targetNumber p)
  then padStart (default EmptyString (targetNumber p)) (digitCount cfg) "0"
  else repeat "0" (digitCount cfg).

(** [s[idx]]: [undefined] beyond the end of the string. *)
Definition char_at (s : string) (idx : nat) : option ascii :=
  String.get idx s.

Definition getShowQuestionMark (cfg : Config) (p : Props) (s : State)
    (idx : nat) : bool :=
  if negb (truthy (targetNumber p)) then true
  else if bool_decide (spinMode cfg = MANUAL)
  then negb (at_index (digitStoppedState s) idx)
       && negb (at_index (digitSpinningState s) idx)
  else false.

End Display.

(** ** One digit of the machine ([SlotDigit]) *)

Module Digit.
Import JS.

(** The props of a digit the effect of [SlotDigit] depends on, with
    [showQuestionMark]; [onStop] tells whether the callback is given. *)
Record Props : Type := {
  value : string;
  isSpinning : bool;
  isStopped : bool;
  onStop : bool;
  showQuestionMark : bool
}.

(** The state of a digit: [displayValue], the two refs, and the
    intervals that are running, by their ids ([setInterval] returns
    positive ids; [next_id] is the next one). *)
Record State : Type := {
  displayValue : string;
  intervalRef : option nat;
  hasStoppedRef : bool;
  running : gset nat;
  next_id : nat
}.

Inductive Emit : Type :=
| OnStop.

(** The clean-up of the effect: [if (intervalRef.current)
    clearInterval(intervalRef.current)]. *)
Definition cleanup (d : State) : State :=
  match intervalRef d with
  | Some id =>
      {| displayValue := displayValue d;
         intervalRef := intervalRef d;
         hasStoppedRef := hasStoppedRef d;
         running := running d ∖ {[ id ]};
         next_id := next_id d |}
  | None => d
  end.

(** The body of the effect. *)
Definition effect (p : Props) (d : State) : State * list Emit :=
  if isSpinning p && negb (isStopped p)
  then
    ({| displayValue := displayValue d;
        intervalRef := Some (next_id d);
        hasStoppedRef := false;
        running := {[ next_id d ]} ∪ running d;
        next_id := S (next_id d) |}, [])
  else if isStopped p
  then
    let cleared :=
      match intervalRef d with
      | Some id => running d ∖ {[ id ]}
      | None => running d
      end in
    let notify := negb (hasStoppedRef d) && isSpinning p in
    ({| displayValue := value p;
        intervalRef := None;
        hasStoppedRef := if notify then true else hasStoppedRef d;
        running := cleared;
        next_id := next_id d |},
     if notify && onStop p then [OnStop] else [])
  else (d, []).

Definition initial (p : Props) : State :=
  {| displayValue := value p;
     intervalRef := None;
     hasStoppedRef := isStopped p;
     running := ∅;
     next_id := 1 |}.

Definition mount (p : Props) : State * list Emit := effect p (initial p).

(** A render: the effect runs again, after its clean-up, when one of
    [isSpinning], [isStopped], [value], [onStop] has changed. *)
Definition same_deps (p p' : Props) : bool :=
  bool_decide (isSpinning p = isSpinning p')
  && bool_decide (isStopped p = isStopped p')
  && bool_decide (value p = value p')
  && bool_decide (onStop p = onStop p').

Definition render (p p' : Props) (d : State) : State * list Emit :=
  if same_deps p p' then (d, []) else effect p' (cleanup d).

(** A tick of a running interval:
    [setDisplayValue(Math.floor(Math.random() * 10).toString())], the
    random digit being [r mod 10]. *)
Definition tick (r : Z) (d : State) : State :=
  if bool_decide (running d = ∅) then d
  else
    {| displayValue := toString (Int (r mod 10));
       intervalRef := intervalRef d;
       hasStoppedRef := hasStoppedRef d;
       running := running d;
       next_id := next_id d |}.

Inductive Event : Type :=
| Render (p : Props)
| Tick (r : Z).

Definition step (m : Props * State) (ev : Event)
  : (Props * State) * list Emit :=
  match ev with
  | Render p' => let (d, e) := render (fst m) p' (snd m) in ((p', d), e)
  | Tick r => ((fst m, tick r (snd m)), [])
  end.

Fixpoint run (m : Props * State) (evs : list Event)
  : (Props * State) * list Emit :=
  match evs with
  | [] => (m, [])
  | ev :: evs' =>
      let (m1, e1) := step m ev in
      let (m2, e2) := run m1 evs' in
      (m2, e1 ++ e2)
  end.

Definition exec (p : Props) (evs : list Event) : Props * State :=
  fst (run (p, fst (mount p)) evs).

(** What the digit shows. *)
Definition glyph (p : Props) (d : State) : string :=
  if showQuestionMark p then "?" else displayValue d.

(** At most the interval held by the ref is running, none unless the
    digit is spinning and not stopped, and a stopped digit displays its
    value. *)
Definition disciplined (m : Props * State) : Prop :=
  (forall id, id ∈ running (snd m) -> intervalRef (snd m) = Some id) /\
  (forall id, intervalRef (snd m) = Some id -> id < next_id (snd m)) /\
  (isSpinning (fst m) && negb (isStopped (fst m)) = false ->
   running (snd m) = ∅) /\
  (isStopped (fst m) = true -> displayValue (snd m) = value (fst m)).

Definition digit (v : string) (spinning stopped : bool) : Props :=
  {| value := v; isSpinning := spinning; isStopped := stopped;
     onStop := false; showQuestionMark := false |}.

End Digit.

(** ** Properties of the allocator *)

Module AllocatorFacts.
Import JS Allocator AllocatorSpec.

Lemma getLocalRandom_eq (w : World) min max m :
  getLocalRandom w min (max - min + 1) m
  = (Val (Number (local_value w min max m)), after_local m).
Proof. reflexivity. Qed.

Lemma local_value_in_range (w : World) min max m :
  (min <= max)%Z ->
  exists v, local_value w min max m = Int v /\ (min <= v <= max)%Z.
Proof.
  intros Hle. unfold local_value, rem.
  destruct (Z.eqb_spec (max - min + 1) 0) as [E|_]; [lia|].
  eexists; split; [reflexivity|].
  pose proof (Z.mod_pos_bound (entropy w (local_draws m)) (2 ^ 32)
                ltac:(lia)) as Hm.
  pose proof (Z.rem_bound_pos (entropy w (local_draws m) mod 2 ^ 32)
                (max - min + 1) ltac:(lia) ltac:(lia)).
  lia.
Qed.

Section Draws.
Variable w : World.
Variable settings : GlobalSettings.
Variable taken : gset num.

Lemma find_none_forallb (numbers : list value) :
  List.find (fun c => negb (has taken c)) numbers = None <->
  forallb (has taken) numbers = true.
Proof.
  induction numbers as [|c numbers IH]; simpl; [tauto|].
  destruct (has taken c); simpl; [exact IH|].
  split; discriminate.
Qed.

Lemma getRandomNumber_origin m :
  exists v m',
    getRandomNumber w settings (minNumber settings) (maxNumber settings)
      taken m = (Val v, m')
    /\ origin w settings taken m v m'.
Proof.
  unfold getRandomNumber.
  destruct (useRandomOrg settings) eqn:Huse; simpl.
  { unfold try_catch, bind, fetch.
    destruct (remote w (remote_requests m)) as [|latency body] eqn:Hr.
    - do 2 eexists; split; [reflexivity|].
      apply from_fallback; [done|]. by rewrite Hr.
    - destruct (timeout_ms <=? latency)%Z eqn:Hlat.
      + do 2 eexists; split; [reflexivity|].
        apply from_fallback; [done|]. rewrite Hr. simpl. by rewrite Hlat.
      + destruct body as [|[|error data]]; simpl.
        * do 2 eexists; split; [reflexivity|].
          apply from_fallback; [done|]. rewrite Hr. simpl. by rewrite Hlat.
        * do 2 eexists; split; [reflexivity|].
          apply from_fallback; [done|]. rewrite Hr. simpl. by rewrite Hlat.
        * destruct error; simpl.
          { do 2 eexists; split; [reflexivity|].
            apply from_fallback; [done|]. rewrite Hr. simpl.
            by rewrite Hlat. }
          destruct data as [numbers|]; simpl.
          { destruct (List.find _ numbers) as [n|] eqn:Hfind; simpl.
            - apply find_some in Hfind as [Hin Hn].
              do 2 eexists; split; [reflexivity|].
              eapply from_remote; [done|exact Hr| |].
              + by apply list_elem_of_In.
              + by apply negb_true_iff.
            - do 2 eexists; split; [reflexivity|].
              apply from_fallback; [done|]. rewrite Hr. simpl.
              rewrite Hlat. simpl. by apply find_none_forallb. }
          do 2 eexists; split; [reflexivity|].
          apply from_fallback; [done|]. rewrite Hr. simpl. by rewrite Hlat. }
  do 2 eexists; split; [reflexivity|]. by apply from_local.
Qed.

Lemma getRandomNumber_draw m :
  getRandomNumber w settings (minNumber settings) (maxNumber settings)
    taken m
  = (Val (fst (draw w settings taken m)), snd (draw w settings taken m)).
Proof.
  destruct (getRandomNumber_origin m) as (v & m' & E & _).
  unfold draw. by rewrite E.
Qed.

Lemma draw_origin m :
  origin w settings taken m (fst (draw w settings taken m))
    (snd (draw w settings taken m)).
Proof.
  destruct (getRandomNumber_origin m) as (v & m' & E & Ho).
  unfold draw. by rewrite E.
Qed.

Lemma origin_in_range m v m' :
  (minNumber settings <= maxNumber settings)%Z ->
  remote_in_range w settings ->
  origin w settings taken m v m' ->
  exists z, v = Number (Int z) /\
            (minNumber settings <= z <= maxNumber settings)%Z.
Proof.
  intros Hle Hin [ | | latency error numbers c _ Hr Hc _].
  - destruct (local_value_in_range w _ _ m Hle) as (z & -> & Hz). by exists z.
  - destruct (local_value_in_range w _ _ m Hle) as (z & -> & Hz). by exists z.
  - specialize (Hin _ _ _ _ Hr).
    rewrite Forall_forall in Hin. by apply Hin.
Qed.

Lemma do_while_scan (remaining : nat) :
  forall fuel attempts m,
    remaining = Z.to_nat (maxAttempts settings - attempts) ->
    remaining < fuel ->
    do_while w fuel settings taken attempts m
    = finish (fst (scan w settings taken remaining m))
        (snd (scan w settings taken remaining m)).
Proof.
  induction remaining as [|r IH]; intros fuel attempts m Hrem Hfuel;
    (destruct fuel as [|fuel]; [lia|]); simpl;
    unfold bind at 1; rewrite getRandomNumber_draw;
    destruct (draw w settings taken m) as [v m'] eqn:Hd; simpl.
  - destruct (Z.gtb_spec (attempts + 1) (maxAttempts settings)); [done|lia].
  - destruct (Z.gtb_spec (attempts + 1) (maxAttempts settings)); [lia|].
    unfold accepted.
    destruct (negb (excludePreviousWinners settings) || negb (has taken v));
      [done|].
    apply IH; lia.
Qed.

(** A run that is allowed more than [maxAttempts] iterations is not cut by
    the bound. *)
Lemma finish_not_cut (r : option value) (m m' : Meter) :
  finish r m <> (Val OutOfFuel, m').
Proof.
  destruct r as [[n| |text]|]; unfold finish, bind, result_toString, ret, throw;
    discriminate.
Qed.

Lemma scan_some n : forall m v,
  fst (scan w settings taken n m) = Some v ->
  exists k, k < n /\ v = nth_draw w settings taken k m /\
            accepted settings taken v = true.
Proof.
  induction n as [|n IH]; intros m v; simpl;
    destruct (draw w settings taken m) as [v0 m'] eqn:Hd; simpl;
    [discriminate|].
  destruct (accepted settings taken v0) eqn:Hacc; simpl.
  - intros [= <-]. exists 0. split; [lia|]. split; [|done].
    unfold nth_draw, nth_meter. simpl. by rewrite Hd.
  - intros Hs. destruct (IH _ _ Hs) as (k & Hk & Hv & Ha).
    exists (S k). split; [lia|]. split; [|done].
    rewrite Hv. unfold nth_draw, nth_meter.
    rewrite Nat.iter_succ_r. by rewrite Hd.
Qed.

Lemma scan_none n : forall m,
  fst (scan w settings taken n m) = None ->
  forall k, k < n -> accepted settings taken (nth_draw w settings taken k m)
                     = false.
Proof.
  induction n as [|n IH]; intros m; simpl;
    destruct (draw w settings taken m) as [v0 m'] eqn:Hd; simpl; [lia|].
  destruct (accepted settings taken v0) eqn:Hacc; simpl; [discriminate|].
  intros Hs [|k] Hk.
  - unfold nth_draw, nth_meter. simpl. by rewrite Hd.
  - unfold nth_draw, nth_meter. rewrite Nat.iter_succ_r. rewrite Hd.
    apply (IH _ Hs). lia.
Qed.

End Draws.
End AllocatorFacts.

Module AllocatorClaims.
Import JS Allocator AllocatorSpec AllocatorFacts.

(** The result of [generateRandomNumber], once the pool is not full: the
    first accepted draw among the first [maxAttempts] ones. *)
Lemma generateRandomNumber_scan
    (w : World) (settings : GlobalSettings) (winners : list Winner)
    (m : Meter) (fuel : nat) :
  ((maxNumber settings - minNumber settings + 1
    <=? Z.of_nat (size (takenNumbers winners)))%Z
   && excludePreviousWinners settings) = false ->
  Z.to_nat (maxAttempts settings) < fuel ->
  generateRandomNumber w fuel settings winners m
  = finish (fst (scan w settings (takenNumbers winners)
                   (Z.to_nat (maxAttempts settings)) m))
      (snd (scan w settings (takenNumbers winners)
              (Z.to_nat (maxAttempts settings)) m)).
Proof.
  intros Hfull Hfuel. unfold generateRandomNumber. rewrite Hfull.
  apply do_while_scan; [|done]. f_equal. lia.
Qed.

Lemma finish_null (r : option value) (m m' : Meter) :
  finish r m = (Val (Returned None), m') -> r = None.
Proof.
  destruct r as [[n| |text]|]; unfold finish, bind, result_toString, ret, throw;
    by intros [=].
Qed.

(** [null] comes from a full pool or after [maxAttempts] refused draws. *)
Lemma generateRandomNumber_null
    (w : World) (settings : GlobalSettings) (winners : list Winner)
    (m m' : Meter) (fuel : nat) :
  Z.to_nat (maxAttempts settings) < fuel ->
  generateRandomNumber w fuel settings winners m = (Val (Returned None), m') ->
  ((maxNumber settings - minNumber settings + 1
    <= Z.of_nat (size (takenNumbers winners)))%Z
   /\ excludePreviousWinners settings = true)
  \/ forall k, k < Z.to_nat (maxAttempts settings) ->
       excludePreviousWinners settings = true /\
       has (takenNumbers winners)
         (nth_draw w settings (takenNumbers winners) k m) = true.
Proof.
  intros Hfuel Hgen.
  destruct ((maxNumber settings - minNumber settings + 1
             <=? Z.of_nat (size (takenNumbers winners)))%Z
            && excludePreviousWinners settings) eqn:Hfull.
  - left. apply andb_true_iff in Hfull as [H1 H2].
    split; [by apply Z.leb_le|done].
  - right. intros k Hk.
    rewrite generateRandomNumber_scan in Hgen by done.
    apply finish_null in Hgen.
    pose proof (scan_none _ _ _ _ _ Hgen k Hk) as Hrej.
    unfold accepted in Hrej. apply orb_false_iff in Hrej as [H1 H2].
    by apply negb_false_iff in H1, H2.
Qed.

(** C1, as amended: for every [min <= max], every list of winners and every
    world (stream of random values, the remote candidates being integers of
    the requested range), [generateRandomNumber] terminates: all the runs that
    are allowed more than [maxAttempts] iterations give one and the same
    result; and that result is either [null] or the decimal string of an
    integer of [[min, max]] which, when exclusion is on, is not among the
    taken numbers. *)
Theorem generateRandomNumber_terminates_sound
    (w : World) (settings : GlobalSettings) (winners : list Winner)
    (m : Meter) :
  (minNumber settings <= maxNumber settings)%Z ->
  remote_in_range w settings ->
  exists r m',
    (forall fuel, Z.to_nat (maxAttempts settings) < fuel ->
       generateRandomNumber w fuel settings winners m
       = (Val (Returned r), m')) /\
    (r = None \/
     exists v, r = Some (toString (Int v)) /\
       (minNumber settings <= v <= maxNumber settings)%Z /\
       (excludePreviousWinners settings = true ->
        Int v ∉ takenNumbers winners)).
Proof.
  intros Hle Hin.
  set (taken := takenNumbers winners).
  destruct ((maxNumber settings - minNumber settings + 1
             <=? Z.of_nat (size taken))%Z
            && excludePreviousWinners settings) eqn:Hfull.
  - exists None, m. split; [|by left].
    intros fuel _. unfold generateRandomNumber. fold taken. by rewrite Hfull.
  - set (n := Z.to_nat (maxAttempts settings)).
    destruct (fst (scan w settings taken n m)) as [v|] eqn:Hs.
    + destruct (scan_some _ _ _ _ _ _ Hs) as (k & _ & Hv & Hacc).
      pose proof (draw_origin w settings taken (nth_meter w settings taken k m))
        as Ho.
      fold (nth_draw w settings taken k m) in Ho. rewrite <- Hv in Ho.
      destruct (origin_in_range _ _ _ _ _ _ Hle Hin Ho) as (z & -> & Hz).
      exists (Some (toString (Int z))), (snd (scan w settings taken n m)).
      split.
      * intros fuel Hfuel. rewrite generateRandomNumber_scan by done.
        fold taken n. by rewrite Hs.
      * right. exists z. split; [done|]. split; [done|].
        intros Hex. unfold accepted in Hacc. rewrite Hex in Hacc.
        simpl in Hacc. apply negb_true_iff in Hacc.
        by apply bool_decide_eq_false in Hacc.
    + exists None, (snd (scan w settings taken n m)). split; [|by left].
      intros fuel Hfuel. rewrite generateRandomNumber_scan by done.
      fold taken n. by rewrite Hs.
Qed.

Lemma generateRandomNumber_terminates_sound_witness :
  exists r m',
    (forall fuel, Z.to_nat (maxAttempts (local_settings 0 9 true)) < fuel ->
       generateRandomNumber (constant_world 13) fuel (local_settings 0 9 true)
         [winner_of "000"] start
       = (Val (Returned r), m')) /\
    (r = None \/
     exists v, r = Some (toString (Int v)) /\
       (0 <= v <= 9)%Z /\
       (true = true -> Int v ∉ takenNumbers [winner_of "000"])).
Proof.
  apply (generateRandomNumber_terminates_sound (constant_world 13)
           (local_settings 0 9 true) [winner_of "000"] start).
  - simpl. lia.
  - intros k latency error numbers H. simpl in H. discriminate H.
Defined.

(** C1, as stated, fails: in the range [[0, 1]] with only [0] taken, a
    stream that keeps drawing [0] makes the allocator return [null] after
    six draws. *)
Lemma generateRandomNumber_gives_up :
  (0 <= 1)%Z /\
  (Z.of_nat (size (takenNumbers [winner_of "0"])) < 1 - 0 + 1)%Z /\
  generateRandomNumber (constant_world 0) 100 (local_settings 0 1 true)
    [winner_of "0"] start
  = (Val (Returned None), {| local_draws := 6; remote_requests := 0 |}).
Proof.
  split; [lia|]. split; [vm_compute; reflexivity|vm_compute; reflexivity].
Qed.

(** C3 on the code: with a range of one number, [5], and nothing taken, the
    first draw is [5], which is not excluded, and the allocator returns
    [null] all the same, whatever the random stream ([maxAttempts] is
    [5 * (max - min) = 0], and the test on the attempts comes before the
    draw is looked at).  With the range [[0, 1]] and [0] taken, a stream
    drawing [0] six times and [1] afterwards gets [null] after six draws:
    the seventh attempt, within [5 * 2], is never made. *)
Theorem generateRandomNumber_refuses_found_value :
  (forall (w : World) (fuel : nat) (m : Meter),
     generateRandomNumber w (S fuel) (local_settings 5 5 true) [] m
     = (Val (Returned None), after_local m)
     /\ nth_draw w (local_settings 5 5 true) (takenNumbers []) 0 m
        = Number (Int 5)
     /\ accepted (local_settings 5 5 true) (takenNumbers []) (Number (Int 5))
        = true)
  /\ generateRandomNumber (late_world 6) 100 (local_settings 0 1 true)
       [winner_of "0"] start
     = (Val (Returned None), {| local_draws := 6; remote_requests := 0 |})
  /\ nth_draw (late_world 6) (local_settings 0 1 true)
       (takenNumbers [winner_of "0"]) 6 start = Number (Int 1)
  /\ accepted (local_settings 0 1 true) (takenNumbers [winner_of "0"])
       (Number (Int 1))
     = true.
Proof.
  split.
  - intros w fuel m.
    assert (Hv : local_value w 5 5 m = Int 5).
    { unfold local_value, rem. simpl. by rewrite Z.rem_1_r. }
    split; [|split].
    + unfold generateRandomNumber.
      change (takenNumbers []) with (∅ : gset num). rewrite size_empty.
      reflexivity.
    + unfold nth_draw, nth_meter, draw, getRandomNumber. simpl.
      f_equal. exact Hv.
    + reflexivity.
  - split; [vm_compute; reflexivity|].
    split; vm_compute; reflexivity.
Qed.

(** C4: when exclusion of previous winners is on and the taken numbers are
    at least as many as the range has values, [generateRandomNumber]
    returns [null] at once: no draw and no request is made (the meter is
    unchanged), whatever the world and the iterations allowed. *)
Theorem generateRandomNumber_pool_exhausted
    (w : World) (fuel : nat) (settings : GlobalSettings)
    (winners : list Winner) (m : Meter) :
  excludePreviousWinners settings = true ->
  (maxNumber settings - minNumber settings + 1
   <= Z.of_nat (size (takenNumbers winners)))%Z ->
  generateRandomNumber w fuel settings winners m = (Val (Returned None), m).
Proof.
  intros Hex Hfull. unfold generateRandomNumber.
  rewrite Hex. apply Z.leb_le in Hfull. by rewrite Hfull.
Qed.

Lemma generateRandomNumber_pool_exhausted_witness :
  generateRandomNumber (constant_world 0) 100 (remote_settings 0 1 true)
    [winner_of "000"; winner_of "001"] start
  = (Val (Returned None), start).
Proof.
  apply generateRandomNumber_pool_exhausted.
  - reflexivity.
  - vm_compute. discriminate.
Defined.

(** The failures the code recognises do fall back: [getRandomNumber]
    returns the local draw [(u % range) + min], the very value the local
    source gives, which for [min <= max] is an integer of [[min, max]]; and
    [getRandomNumber] itself never raises. *)
Lemma getRandomNumber_falls_back
    (w : World) (settings : GlobalSettings) (min max : Z)
    (taken : gset num) (m : Meter) :
  useRandomOrg settings = true ->
  (exists v m', getRandomNumber w settings min max taken m = (Val v, m')) /\
  (remote_failure taken (remote w (remote_requests m)) = true ->
     getRandomNumber w settings min max taken m
     = (Val (Number (local_value w min max m)),
        after_local (after_request m)) /\
     fst (getRandomNumber w (force_local settings) min max taken m)
     = Val (Number (local_value w min max m)) /\
     ((min <= max)%Z ->
      exists z, local_value w min max m = Int z /\ (min <= z <= max)%Z)).
Proof.
  intros Huse. unfold getRandomNumber. rewrite Huse. simpl.
  unfold try_catch, bind, fetch, remote_failure.
  destruct (remote w (remote_requests m)) as [|latency body]; simpl.
  { split; [by eauto|]. intros _. split; [done|]. split; [done|].
    apply local_value_in_range. }
  destruct (timeout_ms <=? latency)%Z; simpl.
  { split; [by eauto|]. intros _. split; [done|]. split; [done|].
    apply local_value_in_range. }
  destruct body as [|[|error data]]; simpl;
    try (split; [by eauto|]; intros _; split; [done|]; split; [done|];
         apply local_value_in_range).
  destruct error; simpl;
    try (split; [by eauto|]; intros _; split; [done|]; split; [done|];
         apply local_value_in_range).
  destruct data as [numbers|]; simpl;
    try (split; [by eauto|]; intros _; split; [done|]; split; [done|];
         apply local_value_in_range).
  destruct (List.find _ numbers) as [n|] eqn:Hfind; simpl.
  - split; [by eauto|]. intros Hall.
    apply find_none_forallb in Hall. congruence.
  - split; [by eauto|]. intros _. split; [done|]. split; [done|].
    apply local_value_in_range.
Qed.

Example silent_world_falls_back :
  getRandomNumber silent_world (remote_settings 0 9 true) 0 9 ∅ start
  = (Val (Number (Int 7)), {| local_draws := 1; remote_requests := 1 |}).
Proof.
  apply (getRandomNumber_falls_back silent_world
           (remote_settings 0 9 true) 0 9 ∅ start); reflexivity.
Qed.

(** The first element of the array that is not a taken number is returned
    as it is, whatever it is, and no local draw is made. *)
Lemma getRandomNumber_first_free
    (w : World) (settings : GlobalSettings) (min max : Z)
    (taken : gset num) (m : Meter)
    (latency : Z) (before after : list value) (c : value) :
  useRandomOrg settings = true ->
  remote w (remote_requests m)
  = Response latency (Json (JObject false (Some (before ++ c :: after)))) ->
  (latency < timeout_ms)%Z ->
  Forall (fun b => has taken b = true) before ->
  has taken c = false ->
  getRandomNumber w settings min max taken m = (Val c, after_request m).
Proof.
  intros Huse Hr Hlat Hbefore Hc.
  assert (List.find (fun b => negb (has taken b)) (before ++ c :: after)
          = Some c) as Hfind.
  { clear Hr. induction Hbefore as [|b before Hb _ IH]; simpl.
    - by rewrite Hc.
    - by rewrite Hb. }
  unfold getRandomNumber. rewrite Huse.
  unfold try_catch, bind, fetch. cbn [negb]. rewrite Hr.
  destruct (Z.leb_spec timeout_ms latency) as [Hle|_]; [lia|].
  cbn [response_json data_error data_numbers ret]. by rewrite Hfind.
Qed.

(** C8 on the code.  The failures the code recognises (no answer within
    3000 ms, a transport error, a body that is not JSON or is [null], an
    error indicator, no array, an array whose elements are all taken
    numbers) fall back on the local draw.  A malformed array does not: an
    element that is not a number is never among the taken numbers, so the
    first such element that no free number precedes is returned as it is,
    with no local draw.  With the answer [[null]], [getRandomNumber]
    returns [null], [generateRandomNumber] throws at [null.toString()], and
    the promise of [handleStartSpin] is rejected: no session starts and no
    message is shown.  With the answer [["abc"]] the target number of the
    session is ["abc"]. *)
Theorem getRandomNumber_returns_malformed_candidate :
  (forall (w : World) (settings : GlobalSettings) (min max : Z)
          (taken : gset num) (m : Meter),
     useRandomOrg settings = true ->
     remote_failure taken (remote w (remote_requests m)) = true ->
     getRandomNumber w settings min max taken m
     = (Val (Number (local_value w min max m)),
        after_local (after_request m))) /\
  (forall (w : World) (settings : GlobalSettings) (min max : Z)
          (taken : gset num) (m : Meter)
          (latency : Z) (before after : list value) (c : value),
     useRandomOrg settings = true ->
     remote w (remote_requests m)
     = Response latency (Json (JObject false (Some (before ++ c :: after)))) ->
     (latency < timeout_ms)%Z ->
     Forall (fun b => has taken b = true) before ->
     c = Null \/ (exists text, c = Other text) ->
     remote_failure taken (remote w (remote_requests m)) = false /\
     getRandomNumber w settings min max taken m = (Val c, after_request m)) /\
  getRandomNumber (answering [Null]) (remote_settings 0 9 true) 0 9 ∅ start
  = (Val Null, {| local_draws := 0; remote_requests := 1 |}) /\
  generateRandomNumber (answering [Null]) 100 (remote_settings 0 9 true) []
    start
  = (Raise TypeError, {| local_draws := 0; remote_requests := 1 |}) /\
  Draw.handleStartSpin (answering [Null]) 100 (remote_settings 0 9 true)
    Draw.consolation (Browse.viewing "kk-1" []) start
  = (Val (Some (Draw.clear_error (Browse.viewing "kk-1" []),
                [Draw.Resume; Draw.Rejected TypeError])),
     {| local_draws := 0; remote_requests := 1 |}) /\
  generateRandomNumber (answering [Other "abc"]) 100
    (remote_settings 0 9 true) [] start
  = (Val (Returned (Some "abc")),
     {| local_draws := 0; remote_requests := 1 |}).
Proof.
  split; [|split; [|repeat split; vm_compute; reflexivity]].
  - intros w settings min max taken m Huse Hfail.
    by apply (getRandomNumber_falls_back w settings min max taken m Huse).
  - intros w settings min max taken m latency before after c
      Huse Hr Hlat Hbefore Hc.
    assert (has taken c = false) as Hfree.
    { by destruct Hc as [->|[text ->]]. }
    split; [|by eapply getRandomNumber_first_free].
    rewrite Hr. cbn [remote_failure].
    destruct (Z.leb_spec timeout_ms latency) as [Hle|_]; [lia|].
    cbn [orb]. apply not_true_is_false. intros Hall.
    rewrite forallb_forall in Hall.
    specialize (Hall c). rewrite Hfree in Hall.
    assert (In c (before ++ c :: after)) as Hin
      by (apply in_or_app; right; by left).
    by specialize (Hall Hin).
Qed.

End AllocatorClaims.

(** ** Properties of the slot machine *)

Module JSFacts.
Import JS.

Example toString_7 : toString (Int 7) = "7".
Proof. reflexivity. Qed.

Example parseInt_007 : parseInt "007" = Int 7.
Proof. reflexivity. Qed.

Example parseInt_neg : parseInt "  -12ab" = Int (-12).
Proof. reflexivity. Qed.

Example parseInt_none : parseInt "abc" = NaN.
Proof. reflexivity. Qed.

Example padStart_7 : padStart "7" 3 "0" = "007".
Proof. reflexivity. Qed.

Example padStart_long : padStart "1234" 3 "0" = "1234".
Proof. reflexivity. Qed.

Example padStart_ab : padStart "x" 4 "ab" = "abax".
Proof. reflexivity. Qed.

Example trim_key : trim (units "  k e y  ") = units "k e y".
Proof. reflexivity. Qed.

(** A key of no-break spaces, a byte order mark and a line separator is
    blank. *)
Example trim_unicode : trim [160; 65279; 8232; 8195; 12288]%N = [].
Proof. reflexivity. Qed.

(** U+0085 and U+200B are not white space. *)
Example trim_not_white : trim [133; 8203]%N = [133; 8203]%N.
Proof. reflexivity. Qed.

Example parseInt_nbsp : parseInt (String (Ascii.ascii_of_N 160) "42") = Int 42.
Proof. reflexivity. Qed.

Lemma at_index_fill (k : nat) (v : bool) (i : nat) :
  at_index (fill k v) i = v && (i <? k)%nat.
Proof.
  unfold at_index, fill.
  destruct (Nat.ltb_spec i k) as [Hlt|Hge].
  - rewrite lookup_replicate_2 by done. simpl. by rewrite andb_true_r.
  - rewrite (proj1 (lookup_replicate_None k v i) Hge). simpl.
    by rewrite andb_false_r.
Qed.

Lemma at_index_set_index (arr : list bool) (i : nat) (v : bool) (j : nat) :
  at_index (set_index arr i v) j
  = if (j =? i)%nat then v else at_index arr j.
Proof.
  unfold at_index, set_index.
  destruct (Nat.ltb_spec i (length arr)) as [Hlt|Hge];
    destruct (Nat.eqb_spec j i) as [->|Hne].
  - by rewrite list_lookup_insert_eq.
  - by rewrite list_lookup_insert_ne.
  - rewrite lookup_app_r by done.
    rewrite lookup_app_r by (rewrite length_replicate; lia).
    rewrite length_replicate.
    by replace (i - length arr - (i - length arr)) with 0 by lia.
  - destruct (Nat.ltb_spec j (length arr)) as [Hj|Hj].
    + by rewrite lookup_app_l.
    + rewrite lookup_app_r by done.
      rewrite (lookup_ge_None_2 arr j) by done. simpl.
      destruct (Nat.ltb_spec (j - length arr) (i - length arr)) as [Hk|Hk].
      * rewrite lookup_app_l by (rewrite length_replicate; lia).
        by rewrite lookup_replicate_2.
      * rewrite lookup_app_r by (rewrite length_replicate; lia).
        rewrite length_replicate.
        destruct (j - length arr - (i - length arr)) as [|k] eqn:Hd; [lia|].
        done.
Qed.

Lemma length_set_index (arr : list bool) (i : nat) (v : bool) :
  i < length arr -> length (set_index arr i v) = length arr.
Proof.
  intros Hlt. unfold set_index.
  destruct (Nat.ltb_spec i (length arr)); [|lia]. apply length_insert.
Qed.

Lemma length_fill (k : nat) (v : bool) : length (fill k v) = k.
Proof. apply length_replicate. Qed.

Lemma some_false (arr : list bool) :
  some arr = false <-> forall i, at_index arr i = false.
Proof.
  unfold some, at_index. induction arr as [|b arr IH]; simpl.
  - split; [|done]. by intros _ [|i].
  - split.
    + intros H [|i]; apply orb_false_iff in H as [Hb Hr]; simpl; [done|].
      by apply IH.
    + intros H. apply orb_false_iff. split; [exact (H 0)|].
      apply IH. intros i. exact (H (S i)).
Qed.

Lemma every_true (arr : list bool) :
  every arr = true <-> forall i, i < length arr -> at_index arr i = true.
Proof.
  unfold every, at_index. induction arr as [|b arr IH]; simpl.
  - split; [|done]. intros _ i Hi. lia.
  - split.
    + intros H [|i] Hi; apply andb_true_iff in H as [Hb Hr]; simpl; [done|].
      apply IH; [done|lia].
    + intros H. apply andb_true_iff. split; [exact (H 0 ltac:(lia))|].
      apply IH. intros i Hi. exact (H (S i) ltac:(lia)).
Qed.

Lemma every_fill_true (k : nat) : every (fill k true) = true.
Proof.
  apply every_true. intros i Hi. rewrite length_fill in Hi.
  rewrite at_index_fill. simpl. by apply Nat.ltb_lt.
Qed.

End JSFacts.

Module SlotFacts.
Import JS Types Slot SlotSpec JSFacts.

#[local] Arguments set_index : simpl never.
#[local] Arguments at_index : simpl never.
#[local] Arguments fill : simpl never.
#[local] Arguments every : simpl never.
#[local] Arguments some : simpl never.

(** Reading the arrays after the updates of the source. *)
Ltac arrays :=
  repeat first
    [ rewrite at_index_set_index
    | rewrite at_index_fill
    | rewrite at_index_set_index in *
    | rewrite at_index_fill in * ].

Ltac index_cases :=
  repeat match goal with
    | H : context [(?a =? ?b)%nat] |- _ =>
        destruct (Nat.eqb_spec a b); subst; simpl in H
    | |- context [(?a =? ?b)%nat] =>
        destruct (Nat.eqb_spec a b); subst; simpl
    | H : context [(?a <? ?b)%nat] |- _ =>
        destruct (Nat.ltb_spec a b); simpl in H
    | |- context [(?a <? ?b)%nat] =>
        destruct (Nat.ltb_spec a b); simpl
    end.

Lemma block_cons (u : Update) (us : list Update) (s : State) :
  fst (block (u :: us) s) = fst (block us (fst (u s))).
Proof.
  change (block (u :: us) s)
    with (let (s1, e1) := u s in
          let (s2, e2) := block us s1 in (s2, e1 ++ e2)).
  destruct (u s) as [s1 e1]. simpl. by destruct (block us s1).
Qed.

Lemma block_nil (s : State) : fst (block [] s) = s.
Proof. reflexivity. Qed.

Lemma block_two (u1 u2 : Update) (s : State) :
  fst (block [u1; u2] s) = fst (u2 (fst (u1 s))).
Proof. by rewrite !block_cons. Qed.

(** The state after each kind of event. *)
Lemma step_render cfg p s p' :
  fst (step cfg (p, s) (Render p'))
  = (p', fst (settle cfg p' (fst (commit cfg p p' s)))).
Proof.
  unfold step. rewrite <- block_two.
  by destruct (block [commit cfg p p'; settle cfg p'] s).
Qed.

Lemma step_click cfg p s idx :
  clickOffered cfg s idx = true ->
  fst (step cfg (p, s) (Click idx))
  = (p, fst (settle cfg p (fst (handleDigitClick cfg p idx s)))).
Proof.
  intros Hoff. unfold step. rewrite Hoff, <- block_two.
  by destruct (block [handleDigitClick cfg p idx; settle cfg p] s).
Qed.

Lemma step_reveal cfg p s :
  revealOffered cfg p = true ->
  fst (step cfg (p, s) Reveal)
  = (p, fst (settle cfg p (fst (revealResult cfg p s)))).
Proof.
  intros Hoff. unfold step. rewrite Hoff, <- block_two.
  by destruct (block [revealResult cfg p; settle cfg p] s).
Qed.

Lemma step_fire cfg p s a :
  fst (step cfg (p, s) (Fire a))
  = (p, fst (settle cfg p (fst (timeout cfg a s)))).
Proof.
  unfold step. rewrite <- block_two.
  by destruct (block [timeout cfg a; settle cfg p] s).
Qed.

Lemma run_cons cfg m ev evs :
  fst (run cfg m (ev :: evs)) = fst (run cfg (fst (step cfg m ev)) evs).
Proof.
  change (run cfg m (ev :: evs))
    with (let (m1, e1) := step cfg m ev in
          let (m2, e2) := run cfg m1 evs in (m2, e1 ++ e2)).
  destruct (step cfg m ev) as [m1 e1]. simpl.
  by destruct (run cfg m1 evs).
Qed.

(** A render that leaves the properties of the prize as they are is a
    render of the machine of that prize. *)
Lemma recommit_same cfg p p' c :
  recommit cfg cfg p p' c = commit cfg p p' c.
Proof.
  unfold recommit, commit.
  rewrite (bool_decide_eq_true_2 (digitCount cfg = digitCount cfg)) by done.
  rewrite (bool_decide_eq_true_2 (spinMode cfg = spinMode cfg)) by done.
  rewrite (bool_decide_eq_true_2 (revealMode cfg = revealMode cfg)) by done.
  rewrite (bool_decide_eq_true_2 (spinDuration cfg = spinDuration cfg))
    by done.
  cbn [negb orb when]. rewrite !orb_false_r.
  match goal with
  | |- block (skip :: ?us) c = _ =>
      change (block (skip :: us) c)
        with (let (s2, e2) := block us c in (s2, [] ++ e2));
      by destruct (block us c)
  end.
Qed.

Lemma react_during cfg m ev :
  react (cfg, m) (During ev)
  = ((cfg, fst (step cfg m ev)), snd (step cfg m ev)).
Proof.
  destruct m as [p s]. cbn [react]. by destruct (step cfg (p, s) ev).
Qed.

Lemma react_same_prize cfg p s prize p' :
  of_prize cfg prize = cfg ->
  react (cfg, (p, s)) (SelectPrize prize p')
  = ((cfg, fst (step cfg (p, s) (Render p'))),
     snd (step cfg (p, s) (Render p'))).
Proof.
  intros E. cbn [react]. rewrite E. unfold step.
  change (block [recommit cfg cfg p p'; settle cfg p'] s)
    with (let (s1, e1) := recommit cfg cfg p p' s in
          let (s2, e2) := block [settle cfg p'] s1 in (s2, e1 ++ e2)).
  change (block [commit cfg p p'; settle cfg p'] s)
    with (let (s1, e1) := commit cfg p p' s in
          let (s2, e2) := block [settle cfg p'] s1 in (s2, e1 ++ e2)).
  rewrite recommit_same.
  destruct (commit cfg p p' s) as [s1 e1].
  by destruct (block [settle cfg p'] s1).
Qed.

Lemma react_select cfg p s prize p' :
  fst (react (cfg, (p, s)) (SelectPrize prize p'))
  = (of_prize cfg prize,
     (p', fst (settle (of_prize cfg prize) p'
                 (fst (recommit cfg (of_prize cfg prize) p p' s))))).
Proof.
  cbn [react]. rewrite <- block_two.
  by destruct (block [recommit cfg (of_prize cfg prize) p p';
                      settle (of_prize cfg prize) p'] s).
Qed.


Section ClickMode.
Variable cfg : Config.
Hypothesis Hmanual : spinMode cfg = MANUAL.
Hypothesis Hclick : revealMode cfg = CLICK.


Ltac modes :=
  rewrite ?Hmanual, ?Hclick in *;
  repeat match goal with
    | |- context [bool_decide (?a = ?b)] =>
        first [ rewrite (bool_decide_eq_true_2 (a = b)) by done
              | rewrite (bool_decide_eq_false_2 (a = b)) by done ]
    end;
  simpl.

Ltac pending_facts :=
  repeat match goal with
    | H3 : forall i, pendingClickIndex ?s = Some i -> _ /\ _,
      H : pendingClickIndex ?s = Some ?k |- _ =>
        let F := fresh "Hpend" in
        pose proof (H3 _ H) as F; destruct F as (? & ? & ?); clear H3
    end.

Ltac leaf :=
  intros; simpl in *; pending_facts; arrays; index_cases;
  try done; try congruence; try lia;
  try (match goal with
       | H1 : forall i, at_index ?a i = true -> at_index ?b i = false
         |- at_index ?b _ = false => by apply H1
       end);
  try (match goal with
       | H2 : forall i j, at_index ?a i = true -> at_index ?a j = true -> i = j
         |- _ = _ => by eapply H2
       end);
  try (match goal with
       | Hn : forall j, at_index ?a j = false, H : at_index ?a _ = true |- _ =>
           rewrite Hn in H; discriminate H
       end).

Ltac inv_goal :=
  simpl; unfold pre_inv; simpl; repeat split; leaf.

Lemma keeps_block (us : list Update) : Forall (keeps cfg) us -> keeps cfg (block us).
Proof.
  induction 1 as [|u us Hu _ IH]; intros s Hs.
  - by split.
  - rewrite block_cons. destruct (Hu s Hs) as [H1 H1'].
    destruct (IH _ H1) as [H2 H2']. split; [done|]. by eauto.
Qed.

Lemma keeps_when (b : bool) (u : Update) : keeps cfg u -> keeps cfg (when b u).
Proof. destruct b; [done|]. intros _ s Hs. by split. Qed.

Lemma keeps_skip : keeps cfg skip.
Proof. intros s Hs. by split. Qed.

Lemma keeps_sessionStartEffect p : keeps cfg (sessionStartEffect cfg p).
Proof.
  intros s (H1 & H2 & H3 & H4 & H5). unfold sessionStartEffect. modes.
  destruct (isManualSpinActive p); destruct (prevIsManualSpinActive s);
    simpl; (split; [inv_goal|leaf]).
Qed.

Lemma keeps_manualTimerEffect p : keeps cfg (manualTimerEffect cfg p).
Proof.
  intros s (H1 & H2 & H3 & H4 & H5). unfold manualTimerEffect. modes.
  split; [inv_goal|leaf].
Qed.

Lemma keeps_targetClearedEffect p c : keeps cfg (targetClearedEffect cfg p c).
Proof.
  intros s (H1 & H2 & H3 & H4 & H5). unfold targetClearedEffect. modes.
  destruct (bool_decide (targetNumber p = None)); destruct (manualSpinStarted c);
    simpl; (split; [inv_goal|leaf]).
Qed.

Lemma keeps_autoSyncEffect p : keeps cfg (autoSyncEffect cfg p).
Proof. unfold autoSyncEffect. modes. apply keeps_skip. Qed.

Lemma keeps_allStoppedEffect c : keeps cfg (allStoppedEffect cfg c).
Proof.
  intros s (H1 & H2 & H3 & H4 & H5). unfold allStoppedEffect. modes.
  destruct (manualSpinStarted c); destruct (every (digitStoppedState c));
    simpl; (split; [inv_goal|leaf]).
Qed.

Lemma keeps_autoStopEffect p : keeps cfg (autoStopEffect cfg p).
Proof.
  intros s (H1 & H2 & H3 & H4 & H5). unfold autoStopEffect. modes.
  split; [inv_goal|leaf].
Qed.

Lemma keeps_settle_at p c :
  keeps cfg (block [targetClearedEffect cfg p c; allStoppedEffect cfg c]).
Proof.
  apply keeps_block.
  constructor; [apply keeps_targetClearedEffect|].
  constructor; [apply keeps_allStoppedEffect|constructor].
Qed.

(** The pending click is served when the target number arrives. *)
Lemma pendingClickEffect_inv p c s :
  pre_inv cfg s -> pendingClickIndex s = pendingClickIndex c ->
  pre_inv cfg (fst (pendingClickEffect cfg p c s)) /\
  (forall k, pendingClickIndex (fst (pendingClickEffect cfg p c s)) = Some k ->
             pendingClickIndex s = Some k /\ truthy (targetNumber p) = false).
Proof.
  intros (H1 & H2 & H3 & H4 & H5) Hpc.
  unfold pendingClickEffect, startDigitSpin. rewrite <- Hpc. modes.
  destruct (pendingClickIndex s) as [k|] eqn:Hp;
    [destruct (H3 _ eq_refl) as (Hn & Hs & Hc)|];
    destruct (truthy (targetNumber p)) eqn:Ht;
    simpl; (split; [inv_goal|intros; repeat split; leaf]).
Qed.

Lemma sessionStartEffect_pending p s :
  pendingClickIndex (fst (sessionStartEffect cfg p s)) = pendingClickIndex s.
Proof.
  unfold sessionStartEffect. modes.
  by destruct (isManualSpinActive p); destruct (prevIsManualSpinActive s).
Qed.

Lemma manualTimerEffect_pending p s :
  pendingClickIndex (fst (manualTimerEffect cfg p s)) = pendingClickIndex s.
Proof. unfold manualTimerEffect. by modes. Qed.

Lemma keeps_settle p : keeps cfg (settle cfg p).
Proof. intros s Hs. unfold settle. by apply keeps_settle_at. Qed.

Lemma keeps_resetEffect : keeps cfg (resetEffect cfg).
Proof.
  intros s (H1 & H2 & H3 & H4 & H5). unfold resetEffect.
  split; [inv_goal|leaf].
Qed.

Lemma keeps_pendingClickEffect_none p c :
  pendingClickIndex c = None -> keeps cfg (pendingClickEffect cfg p c).
Proof. intros Hc. unfold pendingClickEffect. rewrite Hc. apply keeps_skip. Qed.

Lemma settle_inv p s :
  click_inv cfg p s -> click_inv cfg p (fst (settle cfg p s)).
Proof.
  intros [Hpre Hpend]. destruct (keeps_settle p s Hpre) as [H1 H2].
  split; [done|]. intros i Hi. eapply Hpend. by apply H2.
Qed.

Lemma commit_inv p p' c :
  click_inv cfg p c -> click_inv cfg p' (fst (commit cfg p p' c)).
Proof.
  intros [Hpre Hpend]. unfold commit.
  set (ac := negb (bool_decide (isManualSpinActive p = isManualSpinActive p'))).
  set (sc := negb (bool_decide (isSpinning p = isSpinning p'))).
  rewrite 3!block_cons.
  set (s1 := fst (when ac (sessionStartEffect cfg p') c)).
  assert (pre_inv cfg s1 /\ pendingClickIndex s1 = pendingClickIndex c)
    as [Hpre1 Hp1].
  { unfold s1. destruct ac; simpl; [|done].
    split; [by apply keeps_sessionStartEffect|].
    apply sessionStartEffect_pending. }
  set (s2 := fst (when _ (manualTimerEffect cfg p') s1)).
  assert (pre_inv cfg s2 /\ pendingClickIndex s2 = pendingClickIndex c)
    as [Hpre2 Hp2].
  { unfold s2. destruct (ac || _); simpl; [|done].
    split; [by apply keeps_manualTimerEffect|].
    by rewrite manualTimerEffect_pending. }
  set (s3 := fst (when _ (pendingClickEffect cfg p' c) s2)).
  assert (pre_inv cfg s3 /\
          forall k, pendingClickIndex s3 = Some k ->
                    truthy (targetNumber p') = false) as [Hpre3 Hp3].
  { unfold s3.
    destruct (bool_decide_reflect (targetNumber p = targetNumber p'))
      as [Et|Et]; simpl.
    - split; [done|]. intros k Hk. rewrite <- Et. eapply Hpend.
      by rewrite <- Hp2.
    - destruct (pendingClickEffect_inv p' c s2 Hpre2 Hp2) as [Ha Hb].
      split; [done|]. intros k Hk. by destruct (Hb k Hk). }
  assert (keeps cfg (block [targetClearedEffect cfg p' c;
                        when sc (autoSyncEffect cfg p');
                        allStoppedEffect cfg c;
                        autoStopEffect cfg p'])) as Hrest.
  { apply keeps_block.
    constructor; [apply keeps_targetClearedEffect|].
    constructor; [apply keeps_when, keeps_autoSyncEffect|].
    constructor; [apply keeps_allStoppedEffect|].
    constructor; [apply keeps_autoStopEffect|constructor]. }
  destruct (Hrest s3 Hpre3) as [Hf Hfp].
  split; [done|]. intros i Hi. eapply Hp3. by apply Hfp.
Qed.

Lemma handleDigitClick_inv p s idx :
  click_inv cfg p s -> clickOffered cfg s idx = true ->
  click_inv cfg p (fst (handleDigitClick cfg p idx s)).
Proof.
  intros [(H1 & H2 & H3 & H4 & H5) Hpend] Hoff.
  unfold clickOffered, isDigitClickable in Hoff.
  unfold handleDigitClick, stopDigitSpin, startDigitSpin, click_inv.
  revert Hoff. modes.
  destruct (at_index (digitSpinningState s) idx) eqn:Hsp.
  { intros _. simpl. split; [inv_goal|]. simpl. exact Hpend. }
  destruct (some (digitSpinningState s)) eqn:Hany;
    [by rewrite andb_false_r|].
  rewrite some_false in Hany. intros _.
  destruct (every (digitStoppedState s)) eqn:He;
    destruct (at_index (digitStoppedState s) idx) eqn:Hst;
    destruct (manualSpinStarted s) eqn:Hms;
    destruct (truthy (targetNumber p)) eqn:Ht;
    destruct (onStartedSpin cfg) eqn:Hcb;
    simpl;
    (split;
     [inv_goal;
      match goal with
      | H : pendingClickIndex s = Some _ |- _ => by specialize (Hpend _ H)
      end
     |simpl; try done; leaf; by eauto]).
Qed.

Lemma timeout_inv p s a :
  click_inv cfg p s -> click_inv cfg p (fst (timeout cfg a s)).
Proof.
  intros Hinv.
  assert (timeout cfg a s = skip s) as ->; [|done].
  destruct Hinv as [(H1 & H2 & H3 & H4 & H5) Hpend].
  unfold timeout. by rewrite H4, H5.
Qed.

Lemma revealOffered_false p : revealOffered cfg p = false.
Proof.
  unfold revealOffered. rewrite Hmanual.
  by rewrite (bool_decide_eq_false_2 (MANUAL = ALL_AT_ONCE)).
Qed.

Lemma step_inv p s ev :
  click_inv cfg p s ->
  click_inv cfg (fst (fst (step cfg (p, s) ev))) (snd (fst (step cfg (p, s) ev))).
Proof.
  intros Hinv. destruct ev as [p'|idx| |a].
  - rewrite step_render. by apply settle_inv, commit_inv.
  - destruct (clickOffered cfg s idx) eqn:Hoff.
    + rewrite step_click by done. by apply settle_inv, handleDigitClick_inv.
    + unfold step. by rewrite Hoff.
  - unfold step. by rewrite revealOffered_false.
  - rewrite step_fire. by apply settle_inv, timeout_inv.
Qed.

Lemma mount_inv p : click_inv cfg p (fst (mount cfg p)).
Proof.
  assert (pre_inv cfg (initial cfg p)) as Hinit.
  { unfold pre_inv, initial; simpl. repeat split; leaf. }
  assert (keeps cfg (block [
    resetEffect cfg;
    sessionStartEffect cfg p;
    manualTimerEffect cfg p;
    pendingClickEffect cfg p (initial cfg p);
    targetClearedEffect cfg p (initial cfg p);
    autoSyncEffect cfg p;
    allStoppedEffect cfg (initial cfg p);
    autoStopEffect cfg p;
    settle cfg p])) as Hk.
  { apply keeps_block.
    constructor; [apply keeps_resetEffect|].
    constructor; [apply keeps_sessionStartEffect|].
    constructor; [apply keeps_manualTimerEffect|].
    constructor; [by apply keeps_pendingClickEffect_none|].
    constructor; [apply keeps_targetClearedEffect|].
    constructor; [apply keeps_autoSyncEffect|].
    constructor; [apply keeps_allStoppedEffect|].
    constructor; [apply keeps_autoStopEffect|].
    constructor; [apply keeps_settle|constructor]. }
  destruct (Hk _ Hinit) as [H1 H2]. split; [exact H1|].
  intros i Hi. apply H2 in Hi. discriminate Hi.
Qed.

Lemma run_inv evs : forall p s,
  click_inv cfg p s ->
  click_inv cfg (fst (fst (run cfg (p, s) evs))) (snd (fst (run cfg (p, s) evs))).
Proof.
  induction evs as [|ev evs IH]; intros p s Hinv; [done|].
  rewrite run_cons. pose proof (step_inv p s ev Hinv) as Hstep.
  destruct (fst (step cfg (p, s) ev)) as [p1 s1]. by apply IH.
Qed.

Lemma exec_inv p evs :
  click_inv cfg (fst (exec cfg p evs)) (snd (exec cfg p evs)).
Proof. unfold exec. apply run_inv, mount_inv. Qed.


Lemma settle_settled p s : settled p (fst (settle cfg p s)).
Proof.
  unfold settled, settle, targetClearedEffect, allStoppedEffect. modes.
  destruct (bool_decide_reflect (targetNumber p = None));
    destruct (manualSpinStarted s) eqn:Hs;
    destruct (every (digitStoppedState s)); simpl; congruence.
Qed.

Lemma step_settled p s ev :
  settled p s ->
  settled (fst (fst (step cfg (p, s) ev))) (snd (fst (step cfg (p, s) ev))).
Proof.
  intros Hs. destruct ev as [p'|idx| |a].
  - rewrite step_render. apply settle_settled.
  - destruct (clickOffered cfg s idx) eqn:Hoff.
    + rewrite step_click by done. apply settle_settled.
    + unfold step. by rewrite Hoff.
  - unfold step. by rewrite revealOffered_false.
  - rewrite step_fire. apply settle_settled.
Qed.

Lemma mount_settled p : settled p (fst (mount cfg p)).
Proof. unfold mount. rewrite !block_cons, block_nil. apply settle_settled. Qed.

Lemma run_settled evs : forall p s,
  settled p s ->
  settled (fst (fst (run cfg (p, s) evs))) (snd (fst (run cfg (p, s) evs))).
Proof.
  induction evs as [|ev evs IH]; intros p s Hinv; [done|].
  rewrite run_cons. pose proof (step_settled p s ev Hinv) as Hstep.
  destruct (fst (step cfg (p, s) ev)) as [p1 s1]. by apply IH.
Qed.

Lemma exec_settled p evs :
  settled (fst (exec cfg p evs)) (snd (exec cfg p evs)).
Proof. unfold exec. apply run_settled, mount_settled. Qed.

(** *** The render that resets the component for the prize *)

Ltac core_goal :=
  simpl; unfold core_inv; simpl; repeat split; leaf.

Lemma keeps_core_block (us : list Update) :
  Forall (keeps_core cfg) us -> keeps_core cfg (block us).
Proof.
  induction 1 as [|u us Hu _ IH]; intros s Hs.
  - by split.
  - rewrite block_cons. destruct (Hu s Hs) as [H1 H1'].
    destruct (IH _ H1) as [H2 H2']. split; [done|]. by eauto.
Qed.

Lemma keeps_core_skip : keeps_core cfg skip.
Proof. intros s Hs. by split. Qed.

Lemma keeps_core_when (b : bool) (u : Update) :
  keeps_core cfg u -> keeps_core cfg (when b u).
Proof. destruct b; [done|]. intros _. apply keeps_core_skip. Qed.

Lemma keeps_core_targetClearedEffect p c :
  keeps_core cfg (targetClearedEffect cfg p c).
Proof.
  intros s (H1 & H2 & H3). unfold targetClearedEffect. modes.
  destruct (bool_decide (targetNumber p = None)); destruct (manualSpinStarted c);
    simpl; (split; [core_goal|leaf]).
Qed.

Lemma keeps_core_autoSyncEffect p : keeps_core cfg (autoSyncEffect cfg p).
Proof. unfold autoSyncEffect. modes. apply keeps_core_skip. Qed.

Lemma keeps_core_allStoppedEffect c :
  keeps_core cfg (allStoppedEffect cfg c).
Proof.
  intros s (H1 & H2 & H3). unfold allStoppedEffect. modes.
  destruct (manualSpinStarted c); destruct (every (digitStoppedState c));
    simpl; (split; [core_goal|leaf]).
Qed.

Lemma keeps_core_autoStopEffect p : keeps_core cfg (autoStopEffect cfg p).
Proof.
  intros s (H1 & H2 & H3). unfold autoStopEffect. modes.
  split; [core_goal|leaf].
Qed.

Lemma blank_core s : blank s -> core_inv cfg s.
Proof.
  intros (Hsp & Hst & Hp). unfold core_inv. repeat split; intros;
    try congruence; by rewrite Hsp in *.
Qed.

Lemma blank_resetEffect s : blank (fst (resetEffect cfg s)).
Proof.
  unfold blank, resetEffect. simpl.
  repeat split; try done; intros j; by rewrite at_index_fill.
Qed.

Lemma blank_sessionStartEffect p s :
  blank s -> blank (fst (sessionStartEffect cfg p s)).
Proof.
  intros (Hsp & Hst & Hp). unfold blank, sessionStartEffect. modes.
  destruct (isManualSpinActive p); destruct (prevIsManualSpinActive s);
    simpl; repeat split; try done; intros j; by rewrite at_index_fill.
Qed.

Lemma blank_manualTimerEffect p s :
  blank s -> blank (fst (manualTimerEffect cfg p s)).
Proof. intros Hs. unfold manualTimerEffect. by modes. Qed.

(** A click left pending by the previous prize is served on the blank
    machine: its digit starts, alone. *)
Lemma pendingClickEffect_blank p c s :
  blank s ->
  core_inv cfg (fst (pendingClickEffect cfg p c s)) /\
  pendingClickIndex (fst (pendingClickEffect cfg p c s)) = None.
Proof.
  intros (Hsp & Hst & Hp).
  unfold pendingClickEffect, startDigitSpin. modes.
  destruct (pendingClickIndex c) as [k|];
    [destruct (truthy (targetNumber p))|]; simpl;
    (split; [|done]); unfold core_inv; simpl; repeat split; intros;
    try congruence;
    repeat match goal with
      | H : at_index (set_index _ _ _) _ = true |- _ =>
          rewrite at_index_set_index in H
      | H : context [(?a =? ?b)%nat] |- _ =>
          destruct (Nat.eqb_spec a b); subst
      | H : at_index (digitSpinningState s) _ = true |- _ =>
          rewrite Hsp in H; discriminate H
      end; try done.
Qed.

Lemma recommit_reset_timers cfg0 p p' c :
  digitCount cfg0 <> digitCount cfg \/ spinMode cfg0 <> spinMode cfg ->
  manualTimers (fst (recommit cfg0 cfg p p' c)) = [] /\
  autoTimers (fst (recommit cfg0 cfg p p' c)) = [].
Proof.
  intros Hr. unfold recommit. cbv zeta.
  assert (negb (bool_decide (spinMode cfg0 = spinMode cfg))
          || negb (bool_decide (digitCount cfg0 = digitCount cfg)) = true)
    as Hany.
  { destruct Hr as [Hd|Hm].
    - rewrite (bool_decide_eq_false_2 _ Hd). apply orb_true_r.
    - by rewrite (bool_decide_eq_false_2 _ Hm). }
  assert (forall a b c0 d : bool,
            a || b || negb (bool_decide (spinMode cfg0 = spinMode cfg)) || c0
            || negb (bool_decide (digitCount cfg0 = digitCount cfg)) || d
            = true) as ->.
  { intros a b c0 d. apply orb_true_iff in Hany as [->| ->];
      by rewrite ?orb_true_r. }
  rewrite !block_cons, block_nil.
  unfold autoStopEffect, allStoppedEffect, autoSyncEffect,
    targetClearedEffect, pendingClickEffect, manualTimerEffect,
    sessionStartEffect, resetEffect, startDigitSpin, when.
  modes.
  repeat case_match; simpl; done.
Qed.

Lemma settle_timers p s :
  manualTimers (fst (settle cfg p s)) = manualTimers s /\
  autoTimers (fst (settle cfg p s)) = autoTimers s.
Proof.
  unfold settle, targetClearedEffect, allStoppedEffect.
  destruct (bool_decide (spinMode cfg = MANUAL));
    destruct (bool_decide (targetNumber p = None));
    destruct (manualSpinStarted s);
    destruct (every (digitStoppedState s)); by split.
Qed.

Lemma recommit_reset_inv cfg0 p p' c :
  digitCount cfg0 <> digitCount cfg \/ spinMode cfg0 <> spinMode cfg ->
  click_inv cfg p' (fst (recommit cfg0 cfg p p' c)).
Proof.
  intros Hr.
  destruct (recommit_reset_timers cfg0 p p' c Hr) as [Hm Ha].
  revert Hm Ha. unfold recommit. cbv zeta.
  assert (negb (bool_decide (digitCount cfg0 = digitCount cfg))
          || negb (bool_decide (spinMode cfg0 = spinMode cfg)) = true)
    as ->.
  { destruct Hr as [Hd|Hm].
    - by rewrite (bool_decide_eq_false_2 _ Hd).
    - rewrite (bool_decide_eq_false_2 _ Hm). apply orb_true_r. }
  intros Hm Ha. revert Hm Ha.
  rewrite 4!block_cons. cbn [when].
  set (s1 := fst (resetEffect cfg c)).
  set (s2 := fst (when _ (sessionStartEffect cfg p') s1)).
  set (s3 := fst (when _ (manualTimerEffect cfg p') s2)).
  set (s4 := fst (when _ (pendingClickEffect cfg p' c) s3)).
  assert (blank s3) as Hb3.
  { assert (blank s2) as Hb2.
    { unfold s2, when.
      match goal with
      | |- blank (fst ((if ?b then _ else _) _)) => destruct b
      end; cbn [skip fst];
        [apply blank_sessionStartEffect|]; apply blank_resetEffect. }
    unfold s3, when.
    match goal with
    | |- blank (fst ((if ?b then _ else _) _)) => destruct b
    end; cbn [skip fst]; [by apply blank_manualTimerEffect|done]. }
  assert (core_inv cfg s4 /\ pendingClickIndex s4 = None) as [Hc4 Hp4].
  { unfold s4, when.
    match goal with
    | |- context [fst ((if ?b then _ else _) _)] => destruct b
    end; cbn [skip fst].
    - by apply pendingClickEffect_blank.
    - split; [by apply blank_core|]. by destruct Hb3 as (_ & _ & ?). }
  match goal with
  | |- context [block ?us s4] =>
      assert (keeps_core cfg (block us)) as Hrest
  end.
  { apply keeps_core_block.
    constructor; [apply keeps_core_targetClearedEffect|].
    constructor; [apply keeps_core_when, keeps_core_autoSyncEffect|].
    constructor; [apply keeps_core_allStoppedEffect|].
    constructor; [apply keeps_core_autoStopEffect|constructor]. }
  destruct (Hrest s4 Hc4) as [(H1 & H2 & H3) Hpend].
  intros Hm Ha. split.
  - unfold pre_inv. split; [exact H1|]. split; [exact H2|].
    split; [exact H3|]. split; [exact Hm|exact Ha].
  - intros i Hi. apply Hpend in Hi. congruence.
Qed.

(** What holds of the machines that show the prize since the last reset. *)
Lemma since_reset_inv m :
  since_reset cfg m ->
  fst m = cfg /\
  click_inv cfg (fst (snd m)) (snd (snd m)) /\
  settled (fst (snd m)) (snd (snd m)).
Proof.
  induction 1 as [p|[cfg0 [p s]] prize p' E Hr|[cfg1 [p s]] a Hm IH Ha].
  - split; [done|]. split; [apply mount_inv|apply mount_settled].
  - cbn [fst] in E, Hr. rewrite react_select, E. cbn [fst snd].
    split; [done|]. split; [|apply settle_settled].
    by apply settle_inv, recommit_reset_inv.
  - cbn [fst snd] in IH. destruct IH as (-> & Hinv & Hset).
    destruct a as [prize p'|ev].
    + cbn [same_prize] in Ha. rewrite react_same_prize by done.
      cbn [fst snd]. split; [done|].
      split; [by apply step_inv|by apply step_settled].
    + rewrite react_during. cbn [fst snd]. split; [done|].
      split; [by apply step_inv|by apply step_settled].
Qed.

(** Once settled, the effects of the state leave the arrays alone. *)
Lemma settle_arrays p s :
  settled p s ->
  digitSpinningState (fst (settle cfg p s)) = digitSpinningState s /\
  digitStoppedState (fst (settle cfg p s)) = digitStoppedState s.
Proof.
  unfold settled, settle, targetClearedEffect, allStoppedEffect. modes.
  destruct (bool_decide_reflect (targetNumber p = None));
    destruct (manualSpinStarted s) eqn:Hs;
    destruct (every (digitStoppedState s)); simpl; try done.
  all: intros H; by destruct H.
Qed.


(** *** The renders that leave the stopped digits alone *)













End ClickMode.
End SlotFacts.

Module SlotClaims.
Import JS Types Slot SlotSpec SlotPhases JSFacts SlotFacts.

#[local] Arguments set_index : simpl never.
#[local] Arguments at_index : simpl never.
#[local] Arguments fill : simpl never.
#[local] Arguments every : simpl never.
#[local] Arguments some : simpl never.
#[local] Arguments step : simpl never.
#[local] Arguments settle : simpl never.

Lemma block_two_emits (u1 u2 : Update) (s : State) :
  snd (block [u1; u2] s) = snd (u1 s) ++ snd (u2 (fst (u1 s))).
Proof.
  simpl. destruct (u1 s) as [s1 e1]. simpl.
  destruct (u2 s1) as [s2 e2]. simpl. by rewrite app_nil_r.
Qed.

Lemma step_click_emits cfg p s idx :
  clickOffered cfg s idx = true ->
  snd (step cfg (p, s) (Click idx))
  = snd (handleDigitClick cfg p idx s)
    ++ snd (settle cfg p (fst (handleDigitClick cfg p idx s))).
Proof.
  intros Hoff. unfold step. rewrite Hoff, <- block_two_emits.
  by destruct (block [handleDigitClick cfg p idx; settle cfg p] s).
Qed.

Lemma some_true_at (arr : list bool) (j : nat) :
  at_index arr j = true -> some arr = true.
Proof.
  intros Hj. destruct (some arr) eqn:Hs; [done|].
  rewrite some_false in Hs. by rewrite Hs in Hj.
Qed.


(** The click-driven machine since its last reset, the prize staying the
    same: at most one digit is spinning; while a digit spins, a click on
    any other digit is rejected: nothing changes and nothing is notified;
    and a click on the spinning digit stops it (it is no longer spinning,
    it is stopped, and the stop is notified). *)
Lemma click_mode_since_reset (cfg : Config) (m : Machine) :
  spinMode cfg = MANUAL ->
  revealMode cfg = CLICK ->
  since_reset cfg m ->
  (forall i j, spinning (snd m) i = true -> spinning (snd m) j = true ->
     i = j) /\
  (forall i j, spinning (snd m) j = true -> i <> j ->
     react m (During (Click i)) = (m, [])) /\
  (forall j, j < digitCount cfg -> spinning (snd m) j = true ->
     spinning (snd (fst (react m (During (Click j))))) j = false /\
     stopped (snd (fst (react m (During (Click j))))) j = true /\
     (onStopDigit cfg = true ->
      OnStopDigit ∈ snd (react m (During (Click j))))).
Proof.
  intros Hmanual Hclick Hm.
  destruct (since_reset_inv cfg Hmanual Hclick m Hm) as (Hcfg & Hinv & Hset).
  destruct m as [cfg1 [p s]]. cbn [fst snd] in Hcfg, Hinv, Hset. subst cfg1.
  destruct Hinv as [(H1 & H2 & H3 & H4 & H5) Hpend].
  unfold spinning, stopped. cbn [fst snd].
  split; [exact H2|]. split.
  - intros i j Hj Hne. rewrite react_during.
    unfold step, clickOffered, isDigitClickable.
    rewrite Hmanual, Hclick. simpl.
    destruct (at_index (digitSpinningState s) i) eqn:Hi.
    { by specialize (H2 _ _ Hi Hj). }
    rewrite (some_true_at _ _ Hj). by rewrite andb_false_r.
  - intros j Hlt Hj. rewrite react_during. cbn [fst snd].
    assert (clickOffered cfg s j = true) as Hoff.
    { unfold clickOffered, isDigitClickable. rewrite Hmanual, Hclick, Hj.
      simpl. rewrite andb_true_r. by apply Nat.ltb_lt. }
    assert (handleDigitClick cfg p j s = stopDigitSpin cfg j s) as Hstop.
    { unfold handleDigitClick. rewrite Hmanual, Hclick, Hj. reflexivity. }
    rewrite step_click, step_click_emits by done. simpl. rewrite Hstop.
    assert (settled p (fst (stopDigitSpin cfg j s))) as Hset' by exact Hset.
    destruct (settle_arrays cfg Hmanual p _ Hset') as [-> ->].
    unfold stopDigitSpin. simpl. rewrite !at_index_set_index.
    rewrite Nat.eqb_refl. split; [done|]. split; [done|].
    intros ->. simpl. apply elem_of_cons. by left.
Qed.

Lemma still_skip : still skip.
Proof. by intros s. Qed.

Lemma still_when (b : bool) (u : Update) : still u -> still (when b u).
Proof. destruct b; [done|]. intros _. apply still_skip. Qed.

Lemma still_block (us : list Update) : Forall still us -> still (block us).
Proof.
  induction 1 as [|u us Hu _ IH]; intros s; [done|].
  rewrite block_cons. destruct (Hu s) as [H1 H2].
  destruct (IH (fst (u s))) as [H3 H4]. split; congruence.
Qed.

Lemma still_manualTimerEffect cfg p :
  spinMode cfg = MANUAL -> revealMode cfg = CLICK ->
  still (manualTimerEffect cfg p).
Proof.
  intros Hmode Hreveal s. unfold manualTimerEffect.
  rewrite Hmode, Hreveal.
  rewrite (bool_decide_eq_false_2 (CLICK = TIMER)) by done.
  by rewrite orb_true_r.
Qed.

Lemma still_targetClearedEffect cfg p c :
  targetNumber p <> None -> still (targetClearedEffect cfg p c).
Proof.
  intros Htarget s. unfold targetClearedEffect.
  rewrite (bool_decide_eq_false_2 (targetNumber p = None)) by done.
  by rewrite andb_false_r.
Qed.

Lemma still_autoSyncEffect cfg p :
  spinMode cfg = MANUAL -> still (autoSyncEffect cfg p).
Proof.
  intros Hmode s. unfold autoSyncEffect. rewrite Hmode.
  by rewrite (bool_decide_eq_true_2 (MANUAL = MANUAL)).
Qed.

Lemma still_allStoppedEffect cfg c : still (allStoppedEffect cfg c).
Proof.
  intros s. unfold allStoppedEffect.
  destruct (bool_decide (spinMode cfg = MANUAL) && manualSpinStarted c);
    [|done].
  by destruct (every (digitStoppedState c)).
Qed.

Lemma still_autoStopEffect cfg p :
  spinMode cfg = MANUAL -> still (autoStopEffect cfg p).
Proof.
  intros Hmode s. unfold autoStopEffect. rewrite Hmode.
  by rewrite (bool_decide_eq_true_2 (MANUAL = MANUAL)).
Qed.

Lemma still_settle cfg p :
  targetNumber p <> None -> still (settle cfg p).
Proof.
  intros Htarget s. unfold settle.
  apply (still_block [targetClearedEffect cfg p s; allStoppedEffect cfg s]).
  constructor; [by apply still_targetClearedEffect|].
  constructor; [apply still_allStoppedEffect|constructor].
Qed.

(** No reset when the prize selected has the same [digitCount] and
    [spinMode]: going from an operator-paced prize to a click-driven one
    while a target number is set, the digits keep the flags they have. *)
Lemma select_without_reset (cfg : Config) (prize : Prize) (p : Props)
    (s : State) :
  spinMode cfg = MANUAL ->
  Types.spinMode prize = MANUAL ->
  Types.digitCount prize = digitCount cfg ->
  revealMode (of_prize cfg prize) = CLICK ->
  targetNumber p <> None ->
  digitSpinningState (snd (snd (fst (react (cfg, (p, s))
                                       (SelectPrize prize p)))))
  = digitSpinningState s /\
  digitStoppedState (snd (snd (fst (react (cfg, (p, s))
                                      (SelectPrize prize p)))))
  = digitStoppedState s.
Proof.
  intros Hmode Hmode' Hdigits Hreveal Htarget.
  rewrite react_select. cbn [fst snd].
  set (cfg' := of_prize cfg prize) in *.
  assert (spinMode cfg' = MANUAL) as Hm' by exact Hmode'.
  assert (digitCount cfg' = digitCount cfg) as Hd' by exact Hdigits.
  assert (still (recommit cfg cfg' p p)) as Hcommit.
  { intros c. unfold recommit. cbv zeta.
    rewrite (bool_decide_eq_true_2 (digitCount cfg = digitCount cfg'))
      by done.
    rewrite (bool_decide_eq_true_2 (spinMode cfg = spinMode cfg'))
      by congruence.
    rewrite (bool_decide_eq_true_2
               (isManualSpinActive p = isManualSpinActive p)) by done.
    rewrite (bool_decide_eq_true_2 (targetNumber p = targetNumber p))
      by done.
    rewrite (bool_decide_eq_true_2 (isSpinning p = isSpinning p)) by done.
    cbn [negb orb when].
    match goal with
    | |- context [block ?us c] => apply (still_block us)
    end.
    constructor; [apply still_skip|].
    constructor; [apply still_skip|].
    constructor; [by apply still_when, still_manualTimerEffect|].
    constructor; [apply still_skip|].
    constructor; [by apply still_targetClearedEffect|].
    constructor; [apply still_skip|].
    constructor; [apply still_allStoppedEffect|].
    constructor; [by apply still_autoStopEffect|constructor]. }
  destruct (Hcommit s) as [H1 H2].
  destruct (still_settle cfg' p Htarget (fst (recommit cfg cfg' p p s)))
    as [H3 H4].
  split; congruence.
Qed.

(** C7 on the code.  Since the last reset of the component and as long as
    the prize stays the same, the click-driven machine has at most one
    digit spinning, rejects the click on another digit and stops the
    spinning digit at its click.  But the reset effect depends on
    [digitCount] and [spinMode] only, and [App] lets the operator select
    another prize in the middle of a session: when a MANUAL prize with
    CLICK reveal and as many digits is selected during a MANUAL session with
    TIMER reveal, the digits keep their flags.  With three digits, a
    session started on the timed prize and the click-driven prize selected
    before the first timeout (the target number becoming the number of a
    winner of that prize), the three digits are spinning in CLICK mode and
    each is clickable; a click on digit 0 stops it, and digits 1 and 2 are
    still spinning together. *)
Theorem click_mode_three_digits_spinning :
  (forall (cfg : Config) (m : Machine),
     spinMode cfg = MANUAL -> revealMode cfg = CLICK -> since_reset cfg m ->
     (forall i j, spinning (snd m) i = true -> spinning (snd m) j = true ->
        i = j) /\
     (forall i j, spinning (snd m) j = true -> i <> j ->
        react m (During (Click i)) = (m, [])) /\
     (forall j, j < digitCount cfg -> spinning (snd m) j = true ->
        spinning (snd (fst (react m (During (Click j))))) j = false /\
        stopped (snd (fst (react m (During (Click j))))) j = true /\
        (onStopDigit cfg = true ->
         OnStopDigit ∈ snd (react m (During (Click j)))))) /\
  (forall (cfg : Config) (prize : Prize) (p : Props) (s : State),
     spinMode cfg = MANUAL ->
     Types.spinMode prize = MANUAL ->
     Types.digitCount prize = digitCount cfg ->
     revealMode (of_prize cfg prize) = CLICK ->
     targetNumber p <> None ->
     digitSpinningState (snd (snd (fst (react (cfg, (p, s))
                                          (SelectPrize prize p)))))
     = digitSpinningState s /\
     digitStoppedState (snd (snd (fst (react (cfg, (p, s))
                                         (SelectPrize prize p)))))
     = digitStoppedState s) /\
  (let m := fst (play (mounted timed_reveal_config idle)
                   [During (Render (drawing "123" true));
                    SelectPrize click_prize (drawing "123" true);
                    During (Render (drawing "456" true))]) in
   spinMode (fst m) = MANUAL /\
   revealMode (fst m) = CLICK /\
   digitSpinningState (snd (snd m)) = [true; true; true] /\
   digitStoppedState (snd (snd m)) = [false; false; false] /\
   isDigitClickable (fst m) (snd (snd m)) 0 = true /\
   isDigitClickable (fst m) (snd (snd m)) 1 = true /\
   isDigitClickable (fst m) (snd (snd m)) 2 = true /\
   digitSpinningState (snd (snd (fst (react m (During (Click 0))))))
   = [false; true; true] /\
   snd (react m (During (Click 0))) = [OnStopDigit; OnDigitSpinStop true]).
Proof.
  split; [|split].
  - intros cfg m. apply click_mode_since_reset.
  - intros cfg prize p s. apply select_without_reset.
  - cbv zeta. repeat split; vm_compute; reflexivity.
Qed.

(** The same selection when the prize selected has no winner yet: [App]
    clears the target number, and the machine is reset by the effect that
    watches it. *)
Example select_clears_target :
  digitSpinningState
    (snd (snd (fst (play (mounted timed_reveal_config idle)
                      [During (Render (drawing "123" true));
                       SelectPrize click_prize (drawing "123" true);
                       During (Render {| targetNumber := None;
                                         isSpinning := true;
                                         isManualSpinActive := true |})]))))
  = [false; false; false].
Proof. vm_compute. reflexivity. Qed.


(** What the amended claim leaves out: a prize of the same [digitCount]
    and [spinMode] selected in the middle of a cycle brings no reset.
    Digit 0 stopped by clicks, the timed prize selected and then the
    click-driven one again (the target number following the winner on
    display): digit 0 is spinning and stopped on the click-driven
    machine. *)
Example stale_digits_after_selection :
  let m := fst (play (mounted click_config idle)
                  [During (Render (drawing "123" true));
                   During (Click 0); During (Click 0);
                   SelectPrize timed_prize (drawing "123" true);
                   During (Render (drawing "456" true));
                   SelectPrize click_prize (drawing "456" true);
                   During (Render (drawing "789" true))]) in
  fst m = click_config /\
  spinning (snd m) 0 = true /\ stopped (snd m) 0 = true.
Proof. cbv zeta. repeat split; vm_compute; reflexivity. Qed.





Lemma settle_autoTimers cfg p s :
  autoTimers (fst (settle cfg p s)) = autoTimers s.
Proof.
  unfold settle, targetClearedEffect, allStoppedEffect.
  destruct (bool_decide (spinMode cfg = MANUAL));
    destruct (bool_decide (targetNumber p = None));
    destruct (manualSpinStarted s);
    destruct (every (digitStoppedState s)); reflexivity.
Qed.

Lemma step_render_autoTimers cfg p0 s p :
  autoTimers (snd (fst (step cfg (p0, s) (Render p))))
  = autoTimers (fst (autoStopEffect cfg p
      (fst (block [
         when (negb (bool_decide (isManualSpinActive p0 = isManualSpinActive p)))
           (sessionStartEffect cfg p);
         when (negb (bool_decide (isManualSpinActive p0 = isManualSpinActive p))
               || negb (bool_decide (targetNumber p0 = targetNumber p)))
           (manualTimerEffect cfg p);
         when (negb (bool_decide (targetNumber p0 = targetNumber p)))
           (pendingClickEffect cfg p s);
         targetClearedEffect cfg p s;
         when (negb (bool_decide (isSpinning p0 = isSpinning p)))
           (autoSyncEffect cfg p);
         allStoppedEffect cfg s
       ] s)))).
Proof.
  rewrite step_render. cbn [fst snd]. rewrite settle_autoTimers.
  unfold commit. by rewrite !block_cons, !block_nil.
Qed.

Lemma schedule_lookup cfg action i :
  i < digitCount cfg ->
  schedule cfg action !! i
  = Some ((spinDuration cfg * (Z.of_nat i + 1))%Z, action i).
Proof.
  intros Hi. unfold schedule. rewrite list_lookup_fmap.
  by rewrite lookup_seq_lt.
Qed.

Lemma schedule_length cfg action :
  length (schedule cfg action) = digitCount cfg.
Proof. unfold schedule. by rewrite length_fmap, length_seq. Qed.

(** C6: [revealResult] changes nothing and notifies nothing while no
    session is active or no target number is resolved; with an active
    session and a target number, one call marks every digit stopped and
    calls [onFinished] once.  In ALL_AT_ONCE mode with manual stop no
    timeout is left pending, so the completion comes from [revealResult]
    alone; and once [App] has handled the completion, a further call is a
    no-op again. *)
Theorem revealResult_noop_or_completes
    (cfg : Config) (p : Props) (s : State) :
  (isSpinning p = false \/ truthy (targetNumber p) = false ->
   revealResult cfg p s = (s, [])) /\
  (isSpinning p = true -> truthy (targetNumber p) = true ->
   digitStoppedState (fst (revealResult cfg p s)) = fill (digitCount cfg) true /\
   every (digitStoppedState (fst (revealResult cfg p s))) = true /\
   snd (revealResult cfg p s)
   = (if onStopDigit cfg then [OnStopDigit] else []) ++ [OnFinished] /\
   count_occ Emit_eq_dec (snd (revealResult cfg p s)) OnFinished = 1) /\
  (spinMode cfg = ALL_AT_ONCE -> stopMode cfg = AUTO_MANUAL ->
   forall p0 s0,
     autoTimers (snd (fst (step cfg (p0, s0) (Render p)))) = []) /\
  (forall prize now_id now_stamp app,
     revealResult cfg
       (props_of (fst (Draw.handleSpinFinished prize now_id now_stamp app))) s
     = (s, [])).
Proof.
  split; [|split; [|split]].
  - intros [H|H]; unfold revealResult; rewrite H; simpl;
      [done|by rewrite orb_true_r].
  - intros Hs Ht. unfold revealResult. rewrite Hs, Ht. simpl.
    split; [done|]. split; [apply every_fill_true|].
    destruct (onStopDigit cfg); simpl; by split.
  - intros Hmode Hstop p0 s0. rewrite step_render_autoTimers.
    unfold autoStopEffect. rewrite Hmode, Hstop. simpl.
    by destruct (negb (isSpinning p) || negb (truthy (targetNumber p))).
  - intros. reflexivity.
Qed.

Lemma revealResult_noop_or_completes_witness :
  snd (revealResult reveal_config (drawing "123" false)
         (fst (mount reveal_config idle)))
  = [OnStopDigit; OnFinished].
Proof.
  apply (revealResult_noop_or_completes reveal_config (drawing "123" false)
           (fst (mount reveal_config idle))); reflexivity.
Defined.

Lemma run_cons_emits cfg m ev evs :
  snd (run cfg m (ev :: evs))
  = snd (step cfg m ev) ++ snd (run cfg (fst (step cfg m ev)) evs).
Proof.
  change (run cfg m (ev :: evs))
    with (let (m1, e1) := step cfg m ev in
          let (m2, e2) := run cfg m1 evs in (m2, e1 ++ e2)).
  destruct (step cfg m ev) as [m1 e1]. cbn [fst snd].
  by destruct (run cfg m1 evs).
Qed.

Lemma step_fire_emits cfg p s a :
  snd (step cfg (p, s) (Fire a))
  = snd (timeout cfg a s) ++ snd (settle cfg p (fst (timeout cfg a s))).
Proof.
  unfold step. rewrite <- block_two_emits.
  by destruct (block [timeout cfg a; settle cfg p] s).
Qed.

Lemma settle_automatic cfg p s :
  spinMode cfg <> MANUAL -> settle cfg p s = (s, []).
Proof.
  intros Hmode. unfold settle, targetClearedEffect, allStoppedEffect.
  by rewrite (bool_decide_eq_false_2 (spinMode cfg = MANUAL)).
Qed.

Lemma sequential_timers_fire cfg p s k :
  spinMode cfg = SEQUENTIAL ->
  onStopDigit cfg = true ->
  k < digitCount cfg ->
  sequential_timers cfg k s ->
  fst (fst (step cfg (p, s) (Fire (SeqStop k)))) = p /\
  sequential_timers cfg (S k) (snd (fst (step cfg (p, s) (Fire (SeqStop k))))) /\
  snd (step cfg (p, s) (Fire (SeqStop k)))
  = if (S k =? digitCount cfg)%nat
    then [OnStopDigit; OnFinished] else [OnStopDigit].
Proof.
  intros Hmode Hcb Hk [Hm Ha].
  assert (spinMode cfg <> MANUAL) as Hauto by (rewrite Hmode; discriminate).
  pose proof (drop_S _ _ _ (schedule_lookup cfg SeqStop k Hk)) as Hdrop.
  rewrite step_fire, step_fire_emits, settle_automatic by done.
  cbn [fst snd]. rewrite app_nil_r.
  unfold timeout. rewrite Hm, Ha, Hdrop. cbn [is_pending existsb snd].
  rewrite bool_decide_eq_true_2 by done.
  cbn [orb]. unfold fire, block, when, call. rewrite Hcb. cbn [fst snd].
  unfold sequential_timers.
  destruct (Nat.eqb_spec (S k) (digitCount cfg)) as [E|E];
    destruct (Z.eqb_spec (Z.of_nat k) (Z.of_nat (digitCount cfg) - 1));
    try lia; simpl; rewrite Ha, Hdrop; simpl;
    rewrite bool_decide_eq_true_2 by done; done.
Qed.

Lemma sequential_timers_run cfg p n : forall k s,
  spinMode cfg = SEQUENTIAL ->
  onStopDigit cfg = true ->
  k + n = digitCount cfg ->
  sequential_timers cfg k s ->
  snd (run cfg (p, s) ((fun i => Fire (SeqStop i)) <$> seq k n))
  = replicate n OnStopDigit ++ (if (n =? 0)%nat then [] else [OnFinished]).
Proof.
  induction n as [|n IH]; intros k s Hmode Hcb Hkn Hq; [done|].
  cbn [seq fmap list_fmap]. rewrite run_cons_emits.
  destruct (sequential_timers_fire cfg p s k Hmode Hcb ltac:(lia) Hq)
    as (Hp & Hq' & ->).
  destruct (fst (step cfg (p, s) (Fire (SeqStop k)))) as [p1 s1].
  cbn [fst snd] in Hp, Hq'. subst p1.
  rewrite (IH (S k) s1 Hmode Hcb ltac:(lia) Hq').
  destruct (Nat.eqb_spec (S k) (digitCount cfg)) as [E|E];
    destruct n as [|n]; try lia; reflexivity.
Qed.

Lemma mount_manualTimers cfg p :
  spinMode cfg <> MANUAL -> manualTimers (fst (mount cfg p)) = [].
Proof.
  intros Hmode. unfold mount. rewrite !block_cons, block_nil.
  rewrite settle_automatic by done. cbn [fst].
  unfold autoStopEffect, allStoppedEffect, autoSyncEffect, targetClearedEffect,
    pendingClickEffect, manualTimerEffect, sessionStartEffect, resetEffect.
  rewrite (bool_decide_eq_false_2 (spinMode cfg = MANUAL)) by done.
  cbn [negb andb orb initial pendingClickIndex].
  repeat case_match; reflexivity.
Qed.

Lemma commit_manualTimers cfg p p' s :
  spinMode cfg <> MANUAL -> manualTimers s = [] ->
  manualTimers (fst (commit cfg p p' s)) = [].
Proof.
  intros Hmode Hs. unfold commit. rewrite !block_cons, block_nil.
  unfold autoStopEffect, allStoppedEffect, autoSyncEffect, targetClearedEffect,
    pendingClickEffect, manualTimerEffect, sessionStartEffect, when.
  rewrite (bool_decide_eq_false_2 (spinMode cfg = MANUAL)) by done.
  cbn [negb andb orb].
  repeat case_match; simpl; try done.
Qed.

(** A sequential session from its start to its end: the timeouts of the
    digits, fired in the order of their delays, notify one stop each, and the
    completion comes with the last one. *)
Lemma sequential_session_emits (cfg : Config) (p0 p : Props) :
  spinMode cfg = SEQUENTIAL ->
  onStopDigit cfg = true ->
  isSpinning p = true ->
  truthy (targetNumber p) = true ->
  snd (run cfg (fst (step cfg (p0, fst (mount cfg p0)) (Render p)))
         ((fun i => Fire (SeqStop i)) <$> seq 0 (digitCount cfg)))
  = replicate (digitCount cfg) OnStopDigit
    ++ (if (digitCount cfg =? 0)%nat then [] else [OnFinished]).
Proof.
  intros Hmode Hcb Hspin Htarget.
  assert (spinMode cfg <> MANUAL) as Hauto by (rewrite Hmode; discriminate).
  destruct (fst (step cfg (p0, fst (mount cfg p0)) (Render p))) as [p1 s1] eqn:E.
  apply sequential_timers_run; [done|done|lia|].
  pose proof (step_render_autoTimers cfg p0 (fst (mount cfg p0)) p) as Ht.
  pose proof (step_render cfg p0 (fst (mount cfg p0)) p) as Hr.
  rewrite E in Ht, Hr. cbn [fst snd] in Ht. injection Hr as _ Hs1.
  split.
  - rewrite Hs1, settle_automatic by done. cbn [fst].
    apply commit_manualTimers; [done|]. by apply mount_manualTimers.
  - rewrite Ht. unfold autoStopEffect. rewrite Hmode, Hspin, Htarget.
    reflexivity.
Qed.

(** A render of the parent with the props it had leaves the timeouts of
    the MANUAL mode as they are: the effect that arms them depends on no
    callback. *)
Lemma render_same_manualTimers cfg p s :
  manualTimers (snd (fst (step cfg (p, s) (Render p)))) = manualTimers s.
Proof.
  rewrite step_render. cbn [fst snd].
  destruct (settle_timers cfg p (fst (commit cfg p p s))) as [-> _].
  unfold commit. cbv zeta.
  rewrite (bool_decide_eq_true_2
             (isManualSpinActive p = isManualSpinActive p)) by done.
  rewrite (bool_decide_eq_true_2 (targetNumber p = targetNumber p)) by done.
  rewrite (bool_decide_eq_true_2 (isSpinning p = isSpinning p)) by done.
  cbn [negb orb when]. rewrite !block_cons, block_nil. cbn [skip fst].
  unfold autoStopEffect. rewrite !block_cons, block_nil.
  assert (forall u : Update,
            (forall s0, manualTimers (fst (u s0)) = manualTimers s0) ->
            forall s0, manualTimers (fst (u (fst (setAutoTimers (fun _ => [])
                                                    s0))))
                       = manualTimers s0) as Hauto.
  { intros u Hu s0. by rewrite Hu. }
  rewrite Hauto.
  - unfold allStoppedEffect, targetClearedEffect.
    destruct (bool_decide (spinMode cfg = MANUAL));
      destruct (bool_decide (targetNumber p = None));
      destruct (manualSpinStarted s);
      destruct (every (digitStoppedState s)); reflexivity.
  - intros s0.
    destruct (bool_decide (spinMode cfg = MANUAL)); [done|].
    destruct (negb (isSpinning p) || negb (truthy (targetNumber p))); [done|].
    destruct (bool_decide (spinMode cfg = ALL_AT_ONCE)); [|done].
    by destruct (bool_decide (stopMode cfg = AUTO_MANUAL)).
Qed.

(** C5 on the code.  In SEQUENTIAL mode the render that brings an active
    session and a target number arms one timeout for each digit, the one of
    digit [i] at [spinDuration * (i + 1)]; a timeout that fires is cleared,
    marks its digit stopped and notifies the stop, and it calls
    [onFinished] when it is the one of the last digit, and only then.  But
    the effect that arms the timeouts depends on [onFinished], which is a
    new closure at every render of [App]: every render of the parent in the
    course of the session, whatever the state, clears the timeouts and arms
    them all again, each at its full delay from that render (the timeouts
    of the MANUAL mode, whose effect depends on no callback, are kept by
    such a render).  With three digits and a [spinDuration] of 1000: once
    the timeout of digit 0 has fired, a render of the parent with the same
    props arms digit 0 at 1000, digit 1 at 2000 and digit 2 at 3000 again;
    digit 0 is stopped and notified a second time, and the timeouts of
    digits 1 and 2 are counted from that render, not from the start of the
    session: four stops are notified for three digits. *)
Theorem sequential_rearmed_by_render :
  (forall (cfg : Config) (p0 p : Props) (s : State),
     spinMode cfg = SEQUENTIAL ->
     isSpinning p = true ->
     truthy (targetNumber p) = true ->
     autoTimers (snd (fst (step cfg (p0, s) (Render p))))
     = schedule cfg SeqStop /\
     length (schedule cfg SeqStop) = digitCount cfg /\
     (forall i, i < digitCount cfg ->
        schedule cfg SeqStop !! i
        = Some ((spinDuration cfg * (Z.of_nat i + 1))%Z, SeqStop i))) /\
  (forall (cfg : Config) (p : Props) (s : State) (k : nat),
     spinMode cfg = SEQUENTIAL ->
     onStopDigit cfg = true ->
     k < digitCount cfg ->
     sequential_timers cfg k s ->
     sequential_timers cfg (S k)
       (snd (fst (step cfg (p, s) (Fire (SeqStop k))))) /\
     stopped (fst (step cfg (p, s) (Fire (SeqStop k)))) k = true /\
     snd (step cfg (p, s) (Fire (SeqStop k)))
     = if (S k =? digitCount cfg)%nat
       then [OnStopDigit; OnFinished] else [OnStopDigit]) /\
  (forall (cfg : Config) (p : Props) (s : State),
     manualTimers (snd (fst (step cfg (p, s) (Render p)))) = manualTimers s) /\
  autoTimers (snd (exec sequential_config idle
                     [Render (drawing "123" false)]))
  = [(1000%Z, SeqStop 0); (2000%Z, SeqStop 1); (3000%Z, SeqStop 2)] /\
  autoTimers (snd (exec sequential_config idle
                     [Render (drawing "123" false); Fire (SeqStop 0)]))
  = [(2000%Z, SeqStop 1); (3000%Z, SeqStop 2)] /\
  autoTimers (snd (exec sequential_config idle
                     [Render (drawing "123" false); Fire (SeqStop 0);
                      Render (drawing "123" false)]))
  = [(1000%Z, SeqStop 0); (2000%Z, SeqStop 1); (3000%Z, SeqStop 2)] /\
  snd (run sequential_config (idle, fst (mount sequential_config idle))
         [Render (drawing "123" false); Fire (SeqStop 0);
          Render (drawing "123" false); Fire (SeqStop 0);
          Fire (SeqStop 1); Fire (SeqStop 2)])
  = [OnStopDigit; OnStopDigit; OnStopDigit; OnStopDigit; OnFinished].
Proof.
  split; [|split; [|split; [|repeat split; vm_compute; reflexivity]]].
  - intros cfg p0 p s Hmode Hspin Htarget.
    split; [|split; [apply schedule_length|]].
    + rewrite step_render_autoTimers.
      unfold autoStopEffect. rewrite Hmode, Hspin, Htarget. reflexivity.
    + intros i Hi. by apply schedule_lookup.
  - intros cfg p s k Hmode Hcb Hk Hq.
    destruct (sequential_timers_fire cfg p s k Hmode Hcb Hk Hq)
      as (_ & Hq' & He).
    split; [done|]. split; [|done].
    assert (spinMode cfg <> MANUAL) as Hauto by (rewrite Hmode; discriminate).
    destruct Hq as [Hm Ha].
    pose proof (drop_S _ _ _ (schedule_lookup cfg SeqStop k Hk)) as Hdrop.
    unfold stopped. rewrite step_fire, settle_automatic by done.
    cbn [fst snd]. unfold timeout. rewrite Hm, Ha, Hdrop.
    cbn [is_pending existsb snd].
    rewrite bool_decide_eq_true_2 by done. cbn [orb].
    rewrite !block_cons, block_nil. unfold fire.
    rewrite !block_cons, block_nil. unfold when, call.
    destruct (Z.of_nat k =? Z.of_nat (digitCount cfg) - 1)%Z;
      simpl; by rewrite at_index_set_index, Nat.eqb_refl.
  - intros cfg p s. apply render_same_manualTimers.
Qed.

(** A sequential session of three digits, timeout after timeout. *)
Example sequential_session_trace :
  snd (run sequential_config (idle, fst (mount sequential_config idle))
         [Render (drawing "123" false);
          Fire (SeqStop 0); Fire (SeqStop 1); Fire (SeqStop 2)])
  = [OnStopDigit; OnStopDigit; OnStopDigit; OnFinished].
Proof. vm_compute. reflexivity. Qed.

(** A manual reveal: nothing before the session, completion once. *)
Example reveal_session_trace :
  snd (run reveal_config (idle, fst (mount reveal_config idle))
         [Reveal; Render (drawing "123" false); Reveal])
  = [OnStopDigit; OnFinished].
Proof. vm_compute. reflexivity. Qed.

End SlotClaims.

(** ** Properties of the draw controller *)

Module DrawClaims.
Import JS Allocator Types Draw.

Lemma filler_zeros (k : nat) :
  forall cur, cur = "0" \/ cur = "" -> filler k "0" cur = zeros k.
Proof.
  induction k as [|k IH]; intros cur Hcur; [done|].
  destruct Hcur as [-> | ->]; simpl; f_equal; apply IH; auto.
Qed.

Lemma padStart_zero_padded (s : string) (width : nat) :
  padStart s width "0" = zero_padded width s.
Proof.
  unfold padStart, zero_padded.
  destruct (Nat.leb_spec width (String.length s)) as [Hle|Hlt].
  - by replace (width - String.length s) with 0 by lia.
  - f_equal. apply filler_zeros. by left.
Qed.

Lemma length_zeros (k : nat) : String.length (zeros k) = k.
Proof. induction k as [|k IH]; simpl; by rewrite ?IH. Qed.

Lemma length_append (s1 s2 : string) :
  String.length (s1 +:+ s2) = String.length s1 + String.length s2.
Proof. induction s1 as [|c s1 IH]; simpl; by rewrite ?IH. Qed.

Lemma length_zero_padded (s : string) (width : nat) :
  width <= String.length (zero_padded width s).
Proof.
  unfold zero_padded. rewrite length_append, length_zeros. lia.
Qed.

Lemma pretty_N_go_length (x : N) :
  forall s, String.length s <= String.length (pretty_N_go x s).
Proof.
  induction (N.lt_wf_0 x) as [x _ IH]. intros s.
  destruct (decide (x = 0)%N) as [->|Hx].
  - by rewrite pretty_N_go_0.
  - rewrite pretty_N_go_step by lia.
    etrans; [|apply IH; apply N.div_lt; lia]. simpl. lia.
Qed.

Lemma pretty_positive_nonempty (x : positive) : pretty x <> "".
Proof.
  unfold pretty, pretty_positive, pretty, pretty_N.
  destruct (decide (N.pos x = 0)%N) as [E|_]; [done|].
  rewrite pretty_N_go_step by lia. intros E.
  pose proof (pretty_N_go_length (N.pos x `div` 10)
                (String (pretty_N_char (N.pos x `mod` 10)) "")) as Hlen.
  rewrite E in Hlen. simpl in Hlen. lia.
Qed.

Lemma toString_truthy (n : num) : truthy (Some (toString n)) = true.
Proof.
  destruct n as [[|x|x]|]; try reflexivity; simpl.
  pose proof (pretty_positive_nonempty x) as H.
  unfold pretty at 1, pretty_Z. by destruct (pretty x).
Qed.


(** C9: when the session completes with the target number holding the
    decimal string of the allocated value, [handleSpinFinished] puts one
    record in front of the winners (of the state and of the ref), whose
    number is that string padded at the start with ["0"] up to the
    [digitCount] of the prize: zeros in front, the string unchanged when it
    is already as long. *)
Theorem handleSpinFinished_commits_padded_number
    (prize : Prize) (now_id now_stamp : Z) (a : App) (v : num) :
  targetNumber a = Some (toString v) ->
  exists record,
    winners (fst (handleSpinFinished prize now_id now_stamp a))
      = record :: winners a /\
    winnersRef (fst (handleSpinFinished prize now_id now_stamp a))
      = record :: winnersRef a /\
    number record = padStart (toString v) (digitCount prize) "0" /\
    number record = zero_padded (digitCount prize) (toString v) /\
    digitCount prize <= String.length (number record) /\
    prizeId record = prize_id prize /\
    prizeName record = name prize.
Proof.
  intros Ht. exists (newWinner prize (toString v) now_id now_stamp).
  unfold handleSpinFinished. rewrite Ht, toString_truthy. simpl.
  repeat split.
  - apply padStart_zero_padded.
  - rewrite padStart_zero_padded. apply length_zero_padded.
Qed.

Lemma handleSpinFinished_commits_padded_number_witness :
  exists record,
    winners (fst (handleSpinFinished consolation 1700 1701
                    (spinning_app (Some "7"))))
      = record :: [] /\
    winnersRef (fst (handleSpinFinished consolation 1700 1701
                       (spinning_app (Some "7"))))
      = record :: [] /\
    number record = "007" /\
    number record = zero_padded 3 "7" /\
    3 <= String.length (number record) /\
    prizeId record = "kk-1" /\
    prizeName record = "consolation".
Proof.
  apply (handleSpinFinished_commits_padded_number consolation 1700 1701
           (spinning_app (Some "7")) (Int 7)).
  reflexivity.
Defined.

(** C10: when [handleSpinFinished] runs with no target number, the winners
    (of the state and of the ref) are left as they are; the session flags
    are reset and the side effects of the completion still take place: the
    win sound is played and the confetti shown, to be hidden after 5 s. *)
Theorem handleSpinFinished_without_target
    (prize : Prize) (now_id now_stamp : Z) (a : App) :
  targetNumber a = None ->
  winners (fst (handleSpinFinished prize now_id now_stamp a)) = winners a /\
  winnersRef (fst (handleSpinFinished prize now_id now_stamp a))
    = winnersRef a /\
  isSpinning (fst (handleSpinFinished prize now_id now_stamp a)) = false /\
  isManualSpinActive (fst (handleSpinFinished prize now_id now_stamp a))
    = false /\
  showConfetti (fst (handleSpinFinished prize now_id now_stamp a)) = true /\
  targetNumber (fst (handleSpinFinished prize now_id now_stamp a)) = None /\
  PlayWin ∈ snd (handleSpinFinished prize now_id now_stamp a) /\
  HideConfettiAfter 5000 ∈ snd (handleSpinFinished prize now_id now_stamp a).
Proof.
  intros Ht. unfold handleSpinFinished. rewrite Ht. simpl.
  repeat split; rewrite elem_of_app, !elem_of_cons; tauto.
Qed.

Lemma handleSpinFinished_without_target_witness :
  winners (fst (handleSpinFinished consolation 1700 1701 (spinning_app None)))
  = [] /\
  snd (handleSpinFinished consolation 1700 1701 (spinning_app None))
  = [PauseSpinAudio; PlayWin; HideConfettiAfter 5000].
Proof.
  split.
  - apply (handleSpinFinished_without_target consolation 1700 1701
             (spinning_app None) eq_refl).
  - reflexivity.
Defined.

(** The spec's end to end example: in the range [[0, 1]] with ["0"] drawn,
    the next allocation gives ["1"] (here at the second draw), and once
    ["1"] is recorded too a further allocation gives [null] at once. *)
Example two_number_pool :
  generateRandomNumber (AllocatorSpec.late_world 1) 100
    (local_settings 0 1 true) [winner_of "0"] start
  = (Val (Returned (Some "1")), {| local_draws := 2; remote_requests := 0 |})
  /\ generateRandomNumber (AllocatorSpec.late_world 1) 100
       (local_settings 0 1 true) [winner_of "1"; winner_of "0"] start
     = (Val (Returned None), start).
Proof. split; vm_compute; reflexivity. Qed.

(** [handleStartSpin] hands the allocated string over as the target number
    of the session. *)
Lemma handleStartSpin_sets_target
    (w : World) (fuel : nat) (settings : GlobalSettings) (prize : Prize)
    (a : App) (m m' : Meter) (n : string) :
  isSpinning a || isManualSpinning a || isManualSpinActive a = false ->
  isPrizeComplete a prize = false ->
  generateRandomNumber w fuel settings (winnersRef a) m
  = (Val (Returned (Some n)), m') ->
  truthy (Some n) = true ->
  exists a' effects,
    handleStartSpin w fuel settings prize a m = (Val (Some (a', effects)), m')
    /\ targetNumber a' = Some n /\ isSpinning a' = true
    /\ winners a' = winners a.
Proof.
  intros Hidle Hroom Hgen Hn. unfold handleStartSpin, try_catch, bind.
  rewrite Hidle, Hroom, Hgen, Hn. simpl. unfold ret.
  do 2 eexists. split; [reflexivity|]. by repeat split.
Qed.

End DrawClaims.

(** ** Further properties of the allocator *)

Module AllocatorExtras.
Import JS Allocator AllocatorSpec AllocatorFacts.

Lemma trimStart_blank (s : list N) :
  trimStart s = [] <-> forallb is_white_unit s = true.
Proof.
  induction s as [|u s IH]; simpl; [done|].
  destruct (is_white_unit u); simpl; [exact IH|].
  split; discriminate.
Qed.

Lemma trimStart_head (s : list N) (u : N) (s' : list N) :
  trimStart s = u :: s' -> is_white_unit u = false.
Proof.
  induction s as [|v s IH]; simpl; [discriminate|].
  destruct (is_white_unit v) eqn:Hv; [exact IH|].
  by intros [= <- _].
Qed.

(** A key is blank once trimmed exactly when each of its code units is
    white space. *)
Lemma trim_blank (s : list N) :
  trim s = [] <-> forallb is_white_unit s = true.
Proof.
  unfold trim, trimEnd. split.
  - intros H. apply trimStart_blank.
    apply (f_equal (@rev N)) in H. rewrite rev_involutive in H.
    simpl in H. apply trimStart_blank in H.
    destruct (trimStart s) as [|u s'] eqn:E; [done|].
    rewrite forallb_forall in H.
    assert (is_white_unit u = true) as Hu.
    { apply H. apply -> in_rev. by left. }
    apply trimStart_head in E. congruence.
  - intros H. apply trimStart_blank in H. by rewrite H.
Qed.

(** X1: with the local source selected, or with no API key, or with a key
    that is blank once trimmed ([String.prototype.trim] strips the white
    space and line terminators of ECMAScript, U+00A0, U+FEFF and U+2028
    among them), [getRandomNumber] sends no request: it makes one local
    draw and returns [(u % range) + min]. *)
Theorem getRandomNumber_without_key
    (w : World) (settings : GlobalSettings) (min max : Z)
    (taken : gset num) (m : Meter) :
  randomSource settings = LOCAL \/
  randomOrgApiKey settings = None \/
  (exists key, randomOrgApiKey settings = Some key /\
               forallb is_white_unit key = true) ->
  getRandomNumber w settings min max taken m
  = (Val (Number (local_value w min max m)), after_local m)
  /\ remote_requests (snd (getRandomNumber w settings min max taken m))
     = remote_requests m.
Proof.
  intros Hcfg.
  assert (useRandomOrg settings = false) as Huse.
  { unfold useRandomOrg.
    destruct Hcfg as [-> | [Hk | (key & Hk & Hblank)]]; [done| |];
      destruct (randomSource settings); try done; rewrite Hk; simpl;
      [done|]. apply trim_blank in Hblank. by rewrite Hblank. }
  unfold getRandomNumber. rewrite Huse. simpl. by split.
Qed.

Lemma getRandomNumber_without_key_witness :
  getRandomNumber silent_world
    {| minNumber := 0; maxNumber := 9; excludePreviousWinners := true;
       randomSource := RANDOM_ORG;
       randomOrgApiKey := Some [32; 160; 65279; 8232; 9]%N |}
    0 9 ∅ start
  = (Val (Number (Int 7)), {| local_draws := 1; remote_requests := 0 |}).
Proof.
  apply (getRandomNumber_without_key silent_world
           {| minNumber := 0; maxNumber := 9; excludePreviousWinners := true;
              randomSource := RANDOM_ORG;
              randomOrgApiKey := Some [32; 160; 65279; 8232; 9]%N |}
           0 9 ∅ start).
  right. right. exists [32; 160; 65279; 8232; 9]%N. split; reflexivity.
Defined.

(** With any other key the request is sent. *)
Lemma useRandomOrg_with_key (settings : GlobalSettings) (key : list N) :
  randomSource settings = RANDOM_ORG ->
  randomOrgApiKey settings = Some key ->
  forallb is_white_unit key = false ->
  useRandomOrg settings = true.
Proof.
  intros Hsrc Hkey Hblank. unfold useRandomOrg. rewrite Hsrc, Hkey. simpl.
  destruct (trim key) as [|u s'] eqn:E; [|done].
  apply trim_blank in E. congruence.
Qed.

(** X2: when the service answers in time with an array, the first element
    that is not a taken number is returned, in the order of the array, as it
    is and whatever it is (a number, [null], another value), and no local
    draw is made; the elements before it are all taken numbers. *)
Theorem getRandomNumber_first_free_candidate
    (w : World) (settings : GlobalSettings) (min max : Z)
    (taken : gset num) (m : Meter)
    (latency : Z) (before after : list value) (c : value) :
  useRandomOrg settings = true ->
  remote w (remote_requests m)
  = Response latency (Json (JObject false (Some (before ++ c :: after)))) ->
  (latency < timeout_ms)%Z ->
  Forall (fun b => exists n, b = Number n /\ n ∈ taken) before ->
  (forall n, c = Number n -> n ∉ taken) ->
  getRandomNumber w settings min max taken m = (Val c, after_request m).
Proof.
  intros Huse Hr Hlat Hbefore Hc.
  apply (AllocatorClaims.getRandomNumber_first_free w settings min max taken m
           latency before after c Huse Hr Hlat).
  - eapply Forall_impl; [exact Hbefore|].
    intros b (n & -> & Hn). simpl. by apply bool_decide_eq_true_2.
  - destruct c as [n| |text]; simpl; [|done|done].
    apply bool_decide_eq_false_2. by apply Hc.
Qed.

Lemma getRandomNumber_first_free_candidate_witness :
  getRandomNumber
    (answering [Number (Int 4); Number (Int 8); Number (Int 15)])
    (remote_settings 0 20 false) 0 20 {[ Int 4 ]} start
  = (Val (Number (Int 8)), {| local_draws := 0; remote_requests := 1 |}).
Proof.
  apply (getRandomNumber_first_free_candidate _ (remote_settings 0 20 false)
           0 20 {[ Int 4 ]} start 120 [Number (Int 4)] [Number (Int 15)]
           (Number (Int 8))).
  - reflexivity.
  - reflexivity.
  - reflexivity.
  - constructor; [|constructor]. exists (Int 4).
    split; [done|]. by apply elem_of_singleton.
  - intros n [= <-] H. apply elem_of_singleton in H. discriminate H.
Defined.

Lemma origin_meter (w : World) (settings : GlobalSettings) (taken : gset num)
    (m : Meter) (v : value) (m' : Meter) :
  origin w settings taken m v m' ->
  local_draws m <= local_draws m' <= S (local_draws m) /\
  remote_requests m <= remote_requests m' <= S (remote_requests m) /\
  (useRandomOrg settings = false -> remote_requests m' = remote_requests m).
Proof.
  intros [Huse|Huse _|latency error numbers n Huse _ _ _]; simpl;
    rewrite Huse; repeat split; try lia; discriminate.
Qed.

Lemma do_while_meter (w : World) (settings : GlobalSettings)
    (taken : gset num) (fuel : nat) :
  forall attempts m,
    (0 <= attempts)%Z ->
    let m' := snd (do_while w fuel settings taken attempts m) in
    let budget := S (Z.to_nat (maxAttempts settings - attempts)) in
    local_draws m <= local_draws m' <= local_draws m + budget /\
    remote_requests m <= remote_requests m'
      <= remote_requests m + budget /\
    (useRandomOrg settings = false -> remote_requests m' = remote_requests m).
Proof.
  induction fuel as [|fuel IH]; intros attempts m Hpos; simpl.
  { repeat split; lia. }
  unfold bind. rewrite getRandomNumber_draw.
  pose proof (origin_meter _ _ _ _ _ _ (draw_origin w settings taken m))
    as (Hl & Hr & Hu).
  destruct (draw w settings taken m) as [v m1]. simpl in *.
  destruct (Z.gtb_spec (attempts + 1) (maxAttempts settings)) as [Hgt|Hle].
  { simpl. repeat split; try lia. exact Hu. }
  destruct (negb (excludePreviousWinners settings) || negb (has taken v)).
  { destruct v as [n| |text]; simpl; repeat split; try lia; exact Hu. }
  specialize (IH (attempts + 1)%Z m1 ltac:(lia)). simpl in IH.
  destruct IH as (IHl & IHr & IHu).
  replace (S (Z.to_nat (maxAttempts settings - attempts)))
    with (S (S (Z.to_nat (maxAttempts settings - (attempts + 1)))))
    by lia.
  repeat split; try lia.
  intros Huse. rewrite (IHu Huse). by apply Hu.
Qed.

(** X3: whatever the bound on its iterations, a run of
    [generateRandomNumber] makes at most [maxAttempts + 1] calls of
    [getRandomNumber] (one when [maxAttempts] is negative): it makes at most
    that many local draws and sends at most that many requests, the
    counters never decrease, and no request at all is sent when the remote
    source is not in use. *)
Theorem generateRandomNumber_call_budget
    (w : World) (fuel : nat) (settings : GlobalSettings)
    (winners : list Winner) (m : Meter) :
  local_draws m
    <= local_draws (snd (generateRandomNumber w fuel settings winners m))
    <= local_draws m + S (Z.to_nat (maxAttempts settings)) /\
  remote_requests m
    <= remote_requests (snd (generateRandomNumber w fuel settings winners m))
    <= remote_requests m + S (Z.to_nat (maxAttempts settings)) /\
  (useRandomOrg settings = false ->
   remote_requests (snd (generateRandomNumber w fuel settings winners m))
   = remote_requests m).
Proof.
  unfold generateRandomNumber.
  destruct ((maxNumber settings - minNumber settings + 1
             <=? Z.of_nat (size (takenNumbers winners)))%Z
            && excludePreviousWinners settings).
  { simpl. repeat split; lia. }
  pose proof (do_while_meter w settings (takenNumbers winners) fuel 0 m
                ltac:(lia)) as H.
  simpl in H. by rewrite Z.sub_0_r in H.
Qed.

Lemma scan_succ (w : World) (settings : GlobalSettings) (taken : gset num)
    (n : nat) (m : Meter) :
  scan w settings taken (S n) m
  = if accepted settings taken (nth_draw w settings taken 0 m)
    then (Some (nth_draw w settings taken 0 m),
          nth_meter w settings taken 1 m)
    else scan w settings taken n (nth_meter w settings taken 1 m).
Proof.
  unfold nth_draw, nth_meter. simpl.
  by destruct (draw w settings taken m) as [v m1].
Qed.

Lemma nth_meter_succ (w : World) (settings : GlobalSettings)
    (taken : gset num) (j : nat) (m : Meter) :
  nth_meter w settings taken (S j) m
  = nth_meter w settings taken j (nth_meter w settings taken 1 m).
Proof. unfold nth_meter. by rewrite Nat.iter_succ_r. Qed.

Lemma nth_draw_succ (w : World) (settings : GlobalSettings)
    (taken : gset num) (j : nat) (m : Meter) :
  nth_draw w settings taken (S j) m
  = nth_draw w settings taken j (nth_meter w settings taken 1 m).
Proof. unfold nth_draw. by rewrite nth_meter_succ. Qed.

Lemma scan_first (w : World) (settings : GlobalSettings) (taken : gset num)
    (k : nat) :
  forall n m,
    k < n ->
    (forall j, j < k ->
       accepted settings taken (nth_draw w settings taken j m) = false) ->
    accepted settings taken (nth_draw w settings taken k m) = true ->
    scan w settings taken n m
    = (Some (nth_draw w settings taken k m),
       nth_meter w settings taken (S k) m).
Proof.
  induction k as [|k IH]; intros n m Hk Hrej Hacc;
    (destruct n as [|n]; [lia|]); rewrite scan_succ.
  - by rewrite Hacc.
  - rewrite (Hrej 0) by lia.
    rewrite nth_draw_succ, (nth_meter_succ _ _ _ (S k)).
    apply IH; [lia| |by rewrite <- nth_draw_succ].
    intros j Hj. rewrite <- nth_draw_succ. apply Hrej. lia.
Qed.

(** X4: once the pool is not full, [generateRandomNumber] returns the first
    draw that is acceptable (exclusion off, or the value not taken), as a
    string, provided that draw is among the first [maxAttempts] ones; the
    draws before it are dropped and no draw is made after it.  The string
    is the decimal string of a number and the text of any other value; for
    [null], an element of a malformed answer of the service, the call
    throws a [TypeError] instead. *)
Theorem generateRandomNumber_first_accepted
    (w : World) (settings : GlobalSettings) (winners : list Winner)
    (m : Meter) (fuel k : nat) :
  ((maxNumber settings - minNumber settings + 1
    <=? Z.of_nat (size (takenNumbers winners)))%Z
   && excludePreviousWinners settings) = false ->
  Z.to_nat (maxAttempts settings) < fuel ->
  k < Z.to_nat (maxAttempts settings) ->
  (forall j, j < k ->
     accepted settings (takenNumbers winners)
       (nth_draw w settings (takenNumbers winners) j m) = false) ->
  accepted settings (takenNumbers winners)
    (nth_draw w settings (takenNumbers winners) k m) = true ->
  generateRandomNumber w fuel settings winners m
  = (match nth_draw w settings (takenNumbers winners) k m with
     | Number n => Val (Returned (Some (toString n)))
     | Null => Raise TypeError
     | Other text => Val (Returned (Some text))
     end,
     nth_meter w settings (takenNumbers winners) (S k) m).
Proof.
  intros Hfull Hfuel Hk Hrej Hacc.
  rewrite AllocatorClaims.generateRandomNumber_scan by done.
  rewrite (scan_first w settings _ k _ m Hk Hrej Hacc). cbn [fst snd].
  by destruct (nth_draw w settings (takenNumbers winners) k m).
Qed.

Lemma generateRandomNumber_first_accepted_witness :
  generateRandomNumber (late_world 3) 100 (local_settings 0 1 true)
    [winner_of "0"] start
  = (Val (Returned (Some "1")), {| local_draws := 4; remote_requests := 0 |}).
Proof.
  apply (generateRandomNumber_first_accepted (late_world 3)
           (local_settings 0 1 true) [winner_of "0"] start 100 3).
  - vm_compute. reflexivity.
  - vm_compute. lia.
  - vm_compute. lia.
  - intros [|[|[|j]]] Hj; try (vm_compute; reflexivity). lia.
  - vm_compute. reflexivity.
Defined.

End AllocatorExtras.

(** ** Numbers as strings: padding and reading back *)

Module NumberExtras.
Import JS Allocator Types Draw DrawClaims NumberSpec.

Lemma digit_value_pretty_N_char (d : N) :
  (d < 10)%N -> digit_value (pretty_N_char d) = Some (Z.of_N d).
Proof.
  intros Hd.
  assert (d = 0 \/ d = 1 \/ d = 2 \/ d = 3 \/ d = 4 \/ d = 5 \/ d = 6
          \/ d = 7 \/ d = 8 \/ d = 9)%N as H by lia.
  repeat (destruct H as [-> | H]; [reflexivity|]). by rewrite H.
Qed.

Lemma parse_digits_pretty_N_go (x : N) :
  forall acc s,
    (0 < x)%N -> value_of acc = 0%Z ->
    parse_digits acc (pretty_N_go x s) = parse_digits (Some (Z.of_N x)) s.
Proof.
  induction (N.lt_wf_0 x) as [x _ IH]. intros acc s Hx Hacc.
  rewrite pretty_N_go_step by done.
  pose proof (N.mod_lt x 10 ltac:(lia)) as Hmod.
  pose proof (N.div_mod x 10 ltac:(lia)) as Hdiv.
  destruct (decide (x `div` 10 = 0)%N) as [E|Hne].
  - rewrite E, pretty_N_go_0. simpl.
    rewrite digit_value_pretty_N_char by done.
    fold (value_of acc). rewrite Hacc. do 2 f_equal. lia.
  - rewrite (IH (x `div` 10)%N) by (try apply N.div_lt; lia || done).
    simpl. rewrite digit_value_pretty_N_char by done.
    do 2 f_equal. lia.
Qed.

Lemma parse_digits_zeros (k : nat) :
  forall acc s,
    value_of acc = 0%Z ->
    parse_digits acc (zeros k +:+ s)
    = parse_digits (if k is O then acc else Some 0%Z) s.
Proof.
  induction k as [|k IH]; intros acc s Hacc; [done|].
  simpl. fold (value_of acc). rewrite Hacc. simpl.
  rewrite IH by done. by destruct k.
Qed.

Lemma pretty_N_go_digit_led (x : N) :
  forall s, (0 < x)%N \/ digit_led s -> digit_led (pretty_N_go x s).
Proof.
  induction (N.lt_wf_0 x) as [x _ IH]. intros s Hs.
  destruct (decide (x = 0)%N) as [->|Hx].
  - rewrite pretty_N_go_0. destruct Hs as [Hs|Hs]; [lia|done].
  - rewrite pretty_N_go_step by lia.
    apply IH; [apply N.div_lt; lia|]. right. simpl.
    rewrite digit_value_pretty_N_char by (apply N.mod_lt; lia). by eexists.
Qed.

Lemma digit_led_parseInt (s : string) :
  digit_led s -> parseInt s = num_of_option (parse_digits None s).
Proof.
  destruct s as [|c s]; [done|]. intros [d Hd]. unfold parseInt.
  assert (is_white c = false) as Hw.
  { unfold digit_value in Hd. unfold is_white.
    destruct (Ascii.N_of_ascii c) as [|p]; [done|].
    repeat (destruct p as [p|p|]; try done). }
  simpl. rewrite Hw.
  destruct (decide (c = "-"%char)) as [->|Hm]; [done|].
  destruct (decide (c = "+"%char)) as [->|Hp]; [done|].
  destruct c as [[] [] [] [] [] [] [] []]; done.
Qed.

Lemma digit_led_zeros (k : nat) (s : string) :
  digit_led s -> digit_led (zeros k +:+ s).
Proof. destruct k; [done|]. intros _. simpl. by eexists. Qed.

Lemma pretty_nonneg_digit_led (v : Z) : (0 <= v)%Z -> digit_led (pretty v).
Proof.
  destruct v as [|x|x]; [by eexists| |lia]. intros _.
  unfold pretty, pretty_Z, pretty, pretty_positive, pretty, pretty_N.
  destruct (decide (N.pos x = 0)%N) as [E|_]; [done|].
  apply pretty_N_go_digit_led. left. lia.
Qed.

Lemma parse_digits_pretty (v : Z) (acc : option Z) :
  (0 <= v)%Z -> value_of acc = 0%Z -> parse_digits acc (pretty v) = Some v.
Proof.
  intros Hv Hacc. destruct v as [|x|x]; [| |lia].
  - simpl. fold (value_of acc). by rewrite Hacc.
  - unfold pretty, pretty_Z, pretty, pretty_positive, pretty, pretty_N.
    destruct (decide (N.pos x = 0)%N) as [E|_]; [done|].
    by rewrite parse_digits_pretty_N_go.
Qed.

Lemma parseInt_zero_padded (v : Z) (width : nat) :
  (0 <= v)%Z -> parseInt (zero_padded width (pretty v)) = Int v.
Proof.
  intros Hv. unfold zero_padded.
  rewrite digit_led_parseInt
    by (apply digit_led_zeros; by apply pretty_nonneg_digit_led).
  rewrite parse_digits_zeros by done.
  rewrite parse_digits_pretty; [done|done|].
  by destruct (width - String.length (pretty v)).
Qed.

(** X5: a value that is not negative survives the way it is stored: its
    decimal string, padded at the start with zeros to any width, is read
    back by [parseInt] as the same value. *)
Theorem parseInt_padStart_toString (v : Z) (width : nat) :
  (0 <= v)%Z ->
  parseInt (padStart (toString (Int v)) width "0") = Int v.
Proof.
  intros Hv. rewrite padStart_zero_padded. by apply parseInt_zero_padded.
Qed.

Lemma parseInt_padStart_toString_witness :
  parseInt (padStart (toString (Int 42)) 5 "0") = Int 42.
Proof. apply (parseInt_padStart_toString 42 5). lia. Defined.

(** X6: a negative value does not: once zeros are put in front of its
    minus sign, [parseInt] stops at the sign and reads [0]. *)
Theorem parseInt_padStart_negative (v : Z) (width : nat) :
  (v < 0)%Z ->
  String.length (toString (Int v)) < width ->
  parseInt (padStart (toString (Int v)) width "0") = Int 0.
Proof.
  intros Hv Hlen. rewrite padStart_zero_padded. unfold zero_padded.
  destruct (width - String.length (toString (Int v))) as [|k] eqn:Hk; [lia|].
  rewrite digit_led_parseInt by (simpl; by eexists).
  rewrite parse_digits_zeros by done.
  destruct v as [|x|x]; [lia|lia|]. reflexivity.
Qed.

Lemma parseInt_padStart_negative_witness :
  parseInt (padStart (toString (Int (-5))) 3 "0") = Int 0.
Proof.
  apply (parseInt_padStart_negative (-5) 3); [lia|].
  vm_compute. lia.
Defined.

End NumberExtras.

(** ** Further properties of the draw controller *)

Module DrawExtras.
Import JS Allocator AllocatorSpec AllocatorFacts Types Draw DrawClaims.
Import NumberSpec NumberExtras Browse.



Lemma do_while_accepts (w : World) (settings : GlobalSettings)
    (taken : gset num) (fuel : nat) :
  forall attempts m r m',
    do_while w fuel settings taken attempts m = (Val (Returned (Some r)), m') ->
    exists m0,
      string_of (fst (draw w settings taken m0)) = Some r /\
      accepted settings taken (fst (draw w settings taken m0)) = true /\
      origin w settings taken m0 (fst (draw w settings taken m0))
        (snd (draw w settings taken m0)).
Proof.
  induction fuel as [|fuel IH]; intros attempts m r m'; simpl; [done|].
  unfold bind at 1. rewrite getRandomNumber_draw.
  pose proof (draw_origin w settings taken m) as Ho.
  destruct (draw w settings taken m) as [v m1] eqn:Hd. simpl in *.
  destruct (attempts + 1 >? maxAttempts settings)%Z; [done|].
  destruct (negb (excludePreviousWinners settings) || negb (has taken v))
    eqn:Hacc.
  - intros H. exists m. rewrite Hd. simpl. split; [|by split].
    destruct v as [n| |text]; cbv [bind result_toString ret throw] in H;
      [by injection H as <- _|discriminate H|by injection H as <- _].
  - apply IH.
Qed.

Lemma generateRandomNumber_accepts (w : World) (fuel : nat)
    (settings : GlobalSettings) (winners : list Winner) (m m' : Meter)
    (r : string) :
  generateRandomNumber w fuel settings winners m
  = (Val (Returned (Some r)), m') ->
  exists m0 v,
    string_of v = Some r /\
    accepted settings (takenNumbers winners) v = true /\
    origin w settings (takenNumbers winners) m0 v
      (snd (draw w settings (takenNumbers winners) m0)).
Proof.
  unfold generateRandomNumber.
  destruct ((maxNumber settings - minNumber settings + 1
             <=? Z.of_nat (size (takenNumbers winners)))%Z
            && excludePreviousWinners settings); [done|].
  intros H. apply do_while_accepts in H as (m0 & Hr & Hacc & Ho).
  by exists m0, (fst (draw w settings (takenNumbers winners) m0)).
Qed.




(** A string of the service that reads as a taken number is drawn again:
    with ["007"] recorded, the answer [["7"]] gives the target ["7"]. *)
Example string_candidate_drawn_again :
  Int 7 ∈ takenNumbers [winner_of "007"] /\
  generateRandomNumber (answering [Other "7"]) 100 (remote_settings 0 9 true)
    [winner_of "007"] start
  = (Val (Returned (Some "7")), {| local_draws := 0; remote_requests := 1 |}).
Proof.
  split; [|vm_compute; reflexivity].
  apply elem_of_list_to_set, elem_of_cons. by left.
Qed.

(** X8: [handleStartSpin] settles whenever its allocation is allowed more
    than [maxAttempts] iterations (it returns, or its promise is rejected
    when [generateRandomNumber] throws), and it always resumes the audio
    first.
    It never touches the winners or the selected prize.  While a session
    is on (any of the three flags) it changes nothing and draws nothing;
    when the prize is complete it draws nothing and starts nothing; and
    it leaves [isSpinning] set only over a target number that is not
    empty. *)
Theorem handleStartSpin_guards
    (w : World) (fuel : nat) (settings : GlobalSettings) (prize : Prize)
    (a : App) (m : Meter) :
  Z.to_nat (maxAttempts settings) < fuel ->
  exists a' effects m',
    handleStartSpin w fuel settings prize a m = (Val (Some (a', effects)), m')
    /\ head effects = Some Resume
    /\ winners a' = winners a
    /\ winnersRef a' = winnersRef a
    /\ currentPrizeId a' = currentPrizeId a
    /\ (isSpinning a || isManualSpinning a || isManualSpinActive a = true ->
        a' = a /\ m' = m /\ effects = [Resume])
    /\ (isPrizeComplete a prize = true ->
        m' = m /\ targetNumber a' = targetNumber a /\
        isSpinning a' = isSpinning a /\ effects = [Resume])
    /\ (isSpinning a' = true ->
        isSpinning a = true \/ truthy (targetNumber a') = true).
Proof.
  intros Hfuel. unfold handleStartSpin.
  destruct (isSpinning a || isManualSpinning a || isManualSpinActive a)
    eqn:Hbusy.
  { do 3 eexists. split; [reflexivity|]. simpl. repeat split; auto. }
  destruct (isPrizeComplete a prize) eqn:Hroom.
  { do 3 eexists. split; [reflexivity|]. simpl.
    repeat split; auto; done. }
  unfold try_catch, bind.
  destruct (generateRandomNumber w fuel settings (winnersRef a) m)
    as [[[|[r|]]|e] m1] eqn:Hgen.
  - exfalso. revert Hgen. unfold generateRandomNumber.
    destruct (_ && _); [done|].
    rewrite (do_while_scan w settings _ (Z.to_nat (maxAttempts settings)))
      by (lia || done). apply finish_not_cut.
  - destruct (negb (truthy (Some r))) eqn:Htruthy.
    + do 3 eexists. split; [reflexivity|]. simpl.
      repeat split; auto; try done.
    + do 3 eexists. split; [reflexivity|]. simpl.
      repeat split; try done.
      * by destruct (bool_decide (spinMode prize = MANUAL)).
      * intros _. right. by apply negb_false_iff in Htruthy.
  - do 3 eexists. split; [reflexivity|]. simpl.
    repeat split; auto; try done.
  - do 3 eexists. split; [reflexivity|]. simpl.
    repeat split; auto; try done.
Qed.

Lemma handleStartSpin_guards_witness :
  exists a' effects m',
    handleStartSpin (constant_world 13) 100 (local_settings 0 9 true)
      consolation (viewing "kk-1" []) start
    = (Val (Some (a', effects)), m')
    /\ head effects = Some Resume
    /\ winners a' = []
    /\ winnersRef a' = []
    /\ currentPrizeId a' = "kk-1"
    /\ (false || false || false = true ->
        a' = viewing "kk-1" [] /\ m' = start /\ effects = [Resume])
    /\ (isPrizeComplete (viewing "kk-1" []) consolation = true ->
        m' = start /\ targetNumber a' = None /\
        isSpinning a' = false /\ effects = [Resume])
    /\ (isSpinning a' = true ->
        false = true \/ truthy (targetNumber a') = true).
Proof.
  apply (handleStartSpin_guards (constant_world 13) 100
           (local_settings 0 9 true) consolation (viewing "kk-1" []) start).
  vm_compute. lia.
Defined.

(** What a call of [handleStartSpin] that starts a session has gone
    through. *)
Lemma handleStartSpin_started
    (w : World) (fuel : nat) (settings : GlobalSettings) (prize : Prize)
    (a a' : App) (effects : list Effect) (m m' : Meter) :
  handleStartSpin w fuel settings prize a m = (Val (Some (a', effects)), m') ->
  isSpinning a = false ->
  isSpinning a' = true ->
  isSpinning a || isManualSpinning a || isManualSpinActive a = false /\
  isPrizeComplete a prize = false /\
  exists r,
    generateRandomNumber w fuel settings (winnersRef a) m
    = (Val (Returned (Some r)), m') /\
    truthy (Some r) = true /\
    targetNumber a' = Some r /\
    winners a' = winners a /\
    winnersRef a' = winnersRef a /\
    currentPrizeId a' = currentPrizeId a /\
    isManualSpinning a' = isManualSpinning a /\
    isManualSpinActive a' = bool_decide (spinMode prize = MANUAL) /\
    errorMsg a' = None /\
    showConfetti a' = false /\
    effects = (if bool_decide (spinMode prize = MANUAL)
               then [Resume] else [Resume; PlaySpinSound]).
Proof.
  unfold handleStartSpin, try_catch, bind, ret. intros H Hidle Hon.
  destruct (isSpinning a || isManualSpinning a || isManualSpinActive a)
    eqn:Hbusy.
  { simpl in H. injection H as <- _ _. congruence. }
  destruct (isPrizeComplete a prize) eqn:Hroom.
  { simpl in H. injection H as <- _ _. simpl in Hon. congruence. }
  split; [done|]. split; [done|].
  destruct (generateRandomNumber w fuel settings (winnersRef a) m)
    as [[[|[r|]]|e] m1] eqn:Hgen; cbv beta iota in H;
    try discriminate H.
  - destruct (truthy (Some r)) eqn:Htruthy; simpl in H.
    + injection H as <- <- <-. exists r. simpl.
      apply orb_false_iff in Hbusy as [_ Hactive].
      repeat split; try done.
      destruct (bool_decide (spinMode prize = MANUAL)); [done|].
      by rewrite Hactive.
    + injection H as <- _ _. simpl in Hon. congruence.
  - simpl in H. injection H as <- _ _. simpl in Hon. congruence.
  - simpl in H. injection H as <- _ _. simpl in Hon. congruence.
Qed.

(** X9: for settings with [min <= max] and a service that answers with
    integers of the range it was asked for: when [handleStartSpin] starts a
    session (it turns [isSpinning] on), no session was on, the prize had
    room, and the target number it sets is the decimal string of an integer
    of [[min, max]] that, when previous winners are excluded, is not among
    the numbers of [winnersRef]; a MANUAL prize gets its session flag and
    no spin sound, the other modes get the spin sound.  (Without the two
    conditions the target need not be in the range: the code does not check
    what the service sends, see [out_of_range_candidate].) *)
Theorem handleStartSpin_starts_session
    (w : World) (fuel : nat) (settings : GlobalSettings) (prize : Prize)
    (a a' : App) (effects : list Effect) (m m' : Meter) :
  (minNumber settings <= maxNumber settings)%Z ->
  remote_in_range w settings ->
  handleStartSpin w fuel settings prize a m = (Val (Some (a', effects)), m') ->
  isSpinning a = false ->
  isSpinning a' = true ->
  isManualSpinning a = false /\
  isManualSpinActive a = false /\
  isPrizeComplete a prize = false /\
  (exists v,
     targetNumber a' = Some (toString (Int v)) /\
     (minNumber settings <= v <= maxNumber settings)%Z /\
     (excludePreviousWinners settings = true ->
      Int v ∉ takenNumbers (winnersRef a))) /\
  isManualSpinActive a' = bool_decide (spinMode prize = MANUAL) /\
  effects = (if bool_decide (spinMode prize = MANUAL)
             then [Resume] else [Resume; PlaySpinSound]).
Proof.
  intros Hle Hin H Hidle Hon.
  destruct (handleStartSpin_started _ _ _ _ _ _ _ _ _ H Hidle Hon)
    as (Hbusy & Hroom & r & Hgen & _ & Ht & _ & _ & _ & _ & Hact & _ & _ & He).
  apply orb_false_iff in Hbusy as [Hbusy Hactive].
  apply orb_false_iff in Hbusy as [_ Hmanual].
  repeat split; try done.
  apply generateRandomNumber_accepts in Hgen as (m0 & v & Hr & Hacc & Ho).
  destruct (origin_in_range _ _ _ _ _ _ Hle Hin Ho) as (z & -> & Hz).
  injection Hr as <-.
  exists z. split; [done|]. split; [done|].
  intros Hex. unfold accepted in Hacc. rewrite Hex in Hacc. simpl in Hacc.
  apply negb_true_iff in Hacc.
  by apply bool_decide_eq_false in Hacc.
Qed.

(** The code does not check what the service sends: the candidate [99],
    for the range [[0, 9]], becomes the target number of the session. *)
Example out_of_range_candidate :
  exists a' m',
    handleStartSpin (answering [Number (Int 99)]) 100
      (remote_settings 0 9 true) consolation (viewing "kk-1" []) start
    = (Val (Some (a', [Resume; PlaySpinSound])), m')
    /\ isSpinning a' = true /\ targetNumber a' = Some "99".
Proof. do 2 eexists. split; [vm_compute; reflexivity|]. by split. Qed.

Lemma handleStartSpin_starts_session_witness :
  false = false /\
  false = false /\
  isPrizeComplete (viewing "kk-1" []) consolation = false /\
  (exists v,
     Some "3" = Some (toString (Int v)) /\
     (0 <= v <= 9)%Z /\
     (true = true -> Int v ∉ takenNumbers [])) /\
  false = bool_decide (spinMode consolation = MANUAL) /\
  [Resume; PlaySpinSound]
  = (if bool_decide (spinMode consolation = MANUAL)
     then [Resume] else [Resume; PlaySpinSound]).
Proof.
  apply (handleStartSpin_starts_session (constant_world 13) 100
           (local_settings 0 9 true) consolation (viewing "kk-1" [])
           {| currentPrizeId := "kk-1"; isSpinning := true;
              targetNumber := Some "3"; isManualSpinning := false;
              isManualSpinActive := false; showConfetti := false;
              errorMsg := None; soundEnabled := true; winners := [];
              winnersRef := []; spinOscillatorRef := true |}
           [Resume; PlaySpinSound] start
           {| local_draws := 1; remote_requests := 0 |}).
  - simpl. lia.
  - intros k latency error numbers H. simpl in H. discriminate H.
  - vm_compute. reflexivity.
  - reflexivity.
  - reflexivity.
Defined.

(** X10: a draw that goes through [handleStartSpin] keeps the prize
    within its quantity.  When the session it starts is completed by
    [handleSpinFinished] for the selected prize, exactly one record is put
    in front of the winners, the winners of the prize are one more, and
    they are at most [quantity]; the session flags are down again. *)
Theorem draw_cycle_within_quantity
    (w : World) (fuel : nat) (settings : GlobalSettings) (prize : Prize)
    (now_id now_stamp : Z)
    (a a' : App) (effects : list Effect) (m m' : Meter) :
  handleStartSpin w fuel settings prize a m = (Val (Some (a', effects)), m') ->
  isSpinning a = false ->
  isSpinning a' = true ->
  prize_id prize = currentPrizeId a ->
  exists record,
    winners (fst (handleSpinFinished prize now_id now_stamp a'))
    = record :: winners a /\
    Some (number record)
    = (fun t => padStart t (digitCount prize) "0") <$> targetNumber a' /\
    length (currentWinners (fst (handleSpinFinished prize now_id now_stamp a')))
    = S (length (currentWinners a)) /\
    length (currentWinners (fst (handleSpinFinished prize now_id now_stamp a')))
    <= quantity prize /\
    isSpinning (fst (handleSpinFinished prize now_id now_stamp a')) = false /\
    isManualSpinActive (fst (handleSpinFinished prize now_id now_stamp a'))
    = false.
Proof.
  intros H Hidle Hon Hid.
  destruct (handleStartSpin_started _ _ _ _ _ _ _ _ _ H Hidle Hon)
    as (_ & Hroom & r & _ & Htruthy & Ht & Hw & _ & Hcur & _).
  exists (newWinner prize r now_id now_stamp).
  unfold handleSpinFinished, currentWinners. rewrite Ht, Htruthy. simpl.
  rewrite Hw, Hcur.
  rewrite filter_cons_True by done. simpl.
  unfold isPrizeComplete in Hroom. apply Nat.leb_gt in Hroom.
  repeat split; try done; lia.
Qed.

Lemma draw_cycle_within_quantity_witness :
  exists record,
    winners (fst (handleSpinFinished consolation 1700 1701
                    (spinning_app (Some "3"))))
    = record :: [] /\
    Some (number record) = Some "003" /\
    length (currentWinners (fst (handleSpinFinished consolation 1700 1701
                                   (spinning_app (Some "3")))))
    = 1 /\
    length (currentWinners (fst (handleSpinFinished consolation 1700 1701
                                   (spinning_app (Some "3")))))
    <= 6 /\
    isSpinning (fst (handleSpinFinished consolation 1700 1701
                       (spinning_app (Some "3")))) = false /\
    isManualSpinActive (fst (handleSpinFinished consolation 1700 1701
                               (spinning_app (Some "3")))) = false.
Proof.
  apply (draw_cycle_within_quantity (constant_world 13) 100
           (local_settings 0 9 true) consolation 1700 1701
           (viewing "kk-1" []) (spinning_app (Some "3"))
           [Resume; PlaySpinSound] start
           {| local_draws := 1; remote_requests := 0 |}).
  - vm_compute. reflexivity.
  - reflexivity.
  - reflexivity.
  - reflexivity.
Defined.

End DrawExtras.

(** ** Prizes and winners on display *)

Module BrowseExtras.
Import JS Allocator Types Draw DrawClaims Browse.

Lemma findIndex_range (id : string) (prizes : list Prize) :
  (-1 <= findIndex id prizes < Z.of_nat (length prizes))%Z.
Proof.
  unfold findIndex.
  destruct (list_find _ prizes) as [[i p]|] eqn:Hfind; [|lia].
  apply list_find_Some in Hfind as (Hi & _). apply lookup_lt_Some in Hi. lia.
Qed.

Lemma findIndex_absent (id : string) (prizes : list Prize) :
  id ∉ prize_id <$> prizes -> findIndex id prizes = (-1)%Z.
Proof.
  intros Hid. unfold findIndex.
  destruct (list_find _ prizes) as [[i p]|] eqn:Hfind; [|done].
  apply list_find_Some in Hfind as (Hi & Hp & _). destruct Hid.
  rewrite <- Hp. apply list_elem_of_fmap. exists p. split; [done|].
  by eapply list_elem_of_lookup_2.
Qed.

Lemma findIndex_lookup (prizes : list Prize) (i : nat) (p : Prize) :
  NoDup (prize_id <$> prizes) ->
  prizes !! i = Some p ->
  findIndex (prize_id p) prizes = Z.of_nat i.
Proof.
  intros Hnd Hi. unfold findIndex.
  destruct (list_find _ prizes) as [[j q]|] eqn:Hfind.
  - apply list_find_Some in Hfind as (Hj & Hq & _). f_equal.
    apply (NoDup_lookup _ j i (prize_id p) Hnd);
      rewrite list_lookup_fmap; [by rewrite Hj; simpl; f_equal|by rewrite Hi].
  - apply list_find_None in Hfind. rewrite Forall_forall in Hfind.
    destruct (Hfind p); [by eapply list_elem_of_lookup_2|done].
Qed.

Lemma element_of_nat {A : Type} (arr : list A) (i : nat) :
  element arr (Z.of_nat i) = arr !! i.
Proof.
  unfold element. destruct (Z.ltb_spec (Z.of_nat i) 0); [lia|].
  by rewrite Nat2Z.id.
Qed.

Lemma element_in_range {A : Type} (arr : list A) (i : Z) :
  (0 <= i < Z.of_nat (length arr))%Z -> is_Some (element arr i).
Proof.
  intros Hi. unfold element. destruct (Z.ltb_spec i 0); [lia|].
  apply lookup_lt_is_Some. lia.
Qed.

(** X11: the two handlers that change the prize never fail and never
    touch the winners or the session flags; they leave the selection
    where it is or move it to a prize of the list.  With a selection that
    is not among the prizes ([findIndex] gives [-1]), [handleNextPrize]
    does nothing and [handlePrevPrize] selects the first prize. *)
Theorem prize_navigation_total (prizes : list Prize) (a : App) :
  (exists a',
     handleNextPrize prizes a = Some a' /\
     winners a' = winners a /\ winnersRef a' = winnersRef a /\
     isSpinning a' = isSpinning a /\
     (a' = a \/
      exists p, p ∈ prizes /\ a' = select a (prize_id p))) /\
  (exists a',
     handlePrevPrize prizes a = Some a' /\
     winners a' = winners a /\ winnersRef a' = winnersRef a /\
     isSpinning a' = isSpinning a /\
     (a' = a \/
      exists p, p ∈ prizes /\ a' = select a (prize_id p))) /\
  (currentPrizeId a ∉ prize_id <$> prizes ->
   handleNextPrize prizes a = Some a /\
   handlePrevPrize prizes a
   = Some (from_option (fun p => select a (prize_id p)) a (head prizes))).
Proof.
  pose proof (findIndex_range (currentPrizeId a) prizes) as Hrange.
  split; [|split].
  - unfold handleNextPrize.
    destruct (Z.gtb_spec (findIndex (currentPrizeId a) prizes) 0) as [Hgt|_].
    + destruct (element_in_range prizes
                  (findIndex (currentPrizeId a) prizes - 1) ltac:(lia))
        as [p Hp].
      rewrite Hp. simpl. eexists. split; [reflexivity|]. simpl.
      repeat split. right. exists p. split; [|done].
      unfold element in Hp. destruct (_ <? 0)%Z; [done|].
      by eapply list_elem_of_lookup_2.
    + exists a. repeat split. by left.
  - unfold handlePrevPrize.
    destruct (Z.ltb_spec (findIndex (currentPrizeId a) prizes)
                (Z.of_nat (length prizes) - 1)) as [Hlt|_].
    + destruct (element_in_range prizes
                  (findIndex (currentPrizeId a) prizes + 1) ltac:(lia))
        as [p Hp].
      rewrite Hp. simpl. eexists. split; [reflexivity|]. simpl.
      repeat split. right. exists p. split; [|done].
      unfold element in Hp. destruct (_ <? 0)%Z; [done|].
      by eapply list_elem_of_lookup_2.
    + exists a. repeat split. by left.
  - intros Habsent. unfold handleNextPrize, handlePrevPrize.
    rewrite (findIndex_absent _ _ Habsent). split; [done|].
    destruct prizes as [|p prizes]; [done|]. simpl.
    destruct (Z.ltb_spec (-1) (Z.of_nat (S (length prizes)) - 1)); [done|lia].
Qed.

(** X12: with prizes of distinct ids and the prize at index [i]
    selected, [handleNextPrize] selects the prize at [i - 1] and stays put
    at index [0]; [handlePrevPrize] selects the prize at [i + 1] and stays
    put at the last index; each undoes the move of the other, up to the
    target number, the confetti and the error message, which a move
    clears. *)
Theorem prize_navigation_round_trip
    (prizes : list Prize) (a : App) (i : nat) (p : Prize) :
  NoDup (prize_id <$> prizes) ->
  prizes !! i = Some p ->
  currentPrizeId a = prize_id p ->
  (i = 0 -> handleNextPrize prizes a = Some a) /\
  (S i = length prizes -> handlePrevPrize prizes a = Some a) /\
  (forall j q, i = S j -> prizes !! j = Some q ->
     handleNextPrize prizes a = Some (select a (prize_id q)) /\
     handlePrevPrize prizes (select a (prize_id q))
     = Some (select a (prize_id p))) /\
  (forall q, prizes !! S i = Some q ->
     handlePrevPrize prizes a = Some (select a (prize_id q)) /\
     handleNextPrize prizes (select a (prize_id q))
     = Some (select a (prize_id p))).
Proof.
  intros Hnd Hi Hcur.
  pose proof (lookup_lt_Some _ _ _ Hi) as Hlen.
  assert (forall k q b, prizes !! k = Some q ->
            currentPrizeId b = prize_id q ->
            (handleNextPrize prizes b
             = if k is S k' then q' ← prizes !! k'; Some (select b (prize_id q'))
               else Some b) /\
            (handlePrevPrize prizes b
             = if bool_decide (S k < length prizes)
               then q' ← prizes !! S k; Some (select b (prize_id q'))
               else Some b)) as Hmove.
  { intros k q b Hk Hb. unfold handleNextPrize, handlePrevPrize.
    rewrite Hb, (findIndex_lookup _ _ _ Hnd Hk). split.
    - destruct k as [|k'].
      + by destruct (Z.gtb_spec (Z.of_nat 0) 0); [lia|].
      + destruct (Z.gtb_spec (Z.of_nat (S k')) 0); [|lia].
        replace (Z.of_nat (S k') - 1)%Z with (Z.of_nat k') by lia.
        by rewrite element_of_nat.
    - destruct (Z.ltb_spec (Z.of_nat k) (Z.of_nat (length prizes) - 1)).
      + rewrite bool_decide_eq_true_2 by lia.
        replace (Z.of_nat k + 1)%Z with (Z.of_nat (S k)) by lia.
        by rewrite element_of_nat.
      + by rewrite bool_decide_eq_false_2 by lia. }
  destruct (Hmove i p a Hi Hcur) as [Hnext Hprev].
  split; [|split; [|split]].
  - intros ->. exact Hnext.
  - intros Hlast. rewrite Hprev. by rewrite bool_decide_eq_false_2 by lia.
  - intros j q -> Hj. rewrite Hnext, Hj. simpl. split; [done|].
    destruct (Hmove j q (select a (prize_id q)) Hj eq_refl) as [_ ->].
    rewrite bool_decide_eq_true_2 by lia. by rewrite Hi.
  - intros q Hq. pose proof (lookup_lt_Some _ _ _ Hq) as Hlen'.
    rewrite Hprev, bool_decide_eq_true_2, Hq by lia. simpl. split; [done|].
    destruct (Hmove (S i) q (select a (prize_id q)) Hq eq_refl) as [-> _].
    by rewrite Hi.
Qed.

Lemma prize_navigation_round_trip_witness :
  handleNextPrize [prize_named "g-1"; prize_named "g-2"; prize_named "g-3"]
    (viewing "g-2" [])
  = Some (select (viewing "g-2" []) "g-1") /\
  handlePrevPrize [prize_named "g-1"; prize_named "g-2"; prize_named "g-3"]
    (select (viewing "g-2" []) "g-1")
  = Some (select (viewing "g-2" []) "g-2").
Proof.
  assert (NoDup (prize_id <$>
            [prize_named "g-1"; prize_named "g-2"; prize_named "g-3"]))
    as Hnd.
  { simpl. repeat constructor; rewrite ?elem_of_cons, ?elem_of_nil;
      intros H; repeat (destruct H as [H|H]; [discriminate H|]); done. }
  exact (proj1 (proj2 (proj2
           (prize_navigation_round_trip
              [prize_named "g-1"; prize_named "g-2"; prize_named "g-3"]
              (viewing "g-2" []) 1 (prize_named "g-2")
              Hnd eq_refl eq_refl)))
           0 (prize_named "g-1") eq_refl eq_refl).
Defined.

Lemma nextWinner_iter (a : App) (k : nat) (idx : Z) :
  (0 <= idx < Z.of_nat (length (currentWinners a)))%Z ->
  Nat.iter k (nextWinner a) idx
  = ((idx + Z.of_nat k) mod Z.of_nat (length (currentWinners a)))%Z.
Proof.
  intros Hidx. set (len := Z.of_nat (length (currentWinners a))) in *.
  induction k as [|k IH].
  - simpl. rewrite Z.add_0_r. by rewrite Z.mod_small.
  - rewrite Nat.iter_succ, IH. unfold nextWinner. fold len.
    pose proof (Z.mod_pos_bound (idx + Z.of_nat k) len ltac:(lia)) as Hr.
    replace (idx + Z.of_nat (S k))%Z with (idx + Z.of_nat k + 1)%Z by lia.
    rewrite <- (Z.add_mod_idemp_l (idx + Z.of_nat k) 1 len) by lia.
    destruct (Z.ltb_spec ((idx + Z.of_nat k) mod len) (len - 1)).
    + by rewrite (Z.mod_small ((idx + Z.of_nat k) mod len + 1)) by lia.
    + replace ((idx + Z.of_nat k) mod len + 1)%Z with len by lia.
      by rewrite Z.mod_same by lia.
Qed.

(** X13: while the buttons that browse the winners of the prize are on
    offer (more than one winner, no spin), an index within the winners
    stays within them under both buttons; the buttons wrap around at the
    two ends, each undoes the other, pressing the forward button once per
    winner comes back to the same index, and the effect that displays the
    winner at the new index finds one. *)
Theorem winner_browsing_wraps (a : App) (idx : Z) :
  browsingOffered a = true ->
  (0 <= idx < Z.of_nat (length (currentWinners a)))%Z ->
  (0 <= prevWinner a idx < Z.of_nat (length (currentWinners a)))%Z /\
  (0 <= nextWinner a idx < Z.of_nat (length (currentWinners a)))%Z /\
  nextWinner a (prevWinner a idx) = idx /\
  prevWinner a (nextWinner a idx) = idx /\
  Nat.iter (length (currentWinners a)) (nextWinner a) idx = idx /\
  (exists w0, w0 ∈ currentWinners a /\
     showWinnerEffect (nextWinner a idx) a
     = Some (setTargetNumber a (Some (number w0)))) /\
  (exists w0, w0 ∈ currentWinners a /\
     showWinnerEffect (prevWinner a idx) a
     = Some (setTargetNumber a (Some (number w0)))).
Proof.
  intros Hoffered Hidx.
  apply andb_true_iff in Hoffered as [Hlen _]. apply Nat.ltb_lt in Hlen.
  assert (forall i, (0 <= i < Z.of_nat (length (currentWinners a)))%Z ->
            exists w0, w0 ∈ currentWinners a /\
              showWinnerEffect i a
              = Some (setTargetNumber a (Some (number w0)))) as Hshow.
  { intros i Hi. unfold showWinnerEffect.
    destruct (Z.gtb_spec (Z.of_nat (length (currentWinners a))) 0); [|lia].
    destruct (Z.ltb_spec i (Z.of_nat (length (currentWinners a)))); [|lia].
    destruct (element_in_range (currentWinners a) i Hi) as [w0 Hw0].
    rewrite Hw0. simpl. exists w0. split; [|done].
    unfold element in Hw0. destruct (i <? 0)%Z; [done|].
    by eapply list_elem_of_lookup_2. }
  assert (0 <= prevWinner a idx < Z.of_nat (length (currentWinners a)))%Z
    as Hprev.
  { unfold prevWinner. destruct (Z.gtb_spec idx 0); lia. }
  assert (0 <= nextWinner a idx < Z.of_nat (length (currentWinners a)))%Z
    as Hnext.
  { unfold nextWinner.
    destruct (Z.ltb_spec idx (Z.of_nat (length (currentWinners a)) - 1));
      lia. }
  split; [done|]. split; [done|]. split; [|split; [|split; [|split]]].
  - unfold nextWinner, prevWinner.
    destruct (Z.gtb_spec idx 0);
      repeat case_match; lia.
  - unfold nextWinner, prevWinner.
    destruct (Z.ltb_spec idx (Z.of_nat (length (currentWinners a)) - 1));
      repeat case_match; lia.
  - rewrite nextWinner_iter by done.
    rewrite <- (Z.mul_1_l (Z.of_nat (length (currentWinners a)))) at 1.
    rewrite Z.mod_add by lia. by rewrite Z.mod_small.
  - by apply Hshow.
  - by apply Hshow.
Qed.

Lemma winner_browsing_wraps_witness :
  (0 <= prevWinner (viewing "g-1" [winner_for "g-1" "007";
                                   winner_for "g-1" "042"]) 0 < 2)%Z /\
  (0 <= nextWinner (viewing "g-1" [winner_for "g-1" "007";
                                   winner_for "g-1" "042"]) 0 < 2)%Z.
Proof.
  pose proof (winner_browsing_wraps
                (viewing "g-1"
                   [winner_for "g-1" "007"; winner_for "g-1" "042"]) 0
                eq_refl ltac:(simpl; lia)) as (Hprev & Hnext & _).
  split; [exact Hprev|exact Hnext].
Defined.

Lemma showWinnerEffect_lookup (a : App) (i : nat) (w0 : Winner) :
  currentWinners a !! i = Some w0 ->
  showWinnerEffect (Z.of_nat i) a
  = Some (setTargetNumber a (Some (number w0))).
Proof.
  intros Hi. pose proof (lookup_lt_Some _ _ _ Hi) as Hlen.
  unfold showWinnerEffect.
  destruct (Z.gtb_spec (Z.of_nat (length (currentWinners a))) 0); [|lia].
  destruct (Z.ltb_spec (Z.of_nat i) (Z.of_nat (length (currentWinners a))));
    [|lia].
  simpl. by rewrite element_of_nat, Hi.
Qed.

(** X14: what is on display after a draw.  Once [handleSpinFinished] has
    committed the target of the selected prize, the effect that displays
    the winner at [currentWinnerIndex] puts the new number, padded, on
    display when the index is [0]; with the index at [i + 1] (the
    operator had browsed) it displays the winner that was at [i] before
    the draw, not the new one. *)
Theorem committed_winner_on_display
    (prize : Prize) (now_id now_stamp : Z) (a : App) (target : string) :
  targetNumber a = Some target ->
  truthy (Some target) = true ->
  prize_id prize = currentPrizeId a ->
  targetNumber (fst (handleSpinFinished prize now_id now_stamp a)) = None /\
  (targetNumber <$>
     showWinnerEffect 0 (fst (handleSpinFinished prize now_id now_stamp a)))
  = Some (Some (padStart target (digitCount prize) "0")) /\
  (forall i w0, currentWinners a !! i = Some w0 ->
     (targetNumber <$>
        showWinnerEffect (Z.of_nat (S i))
          (fst (handleSpinFinished prize now_id now_stamp a)))
     = Some (Some (number w0))).
Proof.
  intros Ht Htruthy Hid.
  assert (currentWinners (fst (handleSpinFinished prize now_id now_stamp a))
          = newWinner prize target now_id now_stamp :: currentWinners a)
    as Hcw.
  { unfold handleSpinFinished, currentWinners. rewrite Ht, Htruthy. simpl.
    by rewrite filter_cons_True. }
  split; [done|]. split.
  - by rewrite (showWinnerEffect_lookup _ 0 (newWinner prize target now_id
                                              now_stamp))
      by (by rewrite Hcw).
  - intros i w0 Hi.
    by rewrite (showWinnerEffect_lookup _ (S i) w0) by (by rewrite Hcw).
Qed.

Lemma committed_winner_on_display_witness :
  targetNumber (fst (handleSpinFinished consolation 1700 1701
                       (spinning_app (Some "7")))) = None /\
  (targetNumber <$>
     showWinnerEffect 0 (fst (handleSpinFinished consolation 1700 1701
                                (spinning_app (Some "7")))))
  = Some (Some "007").
Proof.
  pose proof (committed_winner_on_display consolation 1700 1701
                (spinning_app (Some "7")) "7" eq_refl eq_refl eq_refl)
    as (H1 & H2 & _).
  split; [exact H1|exact H2].
Defined.

(** X15: [handleSpinFinished] commits whatever target number is set, also
    one that is only on display.  With the number of a recorded winner of
    the prize on display (put there by the effect above), a call of
    [handleSpinFinished] puts a second record with the same number in
    front of the winners, whether or not the prize is complete. *)
Theorem displayed_winner_committed_again
    (prize : Prize) (now_id now_stamp : Z) (a : App) (i : nat)
    (w0 : Winner) :
  currentWinners a !! i = Some w0 ->
  number w0 <> "" ->
  digitCount prize <= String.length (number w0) ->
  exists a1 record,
    showWinnerEffect (Z.of_nat i) a = Some a1 /\
    winners (fst (handleSpinFinished prize now_id now_stamp a1))
    = record :: winners a /\
    number record = number w0 /\
    w0 ∈ winners a.
Proof.
  intros Hi Hne Hlen.
  exists (setTargetNumber a (Some (number w0))),
         (newWinner prize (number w0) now_id now_stamp).
  split; [by apply showWinnerEffect_lookup|].
  assert (truthy (Some (number w0)) = true) as Htruthy
    by by destruct (number w0).
  unfold handleSpinFinished.
  change (targetNumber (setTargetNumber a (Some (number w0))))
    with (Some (number w0)).
  cbv beta iota zeta. rewrite Htruthy. simpl.
  split; [done|]. split.
  - unfold padStart.
    by destruct (Nat.leb_spec (digitCount prize) (String.length (number w0)));
      [|lia].
  - apply list_elem_of_lookup_2 in Hi.
    by apply list_elem_of_filter in Hi as [_ Hi].
Qed.

Lemma displayed_winner_committed_again_witness :
  exists a1 record,
    showWinnerEffect 0 (viewing "kk-1" [winner_for "kk-1" "007"]) = Some a1 /\
    winners (fst (handleSpinFinished consolation 1700 1701 a1))
    = record :: [winner_for "kk-1" "007"] /\
    number record = "007" /\
    winner_for "kk-1" "007" ∈ [winner_for "kk-1" "007"].
Proof.
  apply (displayed_winner_committed_again consolation 1700 1701
           (viewing "kk-1" [winner_for "kk-1" "007"]) 0
           (winner_for "kk-1" "007")).
  - reflexivity.
  - discriminate.
  - simpl. lia.
Defined.

Lemma find_prize_Some (id : string) (prizes : list Prize) (p : Prize) :
  List.find (fun q => bool_decide (prize_id q = id)) prizes = Some p ->
  p ∈ prizes /\ prize_id p = id.
Proof.
  intros H. apply find_some in H as [Hin Hp].
  split; [by apply list_elem_of_In|by apply bool_decide_eq_true in Hp].
Qed.

Lemma find_prize_None (id : string) (prizes : list Prize) :
  List.find (fun q => bool_decide (prize_id q = id)) prizes = None ->
  id ∉ prize_id <$> prizes.
Proof.
  intros H Hin. apply list_elem_of_fmap in Hin as (p & -> & Hp).
  apply list_elem_of_In in Hp.
  pose proof (find_none _ _ H p Hp) as Hf. simpl in Hf.
  by apply bool_decide_eq_false in Hf.
Qed.

(** X25: the effect that watches the selection keeps it among the
    prizes.  With at least one prize, after the effect the selected id is
    the id of a prize, [currentPrize] is the prize of that id (not the
    fallback [prizes[0]]), and the effect has nothing more to do; a
    selection that was valid is left alone, one that was not is moved to
    the last prize.  The winners are not touched. *)
Theorem selection_kept_valid (prizes : list Prize) (a : App) :
  prizes <> [] ->
  currentPrizeId (validPrizeEffect prizes a) ∈ prize_id <$> prizes /\
  (exists p, currentPrize prizes (validPrizeEffect prizes a) = Some p /\
             prize_id p = currentPrizeId (validPrizeEffect prizes a)) /\
  validPrizeEffect prizes (validPrizeEffect prizes a)
  = validPrizeEffect prizes a /\
  (currentPrizeId a ∈ prize_id <$> prizes ->
   validPrizeEffect prizes a = a) /\
  (currentPrizeId a ∉ prize_id <$> prizes ->
   Some (currentPrizeId (validPrizeEffect prizes a))
   = prize_id <$> last prizes) /\
  winners (validPrizeEffect prizes a) = winners a.
Proof.
  intros Hne.
  assert (forall b, currentPrizeId b ∈ prize_id <$> prizes ->
            validPrizeEffect prizes b = b /\
            exists p, currentPrize prizes b = Some p /\
                      prize_id p = currentPrizeId b) as Hvalid.
  { intros b Hb. unfold validPrizeEffect, currentPrize.
    destruct (List.find _ prizes) as [p|] eqn:Hfind.
    - rewrite bool_decide_eq_true_2 by by eexists.
      rewrite andb_false_r. split; [done|]. exists p. split; [done|].
      by apply find_prize_Some in Hfind as [_ ?].
    - by apply find_prize_None in Hfind. }
  assert (currentPrizeId (validPrizeEffect prizes a) ∈ prize_id <$> prizes
          /\ winners (validPrizeEffect prizes a) = winners a
          /\ (currentPrizeId a ∉ prize_id <$> prizes ->
              Some (currentPrizeId (validPrizeEffect prizes a))
              = prize_id <$> last prizes)) as (Hin & Hw & Hlast).
  { unfold validPrizeEffect.
    destruct (List.find _ prizes) as [p|] eqn:Hfind.
    - rewrite bool_decide_eq_true_2 by by eexists.
      rewrite andb_false_r. apply find_prize_Some in Hfind as [Hp Hid].
      split; [|split; [done|]].
      + rewrite <- Hid. apply list_elem_of_fmap. by exists p.
      + intros Habsent. destruct Habsent. rewrite <- Hid.
        apply list_elem_of_fmap. by exists p.
    - rewrite bool_decide_eq_false_2 by (by intros [? ?]).
      destruct prizes as [|q prizes]; [done|]. cbn [length Nat.ltb Nat.leb].
      destruct (last (q :: prizes)) as [p|] eqn:Hl.
      + cbn [currentPrizeId winners]. split; [|done].
        apply list_elem_of_fmap. exists p.
        split; [done|]. apply last_Some in Hl as [l' ->].
        apply elem_of_app. right. apply elem_of_cons. by left.
      + by apply last_None in Hl. }
  destruct (Hvalid _ Hin) as [Hfix Hcur].
  split; [done|]. split; [done|]. split; [done|].
  split; [|done]. intros Ha. by apply Hvalid.
Qed.

Lemma selection_kept_valid_witness :
  currentPrizeId (validPrizeEffect [prize_named "g-1"; prize_named "g-2"]
                    (viewing "gone" []))
  ∈ prize_id <$> [prize_named "g-1"; prize_named "g-2"] /\
  (exists p,
     currentPrize [prize_named "g-1"; prize_named "g-2"]
       (validPrizeEffect [prize_named "g-1"; prize_named "g-2"]
          (viewing "gone" [])) = Some p /\
     prize_id p
     = currentPrizeId (validPrizeEffect [prize_named "g-1"; prize_named "g-2"]
                         (viewing "gone" []))).
Proof.
  pose proof (selection_kept_valid [prize_named "g-1"; prize_named "g-2"]
                (viewing "gone" []) ltac:(discriminate)) as (H1 & H2 & _).
  split; [exact H1|exact H2].
Defined.

End BrowseExtras.

(** ** Further properties of the slot machine *)

Module SlotExtras.
Import JS Types Slot SlotSpec JSFacts SlotFacts SlotClaims SlotPhases.

#[local] Arguments set_index : simpl never.
#[local] Arguments at_index : simpl never.
#[local] Arguments fill : simpl never.
#[local] Arguments every : simpl never.
#[local] Arguments some : simpl never.
#[local] Arguments step : simpl never.
#[local] Arguments settle : simpl never.

Lemma step_render_emits cfg p s p' :
  snd (step cfg (p, s) (Render p'))
  = snd (commit cfg p p' s)
    ++ snd (settle cfg p' (fst (commit cfg p p' s))).
Proof.
  unfold step. rewrite <- block_two_emits.
  by destruct (block [commit cfg p p'; settle cfg p'] s).
Qed.

Lemma step_eq cfg m ev : step cfg m ev = (fst (step cfg m ev), snd (step cfg m ev)).
Proof. by destruct (step cfg m ev). Qed.

Lemma run_nil cfg m : run cfg m [] = (m, []).
Proof. reflexivity. Qed.

(** The effects of a machine that is not in MANUAL mode. *)
Lemma automatic_sessionStartEffect cfg p s :
  spinMode cfg <> MANUAL ->
  sessionStartEffect cfg p s
  = setPrevIsManualSpinActive (isManualSpinActive p) s.
Proof.
  intros Hmode. unfold sessionStartEffect.
  rewrite (bool_decide_eq_false_2 (spinMode cfg = MANUAL)) by done.
  reflexivity.
Qed.

Lemma automatic_manualTimerEffect cfg p s :
  spinMode cfg <> MANUAL ->
  manualTimerEffect cfg p s = setManualTimers (fun _ => []) s.
Proof.
  intros Hmode. unfold manualTimerEffect.
  rewrite (bool_decide_eq_false_2 (spinMode cfg = MANUAL)) by done.
  reflexivity.
Qed.

Lemma automatic_pendingClickEffect cfg p c :
  spinMode cfg <> MANUAL -> pendingClickEffect cfg p c = skip.
Proof.
  intros Hmode. unfold pendingClickEffect.
  rewrite (bool_decide_eq_false_2 (spinMode cfg = MANUAL)) by done.
  by destruct (pendingClickIndex c).
Qed.

Lemma automatic_targetClearedEffect cfg p c :
  spinMode cfg <> MANUAL -> targetClearedEffect cfg p c = skip.
Proof.
  intros Hmode. unfold targetClearedEffect.
  by rewrite (bool_decide_eq_false_2 (spinMode cfg = MANUAL)) by done.
Qed.

Lemma automatic_allStoppedEffect cfg c :
  spinMode cfg <> MANUAL -> allStoppedEffect cfg c = skip.
Proof.
  intros Hmode. unfold allStoppedEffect.
  by rewrite (bool_decide_eq_false_2 (spinMode cfg = MANUAL)) by done.
Qed.

Lemma automatic_autoSyncEffect cfg p s :
  spinMode cfg <> MANUAL ->
  autoSyncEffect cfg p s
  = block [
      setDigitStoppedState (fun _ => fill (digitCount cfg) (negb (isSpinning p)));
      setDigitSpinningState (fun _ => fill (digitCount cfg) (isSpinning p))
    ] s.
Proof.
  intros Hmode. unfold autoSyncEffect.
  rewrite (bool_decide_eq_false_2 (spinMode cfg = MANUAL)) by done.
  by destruct (isSpinning p).
Qed.

Lemma automatic_autoStopEffect cfg p s :
  spinMode cfg <> MANUAL ->
  autoStopEffect cfg p s = setAutoTimers (fun _ => armed cfg p) s.
Proof.
  intros Hmode. unfold autoStopEffect, armed.
  rewrite (bool_decide_eq_false_2 (spinMode cfg = MANUAL)) by done.
  destruct (negb (isSpinning p) || negb (truthy (targetNumber p)));
    [reflexivity|].
  destruct (spinMode cfg); [|reflexivity|done]. simpl.
  by destruct (bool_decide (stopMode cfg = AUTO_MANUAL)).
Qed.

Lemma block_cons_emits (u : Update) (us : list Update) (s : State) :
  snd (block (u :: us) s) = snd (u s) ++ snd (block us (fst (u s))).
Proof.
  change (block (u :: us) s)
    with (let (s1, e1) := u s in
          let (s2, e2) := block us s1 in (s2, e1 ++ e2)).
  destruct (u s) as [s1 e1]. simpl. by destruct (block us s1).
Qed.

Lemma block_eq (us : list Update) (s : State) :
  block us s = (fst (block us s), snd (block us s)).
Proof. by destruct (block us s). Qed.

Ltac blocks :=
  rewrite ?block_cons, ?block_cons_emits, ?block_nil; cbn [block skip snd].

Lemma automatic_step_render cfg p s p' :
  spinMode cfg <> MANUAL ->
  step cfg (p, s) (Render p') = ((p', automatic_render cfg p p' s), []).
Proof.
  intros Hmode.
  rewrite step_eq, step_render, step_render_emits, !settle_automatic by done.
  cbn [fst snd]. rewrite app_nil_r. unfold commit. cbv zeta.
  rewrite (automatic_pendingClickEffect cfg p' s Hmode),
    (automatic_targetClearedEffect cfg p' s Hmode),
    (automatic_allStoppedEffect cfg s Hmode).
  set (sync := negb (bool_decide (isSpinning p = isSpinning p'))).
  set (active :=
         negb (bool_decide (isManualSpinActive p = isManualSpinActive p'))).
  set (target := negb (bool_decide (targetNumber p = targetNumber p'))).
  unfold automatic_render. cbv zeta. fold sync active target.
  rewrite block_eq. blocks.
  destruct active, target, sync; cbn [orb when skip fst snd];
    rewrite ?automatic_sessionStartEffect, ?automatic_manualTimerEffect,
      ?automatic_autoSyncEffect, ?automatic_autoStopEffect by done;
    destruct s; reflexivity.
Qed.

Lemma automatic_mount cfg p :
  spinMode cfg <> MANUAL ->
  mount cfg p
  = ({| digitSpinningState := fill (digitCount cfg) (isSpinning p);
        digitStoppedState := fill (digitCount cfg) (negb (isSpinning p));
        manualSpinStarted := false;
        pendingClickIndex := None;
        spinningDigitCount := 0;
        prevIsManualSpinActive := isManualSpinActive p;
        manualTimers := [];
        autoTimers := armed cfg p |}, []).
Proof.
  intros Hmode. unfold mount. cbv zeta.
  rewrite (automatic_pendingClickEffect cfg p _ Hmode),
    (automatic_targetClearedEffect cfg p _ Hmode),
    (automatic_allStoppedEffect cfg _ Hmode).
  rewrite block_eq. blocks.
  rewrite !settle_automatic by done. cbn [fst snd].
  rewrite ?automatic_sessionStartEffect, ?automatic_manualTimerEffect,
    ?automatic_autoSyncEffect, ?automatic_autoStopEffect by done.
  reflexivity.
Qed.



Lemma automatic_step_click cfg m idx :
  spinMode cfg <> MANUAL -> step cfg m (Click idx) = (m, []).
Proof.
  intros Hmode. destruct m as [p s].
  unfold step, clickOffered, isDigitClickable.
  rewrite (bool_decide_eq_false_2 (spinMode cfg = MANUAL)) by done.
  simpl. by rewrite andb_false_r.
Qed.

Lemma automatic_step_fire_idle cfg p s a :
  spinMode cfg <> MANUAL ->
  manualTimers s = [] -> is_pending a (autoTimers s) = false ->
  step cfg (p, s) (Fire a) = ((p, s), []).
Proof.
  intros Hmode Hm Ha.
  rewrite step_eq, step_fire, step_fire_emits, !settle_automatic by done.
  unfold timeout. by rewrite Hm, Ha.
Qed.

Lemma armed_plain cfg p :
  spinMode cfg = ALL_AT_ONCE -> autoStopMode cfg = None -> armed cfg p = [].
Proof.
  intros Hmode Hstop. unfold armed, stopMode. rewrite Hmode, Hstop.
  by destruct (negb (isSpinning p) || negb (truthy (targetNumber p))).
Qed.

Lemma at_rest_mount cfg p :
  spinMode cfg = ALL_AT_ONCE -> autoStopMode cfg = None ->
  at_rest cfg (p, fst (mount cfg p)) /\ snd (mount cfg p) = [].
Proof.
  intros Hmode Hstop.
  rewrite automatic_mount by (rewrite Hmode; discriminate).
  unfold at_rest. simpl. by rewrite armed_plain.
Qed.

Lemma at_rest_step cfg m ev :
  spinMode cfg = ALL_AT_ONCE -> autoStopMode cfg = None ->
  at_rest cfg m ->
  at_rest cfg (fst (step cfg m ev)) /\ snd (step cfg m ev) = [].
Proof.
  intros Hmode Hstop.
  assert (spinMode cfg <> MANUAL) as Hauto by (rewrite Hmode; discriminate).
  destruct m as [p s]. unfold at_rest. cbn [fst snd].
  intros (Hspin & Hstopped & Hm & Ha).
  destruct ev as [p'|idx| |a].
  - rewrite automatic_step_render by done. cbn [fst snd].
    unfold automatic_render. cbn [digitSpinningState digitStoppedState
      manualTimers autoTimers].
    rewrite armed_plain, Hspin, Hstopped, Hm by done.
    destruct (bool_decide (isSpinning p = isSpinning p')) eqn:E; simpl.
    + apply bool_decide_eq_true in E. rewrite E.
      by destruct (_ || _).
    + by destruct (_ || _).
  - by rewrite automatic_step_click.
  - unfold step, revealOffered. rewrite Hstop. simpl.
    by rewrite andb_false_r.
  - rewrite automatic_step_fire_idle; [done|done|done|by rewrite Ha].
Qed.

(** X16: an ALL_AT_ONCE prize whose [autoStopMode] is not set (as
    [addPrize] creates it) never completes a session.  The machine takes
    the default, manual stop, and arms no timeout, while the button that
    calls [revealResult] is rendered only for a prize whose [autoStopMode]
    is set to manual stop: whatever the renders, clicks, reveals and
    timeouts, no callback is ever called ([onFinished] among them), and
    the digits just follow [isSpinning]. *)
Theorem unset_stop_mode_never_completes
    (cfg : Config) (p0 : Props) (evs : list Event) :
  spinMode cfg = ALL_AT_ONCE ->
  autoStopMode cfg = None ->
  snd (run cfg (p0, fst (mount cfg p0)) evs) = [] /\
  snd (mount cfg p0) = [] /\
  at_rest cfg (fst (run cfg (p0, fst (mount cfg p0)) evs)).
Proof.
  intros Hmode Hstop.
  destruct (at_rest_mount cfg p0 Hmode Hstop) as [Hrest Hemits].
  split; [|split; [done|]]; revert Hrest;
    generalize (p0, fst (mount cfg p0)); clear Hemits.
  - induction evs as [|ev evs IH]; intros m Hrest; [done|].
    rewrite run_cons_emits.
    destruct (at_rest_step cfg m ev Hmode Hstop Hrest) as [Hrest' ->].
    by apply IH.
  - induction evs as [|ev evs IH]; intros m Hrest; [done|].
    rewrite run_cons.
    destruct (at_rest_step cfg m ev Hmode Hstop Hrest) as [Hrest' _].
    by apply IH.
Qed.

Lemma unset_stop_mode_never_completes_witness :
  snd (run added_config (idle, fst (mount added_config idle))
         [Render (drawing "123" false); Reveal; Fire StopAll; Click 0;
          Render (drawing "123" false)])
  = [] /\
  snd (mount added_config idle) = [] /\
  at_rest added_config
    (fst (run added_config (idle, fst (mount added_config idle))
            [Render (drawing "123" false); Reveal; Fire StopAll; Click 0;
             Render (drawing "123" false)])).
Proof.
  apply (unset_stop_mode_never_completes added_config idle
           [Render (drawing "123" false); Reveal; Fire StopAll; Click 0;
            Render (drawing "123" false)]); reflexivity.
Defined.

Lemma armed_timer cfg p :
  spinMode cfg = ALL_AT_ONCE -> autoStopMode cfg = Some AUTO_TIMER ->
  isSpinning p = true -> truthy (targetNumber p) = true ->
  armed cfg p = [(spinDuration cfg, StopAll)].
Proof.
  intros Hmode Hstop Hspin Htarget. unfold armed, stopMode.
  by rewrite Hmode, Hstop, Hspin, Htarget.
Qed.

(** The state of a session whose timeouts are those [autoStopEffect] has
    armed for the props. *)
Lemma armed_render cfg m p :
  spinMode cfg <> MANUAL ->
  manualTimers (snd m) = [] ->
  fst (fst (step cfg m (Render p))) = p /\
  manualTimers (snd (fst (step cfg m (Render p)))) = [] /\
  autoTimers (snd (fst (step cfg m (Render p)))) = armed cfg p /\
  snd (step cfg m (Render p)) = [].
Proof.
  intros Hmode Hm. destruct m as [p0 s].
  rewrite automatic_step_render by done. cbn [fst snd] in *.
  unfold automatic_render. cbn [manualTimers autoTimers]. rewrite Hm.
  by destruct (_ || _).
Qed.

Lemma armed_renders cfg p k : forall m,
  spinMode cfg <> MANUAL ->
  manualTimers (snd m) = [] ->
  fst (fst (run cfg m (replicate (S k) (Render p)))) = p /\
  manualTimers (snd (fst (run cfg m (replicate (S k) (Render p))))) = [] /\
  autoTimers (snd (fst (run cfg m (replicate (S k) (Render p)))))
  = armed cfg p /\
  snd (run cfg m (replicate (S k) (Render p))) = [].
Proof.
  induction k as [|k IH]; intros m Hmode Hm;
    change (replicate (S ?n) ?x) with (x :: replicate n x);
    rewrite run_cons, run_cons_emits;
    destruct (armed_render cfg m p Hmode Hm) as (Hp & Hm' & Ha & ->).
  - by rewrite !run_nil.
  - by apply IH.
Qed.

Lemma automatic_step_fire_StopAll cfg p s delay :
  spinMode cfg <> MANUAL ->
  manualTimers s = [] ->
  autoTimers s = [(delay, StopAll)] ->
  snd (step cfg (p, s) (Fire StopAll))
  = (if onStopDigit cfg then [OnStopDigit] else []) ++ [OnFinished] /\
  fst (fst (step cfg (p, s) (Fire StopAll))) = p /\
  digitStoppedState (snd (fst (step cfg (p, s) (Fire StopAll))))
  = fill (digitCount cfg) true /\
  manualTimers (snd (fst (step cfg (p, s) (Fire StopAll)))) = [] /\
  autoTimers (snd (fst (step cfg (p, s) (Fire StopAll)))) = [].
Proof.
  intros Hmode Hm Ha.
  rewrite step_fire, step_fire_emits, !settle_automatic by done.
  cbn [fst snd]. rewrite app_nil_r.
  unfold timeout. rewrite Hm, Ha. cbn [is_pending existsb snd].
  rewrite bool_decide_eq_true_2 by done. cbn [orb].
  unfold fire. blocks. unfold call, setAutoTimers, setDigitStoppedState.
  cbn [fst snd autoTimers manualTimers digitStoppedState]. rewrite Ha, Hm.
  cbn [clear_timer snd]. rewrite bool_decide_eq_true_2 by done.
  by destruct (onStopDigit cfg).
Qed.

(** X17: an ALL_AT_ONCE session with timed stop.  However many times the
    parent renders during the session, exactly one timeout is pending,
    set at [spinDuration]; the reveal button is not on offer; when the
    timeout fires, the stop is notified, [onFinished] is called, every
    digit is stopped, and nothing is left to fire again. *)
Theorem timed_stop_fires_once
    (cfg : Config) (p0 p : Props) (k : nat) :
  spinMode cfg = ALL_AT_ONCE ->
  autoStopMode cfg = Some AUTO_TIMER ->
  isSpinning p = true ->
  truthy (targetNumber p) = true ->
  let m1 := fst (run cfg (p0, fst (mount cfg p0))
                   (replicate (S k) (Render p))) in
  let m2 := fst (step cfg m1 (Fire StopAll)) in
  autoTimers (snd m1) = [(spinDuration cfg, StopAll)] /\
  step cfg m1 Reveal = (m1, []) /\
  snd (step cfg m1 (Fire StopAll))
  = (if onStopDigit cfg then [OnStopDigit] else []) ++ [OnFinished] /\
  digitStoppedState (snd m2) = fill (digitCount cfg) true /\
  autoTimers (snd m2) = [] /\
  step cfg m2 (Fire StopAll) = (m2, []).
Proof.
  intros Hmode Hstop Hspin Htarget m1 m2.
  assert (spinMode cfg <> MANUAL) as Hauto by (rewrite Hmode; discriminate).
  destruct (armed_renders cfg p k (p0, fst (mount cfg p0)) Hauto)
    as (Hp & Hm & Ha & _).
  { cbn [snd]. by rewrite automatic_mount. }
  fold m1 in Hp, Hm, Ha. rewrite armed_timer in Ha by done.
  split; [done|]. split.
  { unfold step, revealOffered. destruct m1. rewrite Hstop. simpl.
    by rewrite andb_false_r. }
  subst m2. destruct m1 as [p1 s1]. cbn [fst snd] in *. subst p1.
  destruct (automatic_step_fire_StopAll cfg p s1 _ Hauto Hm Ha)
    as (He & Hp' & Hs & Hm' & Ha').
  split; [done|]. split; [done|]. split; [done|].
  destruct (fst (step cfg (p, s1) (Fire StopAll))) as [p2 s2].
  cbn [fst snd] in *.
  apply automatic_step_fire_idle; [done|done|by rewrite Ha'].
Qed.

Lemma timed_stop_fires_once_witness :
  autoTimers (snd (fst (run timer_config (idle, fst (mount timer_config idle))
                          (replicate 3 (Render (drawing "123" false))))))
  = [(4000%Z, StopAll)] /\
  step timer_config
    (fst (run timer_config (idle, fst (mount timer_config idle))
            (replicate 3 (Render (drawing "123" false))))) Reveal
  = (fst (run timer_config (idle, fst (mount timer_config idle))
            (replicate 3 (Render (drawing "123" false)))), []) /\
  snd (step timer_config
         (fst (run timer_config (idle, fst (mount timer_config idle))
                 (replicate 3 (Render (drawing "123" false)))))
         (Fire StopAll))
  = [OnStopDigit; OnFinished].
Proof.
  pose proof (timed_stop_fires_once timer_config idle (drawing "123" false) 2
                eq_refl eq_refl eq_refl eq_refl) as (H1 & H2 & H3 & _).
  split; [exact H1|]. split; [exact H2|exact H3].
Defined.

Lemma sequential_fire_stopped cfg p s k :
  spinMode cfg = SEQUENTIAL ->
  k < digitCount cfg ->
  sequential_timers cfg k s ->
  digitStoppedState (snd (fst (step cfg (p, s) (Fire (SeqStop k)))))
  = set_index (digitStoppedState s) k true.
Proof.
  intros Hmode Hk [Hm Ha].
  assert (spinMode cfg <> MANUAL) as Hauto by (rewrite Hmode; discriminate).
  pose proof (drop_S _ _ _ (schedule_lookup cfg SeqStop k Hk)) as Hdrop.
  rewrite step_fire, settle_automatic by done. cbn [fst snd].
  unfold timeout. rewrite Hm, Ha, Hdrop. cbn [is_pending existsb snd].
  rewrite bool_decide_eq_true_2 by done. cbn [orb].
  unfold fire. blocks. unfold when, call.
  by destruct (Z.of_nat k =? Z.of_nat (digitCount cfg) - 1)%Z.
Qed.

Lemma sequential_run_stopped cfg p n : forall k s,
  spinMode cfg = SEQUENTIAL ->
  onStopDigit cfg = true ->
  k + n = digitCount cfg ->
  sequential_timers cfg k s ->
  length (digitStoppedState s) = digitCount cfg ->
  (forall i, i < k -> at_index (digitStoppedState s) i = true) ->
  let m := fst (run cfg (p, s) ((fun i => Fire (SeqStop i)) <$> seq k n)) in
  fst m = p /\
  sequential_timers cfg (digitCount cfg) (snd m) /\
  every (digitStoppedState (snd m)) = true.
Proof.
  induction n as [|n IH]; intros k s Hmode Hcb Hkn Hq Hlen Hk; cbv zeta.
  - cbn [seq fmap list_fmap]. rewrite run_nil. cbn [fst snd].
    replace (digitCount cfg) with k by lia. split; [done|]. split; [done|].
    apply every_true. intros i Hi. apply Hk. lia.
  - cbn [seq fmap list_fmap]. rewrite run_cons.
    destruct (sequential_timers_fire cfg p s k Hmode Hcb ltac:(lia) Hq)
      as (Hp & Hq' & _).
    pose proof (sequential_fire_stopped cfg p s k Hmode ltac:(lia) Hq) as Hs.
    destruct (fst (step cfg (p, s) (Fire (SeqStop k)))) as [p1 s1].
    cbn [fst snd] in Hp, Hq', Hs. subst p1.
    apply (IH (S k) s1 Hmode Hcb ltac:(lia) Hq').
    + rewrite Hs, length_set_index; [done|lia].
    + intros i Hi. rewrite Hs, at_index_set_index.
      destruct (Nat.eqb_spec i k); [done|]. apply Hk. lia.
Qed.

(** X18: a SEQUENTIAL session from its start to its end.  After the
    render that starts the session and the timeouts of the digits, fired
    in the order of their delays, one stop has been notified for each
    digit and [onFinished] has been called once, with the last one; every
    digit is stopped, no timeout is left, and a timeout that fires again
    does nothing. *)
Theorem sequential_session_completes (cfg : Config) (p0 p : Props) :
  spinMode cfg = SEQUENTIAL ->
  onStopDigit cfg = true ->
  isSpinning p = true ->
  truthy (targetNumber p) = true ->
  let r := run cfg (p0, fst (mount cfg p0))
             (Render p
              :: ((fun i => Fire (SeqStop i)) <$> seq 0 (digitCount cfg))) in
  snd r = replicate (digitCount cfg) OnStopDigit
          ++ (if (digitCount cfg =? 0)%nat then [] else [OnFinished]) /\
  every (digitStoppedState (snd (fst r))) = true /\
  autoTimers (snd (fst r)) = [] /\
  (forall a, step cfg (fst r) (Fire a) = (fst r, [])).
Proof.
  intros Hmode Hcb Hspin Htarget r.
  assert (spinMode cfg <> MANUAL) as Hauto by (rewrite Hmode; discriminate).
  subst r. rewrite run_cons, run_cons_emits.
  rewrite automatic_step_render by done. cbn [fst snd app].
  set (s1 := automatic_render cfg p0 p (fst (mount cfg p0))).
  assert (sequential_timers cfg 0 s1) as Hq.
  { unfold sequential_timers, s1, automatic_render.
    cbn [manualTimers autoTimers]. rewrite automatic_mount by done.
    cbn [fst manualTimers]. split; [by destruct (_ || _)|].
    unfold armed. by rewrite Hspin, Htarget, Hmode. }
  assert (length (digitStoppedState s1) = digitCount cfg) as Hlen.
  { unfold s1, automatic_render. cbn [digitStoppedState].
    rewrite automatic_mount by done. cbn [fst digitStoppedState].
    destruct (negb _); apply length_fill. }
  split.
  { by apply sequential_timers_run. }
  destruct (sequential_run_stopped cfg p (digitCount cfg) 0 s1 Hmode Hcb
              eq_refl Hq Hlen ltac:(lia)) as (Hp & [Hm Ha] & Hall).
  destruct (fst (run cfg (p, s1) _)) as [p2 s2]. cbn [fst snd] in *.
  rewrite drop_ge in Ha by (by rewrite schedule_length).
  split; [done|]. split; [done|]. intros a.
  apply automatic_step_fire_idle; [done|done|by rewrite Ha].
Qed.

Lemma sequential_session_completes_witness :
  snd (run sequential_config (idle, fst (mount sequential_config idle))
         (Render (drawing "123" false)
          :: ((fun i => Fire (SeqStop i)) <$> seq 0 3)))
  = [OnStopDigit; OnStopDigit; OnStopDigit; OnFinished] /\
  every (digitStoppedState
           (snd (fst (run sequential_config
                        (idle, fst (mount sequential_config idle))
                        (Render (drawing "123" false)
                         :: ((fun i => Fire (SeqStop i)) <$> seq 0 3))))))
  = true.
Proof.
  pose proof (sequential_session_completes sequential_config idle
                (drawing "123" false) eq_refl eq_refl eq_refl eq_refl)
    as (H1 & H2 & _).
  split; [exact H1|exact H2].
Defined.

(** *** MANUAL mode: the effects of the state *)

Lemma truthy_not_None (target : option string) :
  truthy target = true -> target <> None.
Proof. by destruct target. Qed.

Lemma settle_running cfg p s :
  spinMode cfg = MANUAL ->
  truthy (targetNumber p) = true ->
  (manualSpinStarted s = true -> every (digitStoppedState s) = false) ->
  settle cfg p s = (s, []).
Proof.
  intros Hmode Htarget Hrun.
  unfold settle, targetClearedEffect, allStoppedEffect.
  rewrite (bool_decide_eq_false_2 (targetNumber p = None))
    by by apply truthy_not_None.
  rewrite andb_false_r, andb_false_l, Hmode.
  by destruct (manualSpinStarted s); [rewrite Hrun by done|].
Qed.

Lemma settle_done cfg p s :
  spinMode cfg = MANUAL ->
  truthy (targetNumber p) = true ->
  manualSpinStarted s = true ->
  every (digitStoppedState s) = true ->
  settle cfg p s = (fst (setManualSpinStarted false s), [OnFinished]).
Proof.
  intros Hmode Htarget Hstarted Hall.
  unfold settle, targetClearedEffect, allStoppedEffect.
  rewrite (bool_decide_eq_false_2 (targetNumber p = None))
    by by apply truthy_not_None.
  rewrite andb_false_r, andb_false_l.
  rewrite Hmode, Hstarted, Hall. reflexivity.
Qed.

Lemma manual_render_same cfg p s :
  spinMode cfg = MANUAL ->
  truthy (targetNumber p) = true ->
  (manualSpinStarted s = true -> every (digitStoppedState s) = false) ->
  autoTimers s = [] ->
  step cfg (p, s) (Render p) = ((p, s), []).
Proof.
  intros Hmode Htarget Hrun Ha.
  assert (commit cfg p p s = (s, [])) as Hcommit.
  { unfold commit. cbv zeta.
    rewrite !bool_decide_eq_true_2 by done. cbn [negb orb when].
    rewrite block_eq. blocks.
    unfold targetClearedEffect, allStoppedEffect, autoStopEffect.
    rewrite (bool_decide_eq_false_2 (targetNumber p = None))
      by by apply truthy_not_None.
    rewrite andb_false_r, andb_false_l. cbn [skip fst snd].
    assert ((if bool_decide (spinMode cfg = MANUAL) && manualSpinStarted s
             then if every (digitStoppedState s)
                  then block [call true OnFinished; setManualSpinStarted false]
                  else skip
             else skip) = skip) as ->.
    { rewrite Hmode.
      by destruct (manualSpinStarted s); [rewrite Hrun by done|]. }
    rewrite Hmode. cbn [skip fst snd]. blocks.
    destruct s. simpl in Ha. by subst. }
  rewrite step_eq, step_render, step_render_emits, Hcommit. cbn [fst snd].
  by rewrite settle_running.
Qed.

(** *** MANUAL mode with CLICK reveal: a cycle on a displayed number *)

Lemma every_false_at (arr : list bool) (k : nat) :
  k < length arr -> at_index arr k = false -> every arr = false.
Proof.
  intros Hk Hat. destruct (every arr) eqn:E; [|done].
  rewrite every_true in E. by rewrite E in Hat.
Qed.

Lemma click_start cfg p s k :
  spinMode cfg = MANUAL -> revealMode cfg = CLICK ->
  onDigitSpinStart cfg = true ->
  truthy (targetNumber p) = true ->
  k < digitCount cfg ->
  click_phase cfg k s ->
  snd (step cfg (p, s) (Click k)) = [OnDigitSpinStart] /\
  fst (fst (step cfg (p, s) (Click k))) = p /\
  click_mid cfg k (snd (fst (step cfg (p, s) (Click k)))).
Proof.
  intros Hmode Hclick Hcb Htarget Hk
    (Hl1 & Hl2 & Hspin & Hstop & Hcount & Hstarted & Hpend & Hm & Ha).
  assert (some (digitSpinningState s) = false) as Hsome
    by by apply some_false.
  assert (every (digitStoppedState s) = false) as Hevery.
  { apply (every_false_at _ k); [lia|]. rewrite Hstop.
    by apply Nat.ltb_ge. }
  assert (at_index (digitStoppedState s) k = false) as Hstopk.
  { rewrite Hstop. by apply Nat.ltb_ge. }
  assert (clickOffered cfg s k = true) as Hoff.
  { unfold clickOffered, isDigitClickable.
    rewrite Hmode, Hclick, Hspin, Hsome, Hevery, Hstopk. simpl.
    rewrite andb_true_r. by apply Nat.ltb_lt. }
  set (s1 := {| digitSpinningState := set_index (digitSpinningState s) k true;
                digitStoppedState := digitStoppedState s;
                manualSpinStarted := true;
                pendingClickIndex := pendingClickIndex s;
                spinningDigitCount := 1;
                prevIsManualSpinActive := prevIsManualSpinActive s;
                manualTimers := manualTimers s;
                autoTimers := autoTimers s |}).
  assert (handleDigitClick cfg p k s = (s1, [OnDigitSpinStart])) as Hclicked.
  { unfold handleDigitClick.
    rewrite Hmode, Hclick, Hspin, Hevery, Hstopk, Htarget. simpl.
    unfold startDigitSpin.
    destruct (manualSpinStarted s) eqn:E; simpl;
      rewrite Hcount, Hcb, ?E; reflexivity. }
  assert (click_mid cfg k s1) as Hmid.
  { unfold click_mid, s1. simpl.
    split; [by rewrite length_set_index by lia|]. split; [done|].
    split; [|done].
    intros i. rewrite at_index_set_index.
    destruct (Nat.eqb_spec i k); [done|apply Hspin]. }
  rewrite step_click, step_click_emits by done. rewrite Hclicked.
  cbn [fst snd].
  rewrite settle_running; [by rewrite app_nil_r|done|done|].
  intros _. exact Hevery.
Qed.

Lemma click_stop cfg p s k :
  spinMode cfg = MANUAL -> revealMode cfg = CLICK ->
  onDigitSpinStop cfg = true -> onStopDigit cfg = true ->
  truthy (targetNumber p) = true ->
  k < digitCount cfg ->
  click_mid cfg k s ->
  snd (step cfg (p, s) (Click k))
  = [OnStopDigit; OnDigitSpinStop false]
    ++ (if (S k =? digitCount cfg)%nat then [OnFinished] else []) /\
  fst (fst (step cfg (p, s) (Click k))) = p /\
  click_phase cfg (S k) (snd (fst (step cfg (p, s) (Click k)))).
Proof.
  intros Hmode Hclick Hcb1 Hcb2 Htarget Hk
    (Hl1 & Hl2 & Hspin & Hstop & Hcount & Hstarted & Hpend & Hm & Ha).
  assert (at_index (digitSpinningState s) k = true) as Hspink.
  { rewrite Hspin. apply Nat.eqb_refl. }
  assert (clickOffered cfg s k = true) as Hoff.
  { unfold clickOffered, isDigitClickable.
    rewrite Hmode, Hclick, Hspink. simpl.
    rewrite andb_true_r. by apply Nat.ltb_lt. }
  set (s1 := {| digitSpinningState := set_index (digitSpinningState s) k false;
                digitStoppedState := set_index (digitStoppedState s) k true;
                manualSpinStarted := true;
                pendingClickIndex := None;
                spinningDigitCount := 0;
                prevIsManualSpinActive := prevIsManualSpinActive s;
                manualTimers := [];
                autoTimers := [] |}).
  assert (handleDigitClick cfg p k s
          = (s1, [OnStopDigit; OnDigitSpinStop false])) as Hclicked.
  { unfold handleDigitClick. rewrite Hmode, Hclick, Hspink.
    unfold stopDigitSpin. simpl.
    rewrite Hcount, Hcb1, Hcb2. simpl. unfold s1.
    by rewrite Hstarted, Hpend, Hm, Ha. }
  assert (forall i, at_index (digitSpinningState s1) i = false) as Hspin1.
  { intros i. unfold s1. simpl. rewrite at_index_set_index.
    destruct (Nat.eqb_spec i k) as [->|Hne]; [done|].
    rewrite Hspin. by apply Nat.eqb_neq. }
  assert (forall i, at_index (digitStoppedState s1) i = (i <? S k)%nat)
    as Hstop1.
  { intros i. unfold s1. simpl. rewrite at_index_set_index, Hstop.
    destruct (Nat.eqb_spec i k) as [->|Hne].
    - symmetry. apply Nat.ltb_lt. lia.
    - destruct (Nat.ltb_spec i k), (Nat.ltb_spec i (S k)); lia || done. }
  assert (length (digitStoppedState s1) = digitCount cfg) as Hlen1.
  { unfold s1. simpl. by rewrite length_set_index by lia. }
  assert (length (digitSpinningState s1) = digitCount cfg) as Hlen1'.
  { unfold s1. simpl. by rewrite length_set_index by lia. }
  rewrite step_click, step_click_emits by done. rewrite Hclicked.
  cbn [fst snd].
  destruct (Nat.eqb_spec (S k) (digitCount cfg)) as [Hlast|Hmore].
  - rewrite settle_done; [|done|done|done|].
    + cbn [fst snd]. split; [done|]. split; [done|].
      unfold click_phase. simpl.
      repeat split; try done.
      rewrite Hlast. by rewrite Nat.ltb_irrefl.
    + apply every_true. intros i Hi. rewrite Hstop1.
      apply Nat.ltb_lt. lia.
  - rewrite settle_running; [|done|done|].
    + cbn [fst snd]. split; [done|]. split; [done|].
      unfold click_phase.
      repeat split; try done.
      simpl. symmetry. apply Nat.ltb_lt. lia.
    + intros _. apply (every_false_at _ (S k)); [lia|].
      rewrite Hstop1. by apply Nat.ltb_irrefl.
Qed.

Lemma click_phase_render cfg p s k :
  spinMode cfg = MANUAL ->
  truthy (targetNumber p) = true ->
  click_phase cfg k s ->
  step cfg (p, s) (Render p) = ((p, s), []).
Proof.
  intros Hmode Htarget
    (Hl1 & Hl2 & Hspin & Hstop & Hcount & Hstarted & Hpend & Hm & Ha).
  apply manual_render_same; try done.
  rewrite Hstarted. intros Hrun. apply andb_true_iff in Hrun as [_ Hk].
  apply Nat.ltb_lt in Hk. apply (every_false_at _ k); [lia|].
  rewrite Hstop. by apply Nat.ltb_irrefl.
Qed.

Lemma click_mid_render cfg p s k :
  spinMode cfg = MANUAL ->
  truthy (targetNumber p) = true ->
  k < digitCount cfg ->
  click_mid cfg k s ->
  step cfg (p, s) (Render p) = ((p, s), []).
Proof.
  intros Hmode Htarget Hk
    (Hl1 & Hl2 & Hspin & Hstop & Hcount & Hstarted & Hpend & Hm & Ha).
  apply manual_render_same; try done.
  intros _. apply (every_false_at _ k); [lia|].
  rewrite Hstop. by apply Nat.ltb_irrefl.
Qed.

Lemma click_through_run cfg p n : forall k s,
  spinMode cfg = MANUAL -> revealMode cfg = CLICK ->
  onDigitSpinStart cfg = true -> onDigitSpinStop cfg = true ->
  onStopDigit cfg = true ->
  truthy (targetNumber p) = true ->
  k + n = digitCount cfg ->
  click_phase cfg k s ->
  snd (run cfg (p, s) (click_through cfg p k n))
  = flat_map (fun _ => [OnDigitSpinStart; OnStopDigit; OnDigitSpinStop false])
      (seq k n)
    ++ (if (n =? 0)%nat then [] else [OnFinished]) /\
  fst (fst (run cfg (p, s) (click_through cfg p k n))) = p /\
  click_phase cfg (digitCount cfg)
    (snd (fst (run cfg (p, s) (click_through cfg p k n)))).
Proof.
  induction n as [|n IH];
    intros k s Hmode Hclick Hcb1 Hcb2 Hcb3 Htarget Hkn Hphase.
  { unfold click_through. simpl. replace (digitCount cfg) with k by lia.
    done. }
  unfold click_through. cbn [seq flat_map]. fold (click_through cfg p (S k) n).
  rewrite <- !app_comm_cons, app_nil_l.
  rewrite !run_cons, !run_cons_emits.
  destruct (click_start cfg p s k Hmode Hclick Hcb1 Htarget ltac:(lia) Hphase)
    as (-> & Hp1 & Hmid).
  destruct (fst (step cfg (p, s) (Click k))) as [p1 s1].
  cbn [fst snd] in Hp1, Hmid. subst p1.
  rewrite (click_mid_render cfg p s1 k) by (done || lia). cbn [fst snd].
  destruct (click_stop cfg p s1 k Hmode Hclick Hcb2 Hcb3 Htarget ltac:(lia)
              Hmid) as (-> & Hp2 & Hphase').
  destruct (fst (step cfg (p, s1) (Click k))) as [p2 s2].
  cbn [fst snd] in Hp2, Hphase'. subst p2.
  rewrite (click_phase_render cfg p s2 (S k)) by done. cbn [fst snd].
  destruct (IH (S k) s2 Hmode Hclick Hcb1 Hcb2 Hcb3 Htarget ltac:(lia)
              Hphase') as (-> & Hp3 & Hfinal).
  split; [|done].
  destruct (Nat.eqb_spec (S k) (digitCount cfg)) as [Hlast|Hmore];
    destruct n as [|n]; try lia; reflexivity.
Qed.

Lemma click_mount cfg p :
  spinMode cfg = MANUAL -> revealMode cfg = CLICK ->
  click_phase cfg 0 (fst (mount cfg p)) /\ snd (mount cfg p) = [].
Proof.
  intros Hmode Hclick.
  assert (mount cfg p = (initial cfg p, [])) as ->.
  { unfold mount. cbv zeta. rewrite block_eq. blocks.
    unfold settle, resetEffect, sessionStartEffect, manualTimerEffect,
      pendingClickEffect, targetClearedEffect, autoSyncEffect,
      allStoppedEffect, autoStopEffect.
    rewrite Hmode, Hclick. unfold initial.
    destruct (isManualSpinActive p), (bool_decide (targetNumber p = None));
      reflexivity. }
  split; [|done]. unfold click_phase, initial. simpl.
  rewrite !length_fill. repeat split; try done;
    intros i; by rewrite at_index_fill.
Qed.

(** X19: in MANUAL mode with CLICK reveal, a machine that has a target
    number (as when the number of a past winner is on display and no
    session is on) lets the operator run a whole cycle by clicks alone.
    Clicking each digit twice, first to last, starts and stops the
    digits one by one: the first click is followed by [onDigitSpinStart]
    (from the updater, at the render after the click), the second calls
    [onStopDigit] and is followed by [onDigitSpinStop(false)] (from the
    updater).  The parent is never asked to start a spin (no
    [onStartedSpin]), and [onFinished] is called once, at the last stop,
    with the target number still the one that was on display. *)
Theorem click_cycle_without_start_request (cfg : Config) (p : Props) :
  spinMode cfg = MANUAL ->
  revealMode cfg = CLICK ->
  onDigitSpinStart cfg = true ->
  onDigitSpinStop cfg = true ->
  onStopDigit cfg = true ->
  truthy (targetNumber p) = true ->
  let r := run cfg (p, fst (mount cfg p))
             (click_through cfg p 0 (digitCount cfg)) in
  snd r
  = flat_map (fun _ => [OnDigitSpinStart; OnStopDigit; OnDigitSpinStop false])
      (seq 0 (digitCount cfg))
    ++ (if (digitCount cfg =? 0)%nat then [] else [OnFinished]) /\
  count_occ Emit_eq_dec (snd r) OnStartedSpin = 0 /\
  fst (fst r) = p /\
  every (digitStoppedState (snd (fst r))) = true.
Proof.
  intros Hmode Hclick Hcb1 Hcb2 Hcb3 Htarget r.
  destruct (click_mount cfg p Hmode Hclick) as [Hphase _].
  destruct (click_through_run cfg p (digitCount cfg) 0 _ Hmode Hclick
              Hcb1 Hcb2 Hcb3 Htarget eq_refl Hphase) as (He & Hp & Hfinal).
  fold r in He, Hp, Hfinal.
  split; [done|]. split; [|split; [done|]].
  - rewrite He, count_occ_app.
    assert (forall l : list nat,
              count_occ Emit_eq_dec
                (flat_map (fun _ => [OnDigitSpinStart; OnStopDigit;
                                     OnDigitSpinStop false]) l)
                OnStartedSpin = 0)
      as ->.
    { induction l as [|x l IH]; [done|]. exact IH. }
    by destruct (digitCount cfg =? 0)%nat.
  - destruct Hfinal as (_ & Hlen & _ & Hstop & _).
    apply every_true. intros i Hi. rewrite Hstop. apply Nat.ltb_lt. lia.
Qed.

Lemma click_cycle_without_start_request_witness :
  snd (run click_config (displaying "007", fst (mount click_config
                                                   (displaying "007")))
         (click_through click_config (displaying "007") 0 3))
  = [OnDigitSpinStart; OnStopDigit; OnDigitSpinStop false;
     OnDigitSpinStart; OnStopDigit; OnDigitSpinStop false;
     OnDigitSpinStart; OnStopDigit; OnDigitSpinStop false;
     OnFinished] /\
  count_occ Emit_eq_dec
    (snd (run click_config (displaying "007", fst (mount click_config
                                                     (displaying "007")))
            (click_through click_config (displaying "007") 0 3)))
    OnStartedSpin = 0.
Proof.
  pose proof (click_cycle_without_start_request click_config
                (displaying "007") eq_refl eq_refl eq_refl eq_refl eq_refl
                eq_refl) as (H1 & H2 & _).
  split; [exact H1|exact H2].
Defined.

(** *** MANUAL mode with TIMER reveal *)

Lemma manual_mount cfg p :
  spinMode cfg = MANUAL ->
  revealMode cfg = CLICK \/ isManualSpinActive p = false ->
  mount cfg p = (initial cfg p, []).
Proof.
  intros Hmode Hquiet. unfold mount. cbv zeta. rewrite block_eq. blocks.
  unfold settle, resetEffect, sessionStartEffect, manualTimerEffect,
    pendingClickEffect, targetClearedEffect, autoSyncEffect,
    allStoppedEffect, autoStopEffect.
  rewrite Hmode. unfold initial.
  destruct Hquiet as [-> | ->];
    destruct (bool_decide (targetNumber p = None));
    try destruct (isManualSpinActive p);
    try destruct (bool_decide (revealMode cfg = TIMER));
    reflexivity.
Qed.

Lemma timer_session_start cfg p0 p :
  spinMode cfg = MANUAL -> revealMode cfg = TIMER ->
  onDigitSpinStart cfg = true ->
  0 < digitCount cfg ->
  isManualSpinActive p0 = false ->
  isManualSpinActive p = true ->
  truthy (targetNumber p) = true ->
  snd (step cfg (p0, initial cfg p0) (Render p)) = [OnDigitSpinStart] /\
  fst (fst (step cfg (p0, initial cfg p0) (Render p))) = p /\
  timer_phase cfg 0 (snd (fst (step cfg (p0, initial cfg p0) (Render p)))).
Proof.
  intros Hmode Htimer Hcb Hn Hp0 Hp Htarget.
  set (s0 := {| digitSpinningState := fill (digitCount cfg) true;
                digitStoppedState := fill (digitCount cfg) false;
                manualSpinStarted := true;
                pendingClickIndex := None;
                spinningDigitCount := Z.of_nat (digitCount cfg);
                prevIsManualSpinActive := true;
                manualTimers := schedule cfg ManualStop;
                autoTimers := [] |}).
  assert (commit cfg p0 p (initial cfg p0) = (s0, [OnDigitSpinStart]))
    as Hcommit.
  { unfold commit. cbv zeta. rewrite Hp0, Hp.
    rewrite block_eq. blocks.
    unfold sessionStartEffect, manualTimerEffect, pendingClickEffect,
      targetClearedEffect, autoSyncEffect, allStoppedEffect, autoStopEffect,
      initial.
    rewrite Hmode, Htimer, Hp, Hp0, Htarget, Hcb.
    destruct (bool_decide (targetNumber p0 = targetNumber p)),
      (bool_decide (isSpinning p0 = isSpinning p)),
      (bool_decide (targetNumber p = None)); reflexivity. }
  assert (every (digitStoppedState s0) = false) as Hevery.
  { unfold s0. cbn [digitStoppedState].
    apply (every_false_at _ 0); [by rewrite length_fill|].
    by rewrite at_index_fill. }
  rewrite step_render, step_render_emits, Hcommit. cbn [fst snd].
  rewrite settle_running by done. cbn [fst snd]. rewrite app_nil_r.
  split; [done|]. split; [done|].
  unfold timer_phase, s0. simpl. rewrite !length_fill.
  repeat split; try done.
  - intros i. by rewrite at_index_fill.
  - intros i. by rewrite at_index_fill.
  - lia.
  - symmetry. by apply Nat.ltb_lt.
Qed.

Lemma timer_fire cfg p s k :
  spinMode cfg = MANUAL ->
  onDigitSpinStop cfg = true -> onStopDigit cfg = true ->
  truthy (targetNumber p) = true ->
  k < digitCount cfg ->
  timer_phase cfg k s ->
  snd (step cfg (p, s) (Fire (ManualStop k)))
  = [OnStopDigit; OnDigitSpinStop (S k <? digitCount cfg)%nat]
    ++ (if (S k =? digitCount cfg)%nat then [OnFinished] else []) /\
  fst (fst (step cfg (p, s) (Fire (ManualStop k)))) = p /\
  timer_phase cfg (S k) (snd (fst (step cfg (p, s) (Fire (ManualStop k))))).
Proof.
  intros Hmode Hcb1 Hcb2 Htarget Hk
    (Hl1 & Hl2 & Hspin & Hstop & Hcount & Hstarted & Hpend & Hm & Ha).
  pose proof (drop_S _ _ _ (schedule_lookup cfg ManualStop k Hk)) as Hdrop.
  set (s1 := {| digitSpinningState := set_index (digitSpinningState s) k false;
                digitStoppedState := set_index (digitStoppedState s) k true;
                manualSpinStarted := true;
                pendingClickIndex := None;
                spinningDigitCount :=
                  Z.of_nat (digitCount cfg) - Z.of_nat (S k);
                prevIsManualSpinActive := prevIsManualSpinActive s;
                manualTimers := drop (S k) (schedule cfg ManualStop);
                autoTimers := [] |}).
  assert (timeout cfg (ManualStop k) s
          = (s1, [OnStopDigit; OnDigitSpinStop (S k <? digitCount cfg)%nat]))
    as Hfired.
  { unfold timeout. rewrite Hm, Hdrop. cbn [is_pending existsb snd].
    rewrite bool_decide_eq_true_2 by done. cbn [orb].
    unfold fire. simpl. rewrite Hm, Hdrop. simpl.
    rewrite bool_decide_eq_true_2 by done.
    rewrite Hcount, Hcb1, Hcb2. simpl. unfold s1.
    apply Nat.ltb_lt in Hk as Hk'. rewrite Hk' in Hstarted.
    rewrite Hstarted, Hpend, Ha.
    replace (Z.of_nat (digitCount cfg) - Z.of_nat k - 1)%Z
      with (Z.of_nat (digitCount cfg) - Z.of_nat (S k))%Z by lia.
    do 3 f_equal.
    destruct (Nat.ltb_spec (S k) (digitCount cfg)),
      (Z.ltb_spec 0 (Z.of_nat (digitCount cfg) - Z.of_nat (S k))); lia || done. }
  assert (forall i, at_index (digitSpinningState s1) i
                    = (S k <=? i)%nat && (i <? digitCount cfg)%nat) as Hspin1.
  { intros i. unfold s1. cbn [digitSpinningState].
    rewrite at_index_set_index, Hspin.
    destruct (Nat.eqb_spec i k) as [->|Hne].
    - symmetry. apply andb_false_iff. left. apply Nat.leb_gt. lia.
    - f_equal. destruct (Nat.leb_spec k i), (Nat.leb_spec (S k) i);
        lia || done. }
  assert (forall i, at_index (digitStoppedState s1) i = (i <? S k)%nat)
    as Hstop1.
  { intros i. unfold s1. cbn [digitStoppedState].
    rewrite at_index_set_index, Hstop.
    destruct (Nat.eqb_spec i k) as [->|Hne].
    - symmetry. apply Nat.ltb_lt. lia.
    - destruct (Nat.ltb_spec i k), (Nat.ltb_spec i (S k)); lia || done. }
  assert (length (digitStoppedState s1) = digitCount cfg) as Hlen1.
  { unfold s1. simpl. by rewrite length_set_index by lia. }
  assert (length (digitSpinningState s1) = digitCount cfg) as Hlen1'.
  { unfold s1. simpl. by rewrite length_set_index by lia. }
  rewrite step_fire, step_fire_emits, Hfired. cbn [fst snd].
  destruct (Nat.eqb_spec (S k) (digitCount cfg)) as [Hlast|Hmore].
  - rewrite settle_done; [|done|done|done|].
    + cbn [fst snd]. split; [done|]. split; [done|].
      unfold timer_phase. simpl.
      repeat split; try done.
      symmetry. apply Nat.ltb_ge. lia.
    + apply every_true. intros i Hi. rewrite Hstop1.
      apply Nat.ltb_lt. lia.
  - rewrite settle_running; [|done|done|].
    + cbn [fst snd]. rewrite app_nil_r. split; [done|]. split; [done|].
      unfold timer_phase.
      repeat split; try done.
      simpl. symmetry. apply Nat.ltb_lt. lia.
    + intros _. apply (every_false_at _ (S k)); [lia|].
      rewrite Hstop1. by apply Nat.ltb_irrefl.
Qed.

Lemma timer_run cfg p n : forall k s,
  spinMode cfg = MANUAL ->
  onDigitSpinStop cfg = true -> onStopDigit cfg = true ->
  truthy (targetNumber p) = true ->
  k + n = digitCount cfg ->
  timer_phase cfg k s ->
  snd (run cfg (p, s) ((fun i => Fire (ManualStop i)) <$> seq k n))
  = flat_map (fun i => [OnStopDigit;
                        OnDigitSpinStop (S i <? digitCount cfg)%nat])
      (seq k n)
    ++ (if (n =? 0)%nat then [] else [OnFinished]) /\
  fst (fst (run cfg (p, s) ((fun i => Fire (ManualStop i)) <$> seq k n))) = p /\
  timer_phase cfg (digitCount cfg)
    (snd (fst (run cfg (p, s) ((fun i => Fire (ManualStop i)) <$> seq k n)))).
Proof.
  induction n as [|n IH]; intros k s Hmode Hcb1 Hcb2 Htarget Hkn Hphase.
  { simpl. replace (digitCount cfg) with k by lia. done. }
  cbn [seq fmap list_fmap flat_map].
  rewrite !run_cons, !run_cons_emits.
  destruct (timer_fire cfg p s k Hmode Hcb1 Hcb2 Htarget ltac:(lia) Hphase)
    as (-> & Hp1 & Hphase').
  destruct (fst (step cfg (p, s) (Fire (ManualStop k)))) as [p1 s1].
  cbn [fst snd] in Hp1, Hphase'. subst p1.
  destruct (IH (S k) s1 Hmode Hcb1 Hcb2 Htarget ltac:(lia) Hphase')
    as (-> & Hp2 & Hfinal).
  split; [|done].
  destruct (Nat.eqb_spec (S k) (digitCount cfg)) as [Hlast|Hmore];
    destruct n as [|n]; try lia; reflexivity.
Qed.

(** X20: a MANUAL session with TIMER reveal from its start to its end.
    The render that brings the session and the target number starts every
    digit and notifies the start once; the timeouts, fired in the order
    of their delays, stop the digits one by one, each calling
    [onStopDigit] and then, from the updater run at the render that
    follows, [onDigitSpinStop] with whether a digit is still spinning;
    [onFinished] is called once, after the last stop.  At the end every
    digit is stopped, none spins, no timeout is left, and clicks do
    nothing. *)
Theorem manual_timer_session (cfg : Config) (p0 p : Props) :
  spinMode cfg = MANUAL ->
  revealMode cfg = TIMER ->
  onDigitSpinStart cfg = true ->
  onDigitSpinStop cfg = true ->
  onStopDigit cfg = true ->
  0 < digitCount cfg ->
  isManualSpinActive p0 = false ->
  isManualSpinActive p = true ->
  truthy (targetNumber p) = true ->
  let r := run cfg (p0, fst (mount cfg p0))
             (Render p
              :: ((fun i => Fire (ManualStop i))
                    <$> seq 0 (digitCount cfg))) in
  snd r
  = [OnDigitSpinStart]
    ++ flat_map (fun i => [OnStopDigit;
                           OnDigitSpinStop (S i <? digitCount cfg)%nat])
         (seq 0 (digitCount cfg))
    ++ [OnFinished] /\
  every (digitStoppedState (snd (fst r))) = true /\
  some (digitSpinningState (snd (fst r))) = false /\
  manualTimers (snd (fst r)) = [] /\
  (forall idx, step cfg (fst r) (Click idx) = (fst r, [])).
Proof.
  intros Hmode Htimer Hcb1 Hcb2 Hcb3 Hn Hp0 Hp Htarget r. subst r.
  rewrite manual_mount by auto. cbn [fst].
  rewrite run_cons, run_cons_emits.
  destruct (timer_session_start cfg p0 p Hmode Htimer Hcb1 Hn Hp0 Hp Htarget)
    as (-> & Hp1 & Hphase).
  destruct (fst (step cfg (p0, initial cfg p0) (Render p))) as [p1 s1].
  cbn [fst snd] in Hp1, Hphase. subst p1.
  destruct (timer_run cfg p (digitCount cfg) 0 s1 Hmode Hcb2 Hcb3 Htarget
              eq_refl Hphase) as (-> & Hp2 & Hfinal).
  destruct (fst (run cfg (p, s1) _)) as [p2 s2]. cbn [fst snd] in *.
  destruct Hfinal as (Hl1 & Hl2 & Hspin & Hstop & _ & _ & _ & Hm & _).
  split.
  { destruct (Nat.eqb_spec (digitCount cfg) 0); [lia|done]. }
  split.
  { apply every_true. intros i Hi. rewrite Hstop. apply Nat.ltb_lt. lia. }
  split.
  { apply some_false. intros i. rewrite Hspin.
    destruct (Nat.leb_spec (digitCount cfg) i), (Nat.ltb_spec i (digitCount cfg));
      lia || done. }
  split.
  { rewrite Hm. apply drop_ge. by rewrite schedule_length. }
  intros idx. unfold step, clickOffered, isDigitClickable.
  rewrite Hmode, Htimer. simpl. by rewrite andb_false_r.
Qed.

Lemma manual_timer_session_witness :
  snd (run timed_reveal_config (idle, fst (mount timed_reveal_config idle))
         (Render (drawing "123" true)
          :: ((fun i => Fire (ManualStop i)) <$> seq 0 3)))
  = [OnDigitSpinStart;
     OnStopDigit; OnDigitSpinStop true;
     OnStopDigit; OnDigitSpinStop true;
     OnStopDigit; OnDigitSpinStop false;
     OnFinished].
Proof.
  apply (manual_timer_session timed_reveal_config idle (drawing "123" true));
    try reflexivity.
  simpl. lia.
Defined.

(** *** The shape of the state, in every mode *)

Section Shape.
Variable cfg : Config.

Lemma shapes_block (us : list Update) :
  Forall (shapes cfg) us -> shapes cfg (block us).
Proof.
  induction 1 as [|u us Hu _ IH]; intros s Hs; [done|].
  rewrite block_cons. apply IH. by apply Hu.
Qed.

Lemma shapes_skip : shapes cfg skip.
Proof. by intros s Hs. Qed.

Lemma shapes_when (b : bool) (u : Update) :
  shapes cfg u -> shapes cfg (when b u).
Proof. intros Hu. destruct b; [done|apply shapes_skip]. Qed.

Lemma shapes_call (b : bool) (e : Emit) : shapes cfg (call b e).
Proof. by intros s Hs. Qed.

Lemma shapes_setDigitSpinningState (f : list bool -> list bool) :
  (forall arr, length arr = digitCount cfg ->
               length (f arr) = digitCount cfg) ->
  shapes cfg (setDigitSpinningState f).
Proof.
  intros Hf s (H1 & H2 & H3 & H4 & H5). unfold shaped. simpl.
  repeat split; try done; by apply Hf.
Qed.

Lemma shapes_setDigitStoppedState (f : list bool -> list bool) :
  (forall arr, length arr = digitCount cfg ->
               length (f arr) = digitCount cfg) ->
  shapes cfg (setDigitStoppedState f).
Proof.
  intros Hf s (H1 & H2 & H3 & H4 & H5). unfold shaped. simpl.
  repeat split; try done; by apply Hf.
Qed.

Lemma shapes_setManualSpinStarted (v : bool) :
  shapes cfg (setManualSpinStarted v).
Proof. by intros s Hs. Qed.

Lemma shapes_setPrevIsManualSpinActive (v : bool) :
  shapes cfg (setPrevIsManualSpinActive v).
Proof. by intros s Hs. Qed.

Lemma shapes_setSpinningDigitCount (f : Z -> Z * list Emit) :
  shapes cfg (setSpinningDigitCount f).
Proof.
  intros s Hs. unfold setSpinningDigitCount.
  by destruct (f (spinningDigitCount s)).
Qed.

Lemma shapes_setPendingClickIndex (v : option nat) :
  (forall i, v = Some i -> i < digitCount cfg) ->
  shapes cfg (setPendingClickIndex v).
Proof.
  intros Hv s (H1 & H2 & H3 & H4 & H5). unfold shaped. simpl.
  repeat split; try done.
Qed.

Lemma shapes_setManualTimers
    (f : list (Z * TimerAction) -> list (Z * TimerAction)) :
  (forall ts, Forall (fun t => action_ok cfg (snd t)) ts ->
              Forall (fun t => action_ok cfg (snd t)) (f ts)) ->
  shapes cfg (setManualTimers f).
Proof.
  intros Hf s (H1 & H2 & H3 & H4 & H5). unfold shaped. simpl.
  repeat split; try done; by apply Hf.
Qed.

Lemma shapes_setAutoTimers
    (f : list (Z * TimerAction) -> list (Z * TimerAction)) :
  (forall ts, Forall (fun t => action_ok cfg (snd t)) ts ->
              Forall (fun t => action_ok cfg (snd t)) (f ts)) ->
  shapes cfg (setAutoTimers f).
Proof.
  intros Hf s (H1 & H2 & H3 & H4 & H5). unfold shaped. simpl.
  repeat split; try done; by apply Hf.
Qed.

Lemma schedule_ok (action : nat -> TimerAction) :
  (forall i, i < digitCount cfg -> action_ok cfg (action i)) ->
  Forall (fun t => action_ok cfg (snd t)) (schedule cfg action).
Proof.
  intros Hok. unfold schedule. apply Forall_fmap, Forall_forall.
  intros i Hi. apply elem_of_seq in Hi. simpl. apply Hok. lia.
Qed.

Lemma clear_timer_ok (a : TimerAction) (ts : list (Z * TimerAction)) :
  Forall (fun t => action_ok cfg (snd t)) ts ->
  Forall (fun t => action_ok cfg (snd t)) (clear_timer a ts).
Proof.
  induction 1 as [|t ts Ht Hts IH]; simpl; [done|].
  destruct (bool_decide (snd t = a)); [done|by constructor].
Qed.

Lemma is_pending_ok (a : TimerAction) (ts : list (Z * TimerAction)) :
  Forall (fun t => action_ok cfg (snd t)) ts ->
  is_pending a ts = true -> action_ok cfg a.
Proof.
  induction 1 as [|t ts Ht Hts IH]; simpl; [done|].
  destruct (bool_decide (snd t = a)) eqn:E; simpl; [|exact IH].
  apply bool_decide_eq_true in E. by subst.
Qed.

Lemma length_set_index_const (i : nat) (v : bool) (arr : list bool) :
  i < digitCount cfg ->
  length arr = digitCount cfg ->
  length (set_index arr i v) = digitCount cfg.
Proof. intros Hi Hlen. rewrite length_set_index; [done|lia]. Qed.

Ltac shape_leaf :=
  first
    [ apply shapes_skip
    | apply shapes_call
    | apply shapes_setManualSpinStarted
    | apply shapes_setPrevIsManualSpinActive
    | apply shapes_setSpinningDigitCount
    | apply shapes_setDigitSpinningState; intros arr Harr;
      first [ apply length_fill | by apply length_set_index_const ]
    | apply shapes_setDigitStoppedState; intros arr Harr;
      first [ apply length_fill | by apply length_set_index_const
            | destruct (isSpinning _); apply length_fill ]
    | apply shapes_setPendingClickIndex; intros j Hj;
      first [ discriminate Hj | by injection Hj as <- ]
    | apply shapes_setManualTimers; intros ts Hts;
      first [ by constructor | by apply clear_timer_ok
            | by apply schedule_ok ]
    | apply shapes_setAutoTimers; intros ts Hts;
      first [ by constructor | by apply clear_timer_ok
            | by apply schedule_ok
            | by repeat constructor ] ].

Ltac shape_block :=
  apply shapes_block;
  repeat match goal with
    | |- Forall _ (_ :: _) => constructor; [shape_leaf|]
    end;
  try match goal with |- Forall _ [] => constructor end.

Lemma shapes_startDigitSpin (index : nat) :
  index < digitCount cfg -> shapes cfg (startDigitSpin cfg index).
Proof. intros Hi. unfold startDigitSpin. shape_block. Qed.

Lemma shapes_stopDigitSpin (index : nat) :
  index < digitCount cfg -> shapes cfg (stopDigitSpin cfg index).
Proof. intros Hi. unfold stopDigitSpin. shape_block. Qed.

Lemma shapes_resetEffect : shapes cfg (resetEffect cfg).
Proof. unfold resetEffect. shape_block. Qed.

Lemma shapes_sessionStartEffect p : shapes cfg (sessionStartEffect cfg p).
Proof.
  intros s Hs. unfold sessionStartEffect.
  match goal with
  | |- shaped cfg (fst (block ?us s)) => apply (shapes_block us); [|done]
  end.
  constructor; [apply shapes_when; shape_block|].
  constructor; [shape_leaf|constructor].
Qed.

Lemma shapes_manualTimerEffect p : shapes cfg (manualTimerEffect cfg p).
Proof.
  unfold manualTimerEffect. apply shapes_block.
  constructor; [shape_leaf|]. constructor; [|constructor].
  repeat case_match; try apply shapes_skip; shape_block.
Qed.

Lemma shapes_pendingClickEffect p c :
  shaped cfg c -> shapes cfg (pendingClickEffect cfg p c).
Proof.
  intros (_ & _ & Hpend & _). unfold pendingClickEffect.
  destruct (pendingClickIndex c) as [index|] eqn:E; [|apply shapes_skip].
  case_match; [|apply shapes_skip].
  apply shapes_block. constructor; [|constructor; [shape_leaf|constructor]].
  apply shapes_startDigitSpin. by apply Hpend.
Qed.

Lemma shapes_targetClearedEffect p c :
  shapes cfg (targetClearedEffect cfg p c).
Proof.
  unfold targetClearedEffect. case_match; [|apply shapes_skip]. shape_block.
Qed.

Lemma shapes_autoSyncEffect p : shapes cfg (autoSyncEffect cfg p).
Proof.
  unfold autoSyncEffect. case_match; [|apply shapes_skip]. shape_block.
Qed.

Lemma shapes_allStoppedEffect c : shapes cfg (allStoppedEffect cfg c).
Proof.
  unfold allStoppedEffect.
  repeat case_match; try apply shapes_skip; shape_block.
Qed.

Lemma shapes_autoStopEffect p : shapes cfg (autoStopEffect cfg p).
Proof.
  unfold autoStopEffect. apply shapes_block.
  constructor; [shape_leaf|]. constructor; [|constructor].
  repeat case_match; try apply shapes_skip; shape_leaf.
Qed.

Lemma shapes_settle p : shapes cfg (settle cfg p).
Proof.
  intros s Hs. unfold settle.
  apply (shapes_block [targetClearedEffect cfg p s; allStoppedEffect cfg s]);
    [|done].
  constructor; [apply shapes_targetClearedEffect|].
  constructor; [apply shapes_allStoppedEffect|constructor].
Qed.

Lemma shapes_commit p p' : shapes cfg (commit cfg p p').
Proof.
  intros s Hs. unfold commit. cbv zeta.
  match goal with
  | |- shaped cfg (fst (block ?us s)) => apply (shapes_block us); [|done]
  end.
  constructor; [apply shapes_when, shapes_sessionStartEffect|].
  constructor; [apply shapes_when, shapes_manualTimerEffect|].
  constructor; [by apply shapes_when, shapes_pendingClickEffect|].
  constructor; [apply shapes_targetClearedEffect|].
  constructor; [apply shapes_when, shapes_autoSyncEffect|].
  constructor; [apply shapes_allStoppedEffect|].
  constructor; [apply shapes_autoStopEffect|]. constructor.
Qed.

Lemma shaped_initial p : shaped cfg (initial cfg p).
Proof.
  unfold shaped, initial. simpl. rewrite !length_fill.
  repeat split; try done; constructor.
Qed.

Lemma shaped_mount p : shaped cfg (fst (mount cfg p)).
Proof.
  unfold mount. cbv zeta.
  match goal with
  | |- shaped cfg (fst (block ?us ?s)) =>
      apply (shapes_block us); [|apply shaped_initial]
  end.
  constructor; [apply shapes_resetEffect|].
  constructor; [apply shapes_sessionStartEffect|].
  constructor; [apply shapes_manualTimerEffect|].
  constructor; [apply shapes_pendingClickEffect, shaped_initial|].
  constructor; [apply shapes_targetClearedEffect|].
  constructor; [apply shapes_autoSyncEffect|].
  constructor; [apply shapes_allStoppedEffect|].
  constructor; [apply shapes_autoStopEffect|].
  constructor; [apply shapes_settle|]. constructor.
Qed.

Lemma shapes_handleDigitClick p idx :
  idx < digitCount cfg -> shapes cfg (handleDigitClick cfg p idx).
Proof.
  intros Hidx s Hs. unfold handleDigitClick.
  destruct (negb (bool_decide (spinMode cfg = MANUAL))); [done|].
  destruct (bool_decide (revealMode cfg = TIMER)); [done|].
  destruct (at_index (digitSpinningState s) idx);
    [by apply shapes_stopDigitSpin|].
  cbv zeta.
  destruct (at_index (digitStoppedState s) idx
            && negb (every (digitStoppedState s))); [done|].
  destruct (negb (manualSpinStarted s) || every (digitStoppedState s)).
  - match goal with
    | |- shaped cfg (fst (block ?us s)) => apply (shapes_block us); [|done]
    end.
    constructor; [apply shapes_when; shape_leaf|].
    constructor; [shape_leaf|]. constructor; [|constructor].
    destruct (negb (truthy (targetNumber p)) && onStartedSpin cfg);
      [shape_block|by apply shapes_startDigitSpin].
  - destruct (negb (truthy (targetNumber p)));
      [done|by apply shapes_startDigitSpin].
Qed.

Lemma shapes_revealResult p : shapes cfg (revealResult cfg p).
Proof.
  unfold revealResult. case_match; [apply shapes_skip|]. shape_block.
Qed.

Lemma shapes_fire a : action_ok cfg a -> shapes cfg (fire cfg a).
Proof.
  intros Ha. destruct a as [i| |i]; simpl in Ha; unfold fire.
  - shape_block.
  - shape_block.
  - apply shapes_block.
    constructor; [shape_leaf|]. constructor; [shape_leaf|].
    constructor; [apply shapes_when, shapes_call|]. constructor.
Qed.

Lemma shapes_timeout a : shapes cfg (timeout cfg a).
Proof.
  intros s Hs. pose proof Hs as (_ & _ & _ & Hm & Ha). unfold timeout.
  destruct (is_pending a (manualTimers s)) eqn:E1.
  { apply (shapes_block [setManualTimers (clear_timer a); fire cfg a]);
      [|done].
    constructor; [shape_leaf|].
    constructor; [|constructor]. apply shapes_fire.
    exact (is_pending_ok _ _ Hm E1). }
  destruct (is_pending a (autoTimers s)) eqn:E2; [|done].
  apply (shapes_block [setAutoTimers (clear_timer a); fire cfg a]); [|done].
  constructor; [shape_leaf|].
  constructor; [|constructor]. apply shapes_fire.
  exact (is_pending_ok _ _ Ha E2).
Qed.

Lemma shaped_step m ev :
  shaped cfg (snd m) -> shaped cfg (snd (fst (step cfg m ev))).
Proof.
  destruct m as [p s]. cbn [snd]. intros Hs.
  destruct ev as [p'|idx| |a].
  - rewrite step_render. cbn [snd]. by apply shapes_settle, shapes_commit.
  - destruct (clickOffered cfg s idx) eqn:Hoff.
    + rewrite step_click by done. cbn [snd].
      apply shapes_settle, shapes_handleDigitClick; [|done].
      unfold clickOffered in Hoff. apply andb_true_iff in Hoff as [Hlt _].
      by apply Nat.ltb_lt.
    + unfold step. by rewrite Hoff.
  - destruct (revealOffered cfg p) eqn:Hoff.
    + rewrite step_reveal by done. cbn [snd].
      by apply shapes_settle, shapes_revealResult.
    + unfold step. by rewrite Hoff.
  - rewrite step_fire. cbn [snd]. by apply shapes_settle, shapes_timeout.
Qed.

Lemma shaped_run evs : forall m,
  shaped cfg (snd m) -> shaped cfg (snd (fst (run cfg m evs))).
Proof.
  induction evs as [|ev evs IH]; intros m Hm; [done|].
  rewrite run_cons. by apply IH, shaped_step.
Qed.

End Shape.

(** *** The arrays when another prize is selected *)

Section Size.
Variable cfg : Config.

Lemma sizes_block (us : list Update) :
  Forall (sizes (digitCount cfg)) us -> sizes (digitCount cfg) (block us).
Proof.
  induction 1 as [|u us Hu _ IH]; intros s Hs; [done|].
  rewrite block_cons. apply IH. by apply Hu.
Qed.

Lemma sizes_skip : sizes (digitCount cfg) skip.
Proof. by intros s Hs. Qed.

Lemma sizes_when (b : bool) (u : Update) :
  sizes (digitCount cfg) u -> sizes (digitCount cfg) (when b u).
Proof. intros Hu. destruct b; [done|apply sizes_skip]. Qed.

Lemma sized_resetEffect s : sized (digitCount cfg) (fst (resetEffect cfg s)).
Proof. unfold sized, resetEffect. simpl. by rewrite !length_fill. Qed.

Lemma sizes_sessionStartEffect p :
  sizes (digitCount cfg) (sessionStartEffect cfg p).
Proof.
  intros s [H1 H2]. unfold sized, sessionStartEffect.
  destruct (bool_decide (spinMode cfg = MANUAL) && isManualSpinActive p
            && negb (prevIsManualSpinActive s)); simpl;
    by rewrite ?length_fill.
Qed.

Lemma sizes_manualTimerEffect p :
  sizes (digitCount cfg) (manualTimerEffect cfg p).
Proof.
  intros s [H1 H2]. unfold sized, manualTimerEffect.
  destruct (negb (bool_decide (spinMode cfg = MANUAL))
            || negb (bool_decide (revealMode cfg = TIMER))); [done|].
  destruct (negb (isManualSpinActive p) || negb (truthy (targetNumber p)));
    [done|].
  destruct (onDigitSpinStart cfg); simpl; by rewrite length_fill.
Qed.

Lemma sizes_targetClearedEffect p c :
  sizes (digitCount cfg) (targetClearedEffect cfg p c).
Proof.
  intros s [H1 H2]. unfold sized, targetClearedEffect.
  destruct (bool_decide (spinMode cfg = MANUAL)
            && bool_decide (targetNumber p = None) && manualSpinStarted c);
    simpl; by rewrite ?length_fill.
Qed.

Lemma sizes_autoSyncEffect p : sizes (digitCount cfg) (autoSyncEffect cfg p).
Proof.
  intros s [H1 H2]. unfold sized, autoSyncEffect.
  destruct (negb (bool_decide (spinMode cfg = MANUAL))); [|done].
  destruct (isSpinning p); simpl; by rewrite !length_fill.
Qed.

Lemma sizes_allStoppedEffect c :
  sizes (digitCount cfg) (allStoppedEffect cfg c).
Proof.
  intros s [H1 H2]. unfold sized, allStoppedEffect.
  destruct (bool_decide (spinMode cfg = MANUAL) && manualSpinStarted c);
    [|done].
  by destruct (every (digitStoppedState c)).
Qed.

Lemma sizes_autoStopEffect p : sizes (digitCount cfg) (autoStopEffect cfg p).
Proof.
  intros s [H1 H2]. unfold sized, autoStopEffect.
  destruct (bool_decide (spinMode cfg = MANUAL)); [done|].
  destruct (negb (isSpinning p) || negb (truthy (targetNumber p))); [done|].
  destruct (bool_decide (spinMode cfg = ALL_AT_ONCE)); [|done].
  by destruct (bool_decide (stopMode cfg = AUTO_MANUAL)).
Qed.

Lemma sizes_settle p : sizes (digitCount cfg) (settle cfg p).
Proof.
  intros s Hs. unfold settle.
  apply (sizes_block [targetClearedEffect cfg p s; allStoppedEffect cfg s]);
    [|done].
  constructor; [apply sizes_targetClearedEffect|].
  constructor; [apply sizes_allStoppedEffect|constructor].
Qed.

End Size.

(** The render that selects a prize of another [digitCount] resizes the
    arrays, by the reset effect (no click being pending). *)
Lemma select_resizes (cfg : Config) (prize : Prize) (p p' : Props)
    (s : State) :
  Types.digitCount prize <> digitCount cfg ->
  pendingClickIndex s = None ->
  length (digitSpinningState
            (snd (snd (fst (react (cfg, (p, s)) (SelectPrize prize p'))))))
  = Types.digitCount prize /\
  length (digitStoppedState
            (snd (snd (fst (react (cfg, (p, s)) (SelectPrize prize p'))))))
  = Types.digitCount prize.
Proof.
  intros Hdigits Hpend. rewrite react_select. cbn [fst snd].
  set (cfg' := of_prize cfg prize).
  change (Types.digitCount prize) with (digitCount cfg') in *.
  apply sizes_settle. unfold recommit. cbv zeta.
  rewrite (bool_decide_eq_false_2 (digitCount cfg = digitCount cfg'))
    by done.
  cbn [negb orb when]. rewrite block_cons.
  match goal with
  | |- sized _ (fst (block ?us ?s1)) =>
      apply (sizes_block cfg' us); [|apply sized_resetEffect]
  end.
  constructor; [apply sizes_when, sizes_sessionStartEffect|].
  constructor; [apply sizes_when, sizes_manualTimerEffect|].
  constructor.
  { apply sizes_when. unfold pendingClickEffect. rewrite Hpend.
    apply sizes_skip. }
  constructor; [apply sizes_targetClearedEffect|].
  constructor; [apply sizes_when, sizes_autoSyncEffect|].
  constructor; [apply sizes_allStoppedEffect|].
  constructor; [apply sizes_autoStopEffect|constructor].
Qed.

(** X21: as long as the prize is the one the component was mounted with
    (its props [digitCount], [spinMode] and the like do not change),
    whatever the mode and whatever the renders, clicks, reveals and
    timeouts, the two arrays of the machine keep one entry for each
    digit: every digit that is rendered reads a defined flag, an
    assignment by index never makes an array grow, and the pending click
    and the pending timeouts only hold indices of digits.  When a prize of
    more digits is selected, the arrays are resized by the reset effect
    only, which runs after the render: at that render the digits beyond
    the old length read no flag ([undefined], falsy); once the effects
    have run (no click being pending) the arrays have the new length. *)
Theorem state_keeps_its_shape (cfg : Config) (p0 : Props) (evs : list Event) :
  shaped cfg (snd (exec cfg p0 evs)) /\
  (forall idx, idx < digitCount cfg ->
     is_Some (digitSpinningState (snd (exec cfg p0 evs)) !! idx) /\
     is_Some (digitStoppedState (snd (exec cfg p0 evs)) !! idx)) /\
  (forall idx, digitCount cfg <= idx ->
     digitSpinningState (snd (exec cfg p0 evs)) !! idx = None /\
     digitStoppedState (snd (exec cfg p0 evs)) !! idx = None /\
     spinning (exec cfg p0 evs) idx = false /\
     stopped (exec cfg p0 evs) idx = false) /\
  (forall prize p',
     Types.digitCount prize <> digitCount cfg ->
     pendingClickIndex (snd (exec cfg p0 evs)) = None ->
     let m' := fst (react (cfg, exec cfg p0 evs) (SelectPrize prize p')) in
     length (digitSpinningState (snd (snd m'))) = Types.digitCount prize /\
     length (digitStoppedState (snd (snd m'))) = Types.digitCount prize).
Proof.
  assert (shaped cfg (snd (exec cfg p0 evs))) as Hs.
  { unfold exec. apply shaped_run. cbn [snd]. apply shaped_mount. }
  split; [done|]. destruct Hs as (H1 & H2 & _).
  split; [|split].
  - intros idx Hidx. split; apply lookup_lt_is_Some; lia.
  - intros idx Hidx. unfold spinning, stopped, at_index.
    rewrite !lookup_ge_None_2 by lia. done.
  - intros prize p' Hdigits Hpend.
    destruct (exec cfg p0 evs) as [p s]. cbn [snd] in *.
    apply (select_resizes cfg prize p p' s Hdigits Hpend).
Qed.

(** *** MANUAL mode with CLICK reveal: the click that asks for a draw *)

(** X24: in MANUAL mode with CLICK reveal, when no target number is set,
    the click on a digit that is offered and not spinning asks the parent
    to start a spin ([onStartedSpin], once) and starts no digit; the
    effect that resets the machine while the target number is [null] then
    runs on the cycle just opened, so the click is not kept pending:
    no cycle is started, no click is pending and every digit is back to
    waiting.  A second click before the target number arrives asks
    again. *)
Theorem click_without_target_requests_draw
    (cfg : Config) (p0 : Props) (evs : list Event) (idx : nat) :
  spinMode cfg = MANUAL ->
  revealMode cfg = CLICK ->
  onStartedSpin cfg = true ->
  targetNumber (fst (exec cfg p0 evs)) = None ->
  clickOffered cfg (snd (exec cfg p0 evs)) idx = true ->
  spinning (exec cfg p0 evs) idx = false ->
  let m' := fst (step cfg (exec cfg p0 evs) (Click idx)) in
  snd (step cfg (exec cfg p0 evs) (Click idx)) = [OnStartedSpin] /\
  fst m' = fst (exec cfg p0 evs) /\
  pendingClickIndex (snd m') = None /\
  manualSpinStarted (snd m') = false /\
  digitSpinningState (snd m') = fill (digitCount cfg) false /\
  digitStoppedState (snd m') = fill (digitCount cfg) false /\
  snd (step cfg m' (Click idx)) = [OnStartedSpin].
Proof.
  intros Hmode Hclick Hcb Htarget Hoff Hspin.
  pose proof (exec_settled cfg Hmode p0 evs) as Hset.
  destruct (exec cfg p0 evs) as [p s]. unfold spinning in Hspin.
  cbn [fst snd] in *.
  assert (forall s0,
            manualSpinStarted s0 = false ->
            clickOffered cfg s0 idx = true ->
            at_index (digitSpinningState s0) idx = false ->
            snd (step cfg (p, s0) (Click idx)) = [OnStartedSpin] /\
            fst (fst (step cfg (p, s0) (Click idx))) = p /\
            pendingClickIndex (snd (fst (step cfg (p, s0) (Click idx))))
            = None /\
            manualSpinStarted (snd (fst (step cfg (p, s0) (Click idx))))
            = false /\
            digitSpinningState (snd (fst (step cfg (p, s0) (Click idx))))
            = fill (digitCount cfg) false /\
            digitStoppedState (snd (fst (step cfg (p, s0) (Click idx))))
            = fill (digitCount cfg) false) as Hstep.
  { intros s0 Hstarted Hoff0 Hspin0.
    pose proof Hoff0 as Hc. unfold clickOffered, isDigitClickable in Hc.
    rewrite Hmode, Hclick, Hspin0 in Hc. simpl in Hc.
    apply andb_true_iff in Hc as [Hlt Hc]. apply Nat.ltb_lt in Hlt.
    destruct (some (digitSpinningState s0)); [done|].
    assert (at_index (digitStoppedState s0) idx
            && negb (every (digitStoppedState s0)) = false) as Hgate.
    { destruct (every (digitStoppedState s0)); [apply andb_false_r|].
      by destruct (at_index (digitStoppedState s0) idx). }
    rewrite step_click, step_click_emits by done. cbn [fst snd].
    unfold handleDigitClick.
    rewrite Hmode, Hclick, Hspin0, Hgate, Hstarted, Htarget, Hcb.
    cbn [negb orb andb truthy bool_decide decide_rel].
    unfold settle, targetClearedEffect, allStoppedEffect.
    rewrite Hmode, Htarget.
    destruct (every (digitStoppedState s0)) eqn:Hall; simpl;
      rewrite ?Hall; simpl.
    - assert (every (fill (digitCount cfg) false) = false) as ->.
      { apply (every_false_at _ idx); [by rewrite length_fill|].
        rewrite at_index_fill. done. }
      done.
    - done. }
  destruct (Hstep s (proj1 (not_true_iff_false _)
                      (fun H => Hset H Htarget)) Hoff Hspin)
    as (He & Hp & Hpend & Hstarted & Hspin' & Hstop').
  repeat split; try done.
  destruct (fst (step cfg (p, s) (Click idx))) as [p1 s1].
  cbn [fst snd] in *. subst p1.
  apply Hstep; [done| |by rewrite Hspin', at_index_fill].
  pose proof Hoff as Hc. unfold clickOffered in Hc.
  apply andb_true_iff in Hc as [Hlt _].
  unfold clickOffered, isDigitClickable.
  rewrite Hmode, Hclick, Hspin', Hstop', Hlt. simpl.
  rewrite !at_index_fill. simpl.
  assert (some (fill (digitCount cfg) false) = false) as ->.
  { apply some_false. intros i. by rewrite at_index_fill. }
  by destruct (every (fill (digitCount cfg) false)).
Qed.

Lemma click_without_target_requests_draw_witness :
  snd (step click_config (exec click_config idle []) (Click 1))
  = [OnStartedSpin] /\
  fst (fst (step click_config (exec click_config idle []) (Click 1)))
  = fst (exec click_config idle []) /\
  pendingClickIndex
    (snd (fst (step click_config (exec click_config idle []) (Click 1))))
  = None.
Proof.
  pose proof (click_without_target_requests_draw click_config idle [] 1
                eq_refl eq_refl eq_refl eq_refl eq_refl eq_refl)
    as (H1 & H2 & H3 & _).
  split; [exact H1|]. split; [exact H2|exact H3].
Defined.

End SlotExtras.

(** ** What is displayed *)

Module DisplayExtras.
Import JS Types Slot Display DrawClaims.

Lemma length_repeat_zero (n : nat) : String.length (repeat "0" n) = n.
Proof.
  induction n as [|n IH]; [done|].
  change (repeat "0" (S n)) with ("0" +:+ repeat "0" n).
  by rewrite length_append, IH.
Qed.

Lemma char_at_is_Some (s : string) : forall idx,
  idx < String.length s -> is_Some (char_at s idx).
Proof.
  unfold char_at. induction s as [|c s IH]; intros idx Hidx; simpl in *;
    [lia|].
  destruct idx as [|idx]; [by eexists|]. apply IH. lia.
Qed.

Lemma char_at_repeat_zero (n idx : nat) :
  idx < n -> char_at (repeat "0" n) idx = Some "0"%char.
Proof.
  unfold char_at. revert idx. induction n as [|n IH]; intros idx Hidx; [lia|].
  destruct idx as [|idx]; [done|]. simpl. apply IH. lia.
Qed.

(** X22: every digit that is rendered has a character to show.
    [safeTarget] is at least [digitCount] long, so [safeTarget[idx]] is
    defined for every digit.  Without a target number every digit has the
    placeholder ["0"] and shows the question mark, in every mode.  With
    one, [safeTarget] is the very string [handleSpinFinished] records for
    a prize of the same [digitCount]. *)
Theorem safeTarget_covers_digits (cfg : Config) (p : Props) :
  digitCount cfg <= String.length (safeTarget cfg p) /\
  (forall idx, idx < digitCount cfg ->
     is_Some (char_at (safeTarget cfg p) idx)) /\
  (truthy (targetNumber p) = false ->
   forall idx s, idx < digitCount cfg ->
     char_at (safeTarget cfg p) idx = Some "0"%char /\
     getShowQuestionMark cfg p s idx = true) /\
  (forall target prize now_id now_stamp,
     targetNumber p = Some target ->
     truthy (Some target) = true ->
     Types.digitCount prize = digitCount cfg ->
     Allocator.number (Draw.newWinner prize target now_id now_stamp)
     = safeTarget cfg p).
Proof.
  assert (digitCount cfg <= String.length (safeTarget cfg p)) as Hlen.
  { unfold safeTarget. destruct (truthy (targetNumber p)).
    - rewrite padStart_zero_padded. apply length_zero_padded.
    - by rewrite length_repeat_zero. }
  split; [done|]. split; [|split].
  - intros idx Hidx. apply char_at_is_Some. lia.
  - intros Hnone idx s Hidx.
    unfold safeTarget, getShowQuestionMark. rewrite Hnone.
    split; [by apply char_at_repeat_zero|done].
  - intros target prize now_id now_stamp Ht Htruthy Hdigits.
    unfold safeTarget. rewrite Ht, Htruthy. simpl. by rewrite Hdigits.
Qed.

End DisplayExtras.

(** ** One digit *)

Module DigitExtras.
Import JS Digit.

Lemma disciplined_mount (p : Props) : disciplined (p, fst (mount p)).
Proof.
  unfold disciplined, mount, effect, initial. cbn [fst snd].
  destruct (isSpinning p), (isStopped p); simpl;
    repeat split; try done; intros id; rewrite ?elem_of_union,
      ?elem_of_singleton, ?elem_of_empty; try tauto.
  - intros [->|[]]; done.
  - intros [= <-]. lia.
Qed.

Lemma cleanup_running (m : Props * State) :
  disciplined m -> running (cleanup (snd m)) = ∅.
Proof.
  intros (Hrun & _). unfold cleanup.
  destruct (intervalRef (snd m)) as [id|] eqn:E; simpl.
  - apply set_eq. intros x.
    rewrite elem_of_difference, elem_of_singleton, elem_of_empty.
    split; [|done]. intros [Hx Hne]. apply Hne.
    specialize (Hrun x Hx). congruence.
  - apply set_eq. intros x. rewrite elem_of_empty. split; [|done].
    intros Hx. specialize (Hrun x Hx). congruence.
Qed.

Lemma cleared_empty (ref : option nat) :
  match ref with
  | Some id => (∅ : gset nat) ∖ {[ id ]}
  | None => ∅
  end = ∅.
Proof.
  destruct ref; [|done]. apply difference_disjoint_L, disjoint_empty_l.
Qed.

Lemma disciplined_effect (p' : Props) (d : State) :
  running d = ∅ ->
  (forall id, intervalRef d = Some id -> id < next_id d) ->
  disciplined (p', fst (effect p' d)).
Proof.
  intros Hrun Hid. unfold disciplined, effect. cbn [fst snd].
  destruct (isSpinning p'), (isStopped p'); simpl;
    rewrite ?Hrun, ?cleared_empty;
    repeat split; try done;
    try (intros id [= <-]; lia);
    try (intros id Hx; by apply elem_of_empty in Hx).
  intros id. rewrite elem_of_union, elem_of_singleton, elem_of_empty.
  intros [->|[]]. done.
Qed.

Lemma disciplined_step (m : Props * State) (ev : Event) :
  disciplined m -> disciplined (fst (step m ev)).
Proof.
  intros Hm. pose proof Hm as (Hrun & Hid & Hidle & Hshown).
  destruct m as [p d]. destruct ev as [p'|r]; unfold step; cbn [fst snd] in *.
  - unfold render.
    destruct (same_deps p p') eqn:Hdeps.
    + cbn [fst snd]. unfold same_deps in Hdeps.
      apply andb_true_iff in Hdeps as [Hdeps _].
      apply andb_true_iff in Hdeps as [Hdeps Hvalue].
      apply andb_true_iff in Hdeps as [Hspin Hstop].
      apply bool_decide_eq_true in Hspin, Hstop, Hvalue.
      unfold disciplined. cbn [fst snd].
      rewrite <- Hspin, <- Hstop, <- Hvalue. done.
    + destruct (effect p' (cleanup d)) as [d' e] eqn:E. cbn [fst].
      change d' with (fst (d', e)). rewrite <- E.
      apply disciplined_effect.
      * apply (cleanup_running (p, d) Hm).
      * intros id. unfold cleanup.
        destruct (intervalRef d) eqn:E'; simpl; rewrite ?E'; apply Hid.
  - unfold disciplined, tick. cbn [fst snd].
    destruct (bool_decide (running d = ∅)) eqn:Hempty; [done|].
    apply bool_decide_eq_false in Hempty.
    cbn [displayValue running intervalRef next_id].
    split; [done|]. split; [done|]. split.
    + intros Hquiet. destruct Hempty. by apply Hidle.
    + intros Hstopped. destruct Hempty. apply Hidle.
      rewrite Hstopped. apply andb_false_r.
Qed.

Lemma disciplined_run (evs : list Event) : forall m,
  disciplined m -> disciplined (fst (run m evs)).
Proof.
  induction evs as [|ev evs IH]; intros m Hm; [done|].
  change (run m (ev :: evs))
    with (let (m1, e1) := step m ev in
          let (m2, e2) := run m1 evs in (m2, e1 ++ e2)).
  pose proof (disciplined_step m ev Hm) as Hstep.
  destruct (step m ev) as [m1 e1]. cbn [fst] in Hstep.
  specialize (IH m1 Hstep). by destruct (run m1 evs).
Qed.

(** A digit that spins, flickers and stops on its value. *)
Example digit_trace :
  displayValue (snd (exec (digit "7" false false)
                       [Render (digit "7" true false); Tick 13;
                        Render (digit "7" true true); Tick 4]))
  = "7" /\
  displayValue (snd (exec (digit "7" false false)
                       [Render (digit "7" true false); Tick 13]))
  = "3" /\
  size (running (snd (exec (digit "7" false false)
                        [Render (digit "7" true false); Tick 13])))
  = 1.
Proof. repeat split; vm_compute; reflexivity. Qed.

(** X23: a digit never leaks an interval.  Whatever the renders and the
    ticks, at most one flicker interval is running, the one whose id the
    ref holds, and none is running unless the digit is spinning and not
    stopped; hence a stopped digit displays its value, which no tick can
    overwrite, and shows it unless the question mark is asked for. *)
Theorem digit_interval_discipline (p0 : Props) (evs : list Event) :
  disciplined (exec p0 evs) /\
  size (running (snd (exec p0 evs))) <= 1 /\
  (isStopped (fst (exec p0 evs)) = true ->
   forall r,
     tick r (snd (exec p0 evs)) = snd (exec p0 evs) /\
     glyph (fst (exec p0 evs)) (snd (exec p0 evs))
     = if showQuestionMark (fst (exec p0 evs)) then "?"
       else value (fst (exec p0 evs))).
Proof.
  assert (disciplined (exec p0 evs)) as Hm.
  { unfold exec. apply disciplined_run, disciplined_mount. }
  split; [done|]. destruct Hm as (Hrun & Hid & Hidle & Hshown). split.
  - destruct (intervalRef (snd (exec p0 evs))) as [id|] eqn:E.
    + rewrite <- (size_singleton (C := gset nat) id).
      apply subseteq_size. intros x Hx. apply elem_of_singleton.
      specialize (Hrun x Hx). congruence.
    + assert (running (snd (exec p0 evs)) = ∅) as ->.
      { apply set_eq. intros x. rewrite elem_of_empty. split; [|done].
        intros Hx. specialize (Hrun x Hx). congruence. }
      rewrite size_empty. lia.
  - intros Hstopped r. split.
    + unfold tick. rewrite Hidle; [done|].
      rewrite Hstopped. apply andb_false_r.
    + unfold glyph. by rewrite Hshown.
Qed.

End DigitExtras.
